(** * bonnie: a shallow embedding of Martin Cracauer's bench-disk-bonnie.c

    The C program is embedded function by function.  Integers are [Z] with
    the wrap-around of their C type written out, [double] values are exact
    rationals ([Q]) in the monad, where the statements use only their
    comparisons and single operations, and IEEE 754 numbers where the
    rounding of a chain of additions decides a statement ([add_cpu_reports]),
    arrays are lists updated by index, and everything that talks to the
    operating system lives in a small state-and-exit monad [M] whose state
    holds the process's view of the system, the program's globals and the
    trace of calls issued so far.  The answers of the operating system come
    from an environment [env], so a statement quantified over [env] covers
    every behaviour of the system. *)

From stdpp Require Import base list strings pretty.
From Stdlib Require Import Ascii ZArith QArith Qminmax Lia Lqa.
From Stdlib Require Floats.SpecFloat.
Open Scope Z_scope.

(** ** Constants ([#define]s of the source) *)

Definition IntSize : Z := 4.
Definition CPU : Z := 0.
Definition Elapsed : Z := 1.
Definition StartTime : Z := 1.
Definition EndTime : Z := 2.
Definition Seeks : Z := 100000.
Definition Seeks2 : Z := 100000.
Definition UpdateSeek : Z := 10.
Definition SeekProcCount : Z := 3.
Definition Chunk : Z := 8192.

Inductive tests_t := Putc | ReWrite | FastWrite | Getc | FastRead | Lseek | Lseek2.

#[global] Instance tests_t_eq_dec : EqDecision tests_t.
Proof. solve_decision. Defined.

(** ** C arithmetic *)

(** Two's complement wrap-around of a signed [bits]-bit integer. *)
Definition wrap (bits x : Z) : Z := (x + 2 ^ (bits - 1)) mod 2 ^ bits - 2 ^ (bits - 1).
Definition int32 : Z -> Z := wrap 32.
Definition int64 : Z -> Z := wrap 64.

(** [a / b] and [a % b] of C truncate towards zero: [Z.quot] and [Z.rem]. *)
Notation "a ÷ b" := (Z.quot a b) (at level 40, left associativity) : Z_scope.

(** C truth values. *)
Definition truth (b : bool) : Z := if b then 1 else 0.
Definition nonzero (x : Z) : bool := negb (x =? 0).

(** [double] comparison [x < y]. *)
Definition Qltb (x y : Q) : bool := negb (Qle_bool y x).

(** Range of [random()] and [rand()]: 0 .. 2^31 - 1. *)
Definition RANDOM_MAX : Z := 2147483647.

(** ** Pure pieces of the source *)

(** Ticket buffer, lines 219-222:
    [for (next = 0; next < Seeks; next++) seek_tickets[next] = 1;
     for ( ; next < (Seeks + SeekProcCount); next++) seek_tickets[next] = 0;]
    [fill n next v a] runs [n] iterations of [a[next] = v; next++]. *)
Fixpoint fill (n : nat) (next v : Z) (a : list Z) : list Z :=
  match n with
  | O => a
  | S n' => fill n' (next + 1) v (<[Z.to_nat next := v]> a)
  end.

(** Iterations of [for ( ; next < hi; next++)] entered with [next = lo]. *)
Definition iterations (lo hi : Z) : nat := Z.to_nat (hi - lo).

Definition make_tickets (seek_tickets : list Z) : list Z :=
  let a := fill (iterations 0 Seeks) 0 1 seek_tickets in
  fill (iterations Seeks (Seeks + SeekProcCount)) Seeks 0 a.

(** [sizeof(seek_tickets)]: [char seek_tickets[Seeks + SeekProcCount]]. *)
Definition sizeof_seek_tickets : Z := Seeks + SeekProcCount.

(** A seeker's report: [double seeker_report[3]], indexed by [CPU],
    [StartTime] and [EndTime]. *)
Record seeker_report := Report {
  at_CPU : Q;
  at_StartTime : Q;
  at_EndTime : Q
}.

Definition sizeof_seeker_report : Z := 24.

(** The coordinator's running figures while it collects reports
    (lines 296-308): [delta[whereto][CPU]], [first_start], [last_stop]. *)
Record tally := Tally {
  t_cpu : Q;
  first_start : Q;
  last_stop : Q
}.

Definition absorb (next : Z) (t : tally) (r : seeker_report) : tally :=
  let cpu := (t_cpu t + at_CPU r)%Q in
  if next =? 0 then
    Tally cpu (at_StartTime r) (at_EndTime r)
  else
    Tally cpu
      (if Qltb (first_start t) (at_StartTime r) then first_start t else at_StartTime r)
      (if Qltb (at_EndTime r) (last_stop t) then last_stop t else at_EndTime r).

(** The collection loop on the reports in their order of arrival, without the
    system calls. *)
Fixpoint absorb_all (next : Z) (t : tally) (rs : list seeker_report) : tally :=
  match rs with
  | [] => t
  | r :: rs' => absorb_all (next + 1) (absorb next t r) rs'
  end.

(** [last_stop - first_start], line 314. *)
Definition elapsed_of (t : tally) : Q := (last_stop t - first_start t)%Q.

(** Line 296 in the arithmetic of the machine: a [double] is an IEEE 754
    binary64 number, and [+=] rounds to nearest, ties to even. *)
Definition double : Type := SpecFloat.spec_float.
Definition double_add (x y : double) : double := SpecFloat.SFadd 53 1024 x y.

(** [delta[whereto][CPU] += seeker_report[CPU]], once for each report in the
    order of arrival. *)
Definition add_cpu_reports (cell : double) (cpus : list double) : double :=
  foldl double_add cell cpus.

(** Line 250: [(long long) ((random() * 0xFFFFFFFF) % file_size)].  With a
    64-bit [long] the product is a [long]. *)
Definition seek_where (rnd file_size : Z) : Z :=
  int64 (Z.rem (int64 (rnd * 4294967295)) file_size).

(** Line 677: [probe = (where / Chunk) * Chunk]. *)
Definition probe_of (where_ : Z) : Z := int64 ((where_ ÷ Chunk) * Chunk).

(** Line 251: [(lseek_count++ % UpdateSeek) == 0]. *)
Definition update_of (lseek_count : Z) : Z := truth (Z.rem lseek_count UpdateSeek =? 0).

(** Line 688: the divisor and the index of the word that is touched. *)
Definition touch_divisor (size : Z) : Z := int32 (size ÷ IntSize - 2).
Definition touch_index (rnd size : Z) : Z := Z.rem rnd (touch_divisor size) + 1.

(** [atoll] of the C library: white space, an optional sign, decimal digits;
    what follows is ignored, out-of-range values saturate. *)
Definition is_space (c : ascii) : bool :=
  let n := nat_of_ascii c in (n =? 32)%nat || ((9 <=? n)%nat && (n <=? 13)%nat).

Definition digit_of (c : ascii) : option Z :=
  let n := Z.of_nat (nat_of_ascii c) in
  if (48 <=? n) && (n <=? 57) then Some (n - 48) else None.

Fixpoint digits (acc : Z) (s : string) : Z :=
  match s with
  | String c s' => match digit_of c with Some d => digits (10 * acc + d) s' | None => acc end
  | EmptyString => acc
  end.

Fixpoint skip_space (s : string) : string :=
  match s with
  | String c s' => if is_space c then skip_space s' else s
  | EmptyString => s
  end.

Definition LLONG_MAX : Z := 9223372036854775807.

Definition atoll (s : string) : Z :=
  let clamp x := Z.max (- LLONG_MAX - 1) (Z.min LLONG_MAX x) in
  match skip_space s with
  | String "-"%char s' => clamp (- digits 0 s')
  | String "+"%char s' => clamp (digits 0 s')
  | s' => clamp (digits 0 s')
  end.

(** [argv[i]], [s[0]] and [s + 1]. *)
Definition arg (argv : list string) (i : Z) : string :=
  if i <? 0 then EmptyString else default EmptyString (argv !! Z.to_nat i).
Definition first_char (s : string) : option ascii :=
  match s with String c _ => Some c | EmptyString => None end.
Definition after_first (s : string) : string :=
  match s with String _ s' => s' | EmptyString => EmptyString end.

(** ** The process and the operating system *)

Inductive pipe_end := seek_feedback_0 | seek_feedback_1 | seek_control_0 | seek_control_1.

(** The calls the program makes.  File calls carry the descriptor they are
    given; the two pipes have calls of their own. *)
Inductive call :=
| c_atexit
| c_signal (signum : string)
| c_time
| c_getpid
| c_system (command : string)
| c_pipe
| c_fork
| c_wait
| c_sleep (seconds : Z)
| c_close_pipe (which : pipe_end)
| c_write_tickets (tickets : list Z) (count : Z)
| c_read_ticket
| c_write_report (report : seeker_report) (count : Z)
| c_read_report (count : Z)
| c_unlink
| c_open (create : bool)
| c_fdopen (fd : Z)
| c_lseek (fd offset whence : Z)
| c_read (fd count : Z)
| c_write (fd : Z) (buf : list Z) (count : Z)
| c_fsync (fd : Z)
| c_close (fd : Z)
| c_gettimeofday
| c_getrusage.

Inductive event :=
| EvSys (k : nat) (c : call) (pos : Z) (ret : Z)
    (* call number [k], the offset of the benchmark file's descriptor when
       it was issued, and the value it returned *)
| EvDoseek (where_ update do_touch : Z)        (* entry of [doseek] *)
| EvStderr (format : string) (args : list Z)   (* [fprintf(stderr, ...)] *)
| EvPerror (message : string)                  (* [perror] *)
| EvReport                                     (* the table [report] prints *)
| EvExit (status : Z).

(** What the system answers.  Every call has a number, its position in the
    sequence of calls of the process.  [e_inject k = None] lets call [k]
    behave normally; [Some v] makes it fail, or, for a transfer of bytes,
    return the short count [v].  At a [fork], [Some 0] follows the child; at
    a [signal], [Some v] is the previous handler. *)
Record env := Env {
  e_inject : nat -> option Z;
  e_random : nat -> Z;                 (* successive values of [random]/[rand] *)
  e_tod : nat -> Z * Z;                (* [tv_sec], [tv_usec] *)
  e_rusage : nat -> (Z * Z) * (Z * Z); (* [ru_utime], [ru_stime] *)
  e_report : nat -> seeker_report;     (* what arrives on the feedback pipe *)
  e_data : nat -> Z -> Z;              (* the words a [read] of the file finds *)
  e_pick : nat -> nat;                 (* which child a [wait] reaps *)
  e_stack : Z -> Z                     (* contents of uninitialised arrays *)
}.

Record os := Os {
  ncall : nat;             (* calls issued so far *)
  nrandom : nat;           (* random numbers drawn so far *)
  pid : Z;
  f_exists : bool;         (* the benchmark file exists *)
  f_size : Z;              (* its size in bytes *)
  f_pos : Z;               (* offset of the open descriptor *)
  children : list Z;       (* children not waited for *)
  control : list Z;        (* bytes this process will find on the control pipe *)
  trace : list event
}.

Record globals := Globals {
  basetime : Z;
  delta : tests_t -> Z -> Q;
  last_cpustamp : Q;
  last_timestamp : Q;
  file_size : Z;
  filename : string;
  do_cleanup : Z
}.

Record state := State { st_os : os; st_g : globals }.

Inductive stop := Exited (status : Z) | Killed (signal : string) | OutOfFuel.

Inductive res (A : Type) := Ret (a : A) | Stop (why : stop).
Arguments Ret {A} a.
Arguments Stop {A} why.

Definition M (A : Type) : Type := env -> state -> res A * state.

#[global] Instance M_ret : MRet M := λ A a, λ e s, (Ret a, s).
#[global] Instance M_bind : MBind M := λ A B f m, λ e s,
  match m e s with
  | (Ret a, s') => f a e s'
  | (Stop w, s') => (Stop w, s')
  end.

Definition halt {A} (w : stop) : M A := λ e s, (Stop w, s).
Definition skip : M unit := mret tt.

Definition get_g {A} (f : globals -> A) : M A := λ e s, (Ret (f (st_g s)), s).
Definition get_os {A} (f : os -> A) : M A := λ e s, (Ret (f (st_os s)), s).
Definition ask {A} (f : env -> A) : M A := λ e s, (Ret (f e), s).
Definition set_g (f : globals -> globals) : M unit := λ e s, (Ret tt, State (st_os s) (f (st_g s))).

Definition with_trace (o : os) (tr : list event) : os :=
  Os (ncall o) (nrandom o) (pid o) (f_exists o) (f_size o) (f_pos o) (children o) (control o) tr.
Definition with_file (o : os) (ex : bool) (size pos : Z) : os :=
  Os (ncall o) (nrandom o) (pid o) ex size pos (children o) (control o) (trace o).
Definition with_pos (o : os) (pos : Z) : os := with_file o (f_exists o) (f_size o) pos.
Definition with_children (o : os) (p : Z) (cs : list Z) : os :=
  Os (ncall o) (nrandom o) p (f_exists o) (f_size o) (f_pos o) cs (control o) (trace o).
Definition with_control (o : os) (bs : list Z) : os :=
  Os (ncall o) (nrandom o) (pid o) (f_exists o) (f_size o) (f_pos o) (children o) bs (trace o).
Definition counted (o : os) : os :=
  Os (S (ncall o)) (nrandom o) (pid o) (f_exists o) (f_size o) (f_pos o) (children o) (control o) (trace o).
Definition drawn (o : os) : os :=
  Os (ncall o) (S (nrandom o)) (pid o) (f_exists o) (f_size o) (f_pos o) (children o) (control o) (trace o).

Definition with_delta (g : globals) (d : tests_t -> Z -> Q) : globals :=
  Globals (basetime g) d (last_cpustamp g) (last_timestamp g) (file_size g) (filename g) (do_cleanup g).
Definition with_cpustamp (g : globals) (cpu : Q) : globals :=
  Globals (basetime g) (delta g) cpu (last_timestamp g) (file_size g) (filename g) (do_cleanup g).
Definition with_timestamp (g : globals) (time : Q) : globals :=
  Globals (basetime g) (delta g) (last_cpustamp g) time (file_size g) (filename g) (do_cleanup g).
Definition with_file_size (g : globals) (n : Z) : globals :=
  Globals (basetime g) (delta g) (last_cpustamp g) (last_timestamp g) n (filename g) (do_cleanup g).
Definition with_filename (g : globals) (name : string) : globals :=
  Globals (basetime g) (delta g) (last_cpustamp g) (last_timestamp g) (file_size g) name (do_cleanup g).
Definition with_do_cleanup (g : globals) (n : Z) : globals :=
  Globals (basetime g) (delta g) (last_cpustamp g) (last_timestamp g) (file_size g) (filename g) n.
Definition with_basetime (g : globals) (n : Z) : globals :=
  Globals n (delta g) (last_cpustamp g) (last_timestamp g) (file_size g) (filename g) (do_cleanup g).

(** [delta[which][col] = v]. *)
Definition store (d : tests_t -> Z -> Q) (which : tests_t) (col : Z) (v : Q) : tests_t -> Z -> Q :=
  λ w c, if decide (w = which) then (if c =? col then v else d w c) else d w c.

Definition log (ev : event) : M unit :=
  λ e s, (Ret tt, State (with_trace (st_os s) (trace (st_os s) ++ [ev])) (st_g s)).

(** A call: its return value and its effect are computed from the
    environment and the system's state, the event is logged and the call
    counted. *)
Definition syscall (c : call) (sem : env -> os -> Z * os) : M Z :=
  λ e s,
    let o := st_os s in
    let '(r, o') := sem e o in
    (Ret r, State (counted (with_trace o' (trace o ++ [EvSys (ncall o) c (f_pos o) r]))) (st_g s)).

(** A call that succeeds with [ok] unless the environment makes it fail. *)
Definition plain (ok failure : Z) (e : env) (o : os) : Z :=
  match e_inject e (ncall o) with Some _ => failure | None => ok end.

(** A transfer of at most [count] bytes: the environment may cut it short
    or make it fail. *)
Definition transfer (count : Z) (e : env) (o : os) : Z :=
  match e_inject e (ncall o) with
  | Some v => if (-1 <=? v) && (v <=? count) then v else -1
  | None => count
  end.

Definition sys_plain (c : call) (ok failure : Z) : M Z :=
  syscall c (λ e o, (plain ok failure e o, o)).

Definition sys_atexit : M Z := sys_plain c_atexit 0 (-1).
(** [signal] returns the previous handler: [SIG_DFL] (0) unless the
    environment says otherwise ([SIG_ERR] is -1, [SIG_IGN] is 1, any other
    value stands for a handler's address). *)
Definition sys_signal (signum : string) : M Z :=
  syscall (c_signal signum) (λ e o, (default 0 (e_inject e (ncall o)), o)).
Definition sys_time : M Z := syscall c_time (λ e o, (fst (e_tod e (ncall o)), o)).
Definition sys_getpid : M Z := syscall c_getpid (λ e o, (pid o, o)).
Definition sys_system (command : string) : M Z := sys_plain (c_system command) 0 (-1).
Definition sys_pipe : M Z := sys_plain c_pipe 0 (-1).
Definition sys_sleep (seconds : Z) : M Z := sys_plain (c_sleep seconds) 0 0.
Definition sys_close_pipe (which : pipe_end) : M Z := sys_plain (c_close_pipe which) 0 (-1).

(** [fork]: the parent gets a fresh pid and one more child; the child gets 0
    and has no children of its own. *)
Definition fresh_pid (o : os) : Z := pid o + 1 + Z.of_nat (ncall o).
Definition sys_fork : M Z :=
  syscall c_fork (λ e o,
    match e_inject e (ncall o) with
    | None => (fresh_pid o, with_children o (pid o) (fresh_pid o :: children o))
    | Some v => if v =? 0 then (0, with_children o (fresh_pid o) []) else (-1, o)
    end).

(** [wait]: fails without children, else reaps one of them. *)
Definition sys_wait : M Z :=
  syscall c_wait (λ e o,
    match e_inject e (ncall o) with
    | Some _ => (-1, o)
    | None =>
        match children o with
        | [] => (-1, o)
        | c0 :: cs =>
            let i := (e_pick e (ncall o) mod length (c0 :: cs))%nat in
            (default c0 ((c0 :: cs) !! i), with_children o (pid o) (delete i (c0 :: cs)))
        end
    end).

Definition sys_write_tickets (tickets : list Z) (count : Z) : M Z :=
  syscall (c_write_tickets tickets count) (λ e o, (transfer count e o, o)).

(** [read(seek_control[0], seek_tickets, 1)]: the count and the byte. *)
Definition sys_read_ticket (old : Z) : M (Z * Z) :=
  b ← get_os (λ o, default old (head (control o)));
  r ← syscall c_read_ticket (λ e o,
         let r := transfer (match control o with [] => 0 | _ => 1 end) e o in
         (r, if r =? 1 then with_control o (tail (control o)) else o));
  mret (r, if r =? 1 then b else old).

Definition sys_write_report (report : seeker_report) (count : Z) : M Z :=
  syscall (c_write_report report count) (λ e o, (transfer count e o, o)).

(** [read(seek_feedback[0], seeker_report, sizeof(seeker_report))]. *)
Definition sys_read_report (old : seeker_report) (count : Z) : M (Z * seeker_report) :=
  k ← get_os ncall;
  r ← syscall (c_read_report count) (λ e o, (transfer count e o, o));
  new ← ask (λ e, e_report e k);
  mret (r, if r =? count then new else old).

Definition sys_unlink : M Z :=
  syscall c_unlink (λ e o,
    let r := plain (if f_exists o then 0 else -1) (-1) e o in
    (r, if r =? 0 then with_file o false 0 (f_pos o) else o)).

(** [open(name, O_RDWR | O_CREAT | O_EXCL, 0777)] when [create], else
    [open(name, O_RDWR, 0777)]; the descriptor is 3. *)
Definition sys_open (create : bool) : M Z :=
  syscall (c_open create) (λ e o,
    let ok := if create then (if f_exists o then -1 else 3) else (if f_exists o then 3 else -1) in
    let r := plain ok (-1) e o in
    (r, if r =? -1 then o
        else if create then with_file o true 0 0 else with_file o true (f_size o) 0)).

(** [fdopen]: a stream (1), or [NULL] (0). *)
Definition sys_fdopen (fd : Z) : M Z := sys_plain (c_fdopen fd) 1 0.

Definition sys_lseek (fd offset whence : Z) : M Z :=
  syscall (c_lseek fd offset whence) (λ e o,
    let target := if whence =? 0 then offset
                  else if whence =? 1 then f_pos o + offset else f_size o + offset in
    let r := plain (if target <? 0 then -1 else target) (-1) e o in
    (r, if r <? 0 then o else with_pos o r)).

(** [read(fd, buf, count)] fills the first words of [buf]. *)
Definition read_into (src : Z -> Z) (nwords : Z) (buf : list Z) : list Z :=
  imap (λ i x, if Z.of_nat i <? nwords then src (Z.of_nat i) else x) buf.

Definition sys_read (fd : Z) (buf : list Z) (count : Z) : M (Z * list Z) :=
  k ← get_os ncall;
  r ← syscall (c_read fd count) (λ e o,
         let r := transfer (Z.max 0 (Z.min count (f_size o - f_pos o))) e o in
         (r, if r <? 0 then o else with_pos o (f_pos o + r)));
  src ← ask (λ e, e_data e k);
  mret (r, if r <? 0 then buf else read_into src (r ÷ IntSize) buf).

Definition sys_write (fd : Z) (buf : list Z) (count : Z) : M Z :=
  syscall (c_write fd buf count) (λ e o,
    let r := transfer count e o in
    (r, if r <? 0 then o
        else with_file o (f_exists o) (Z.max (f_size o) (f_pos o + r)) (f_pos o + r))).

Definition sys_fsync (fd : Z) : M Z := sys_plain (c_fsync fd) 0 (-1).
Definition sys_close (fd : Z) : M Z := sys_plain (c_close fd) 0 (-1).

Definition sys_gettimeofday : M (Z * (Z * Z)) :=
  k ← get_os ncall;
  r ← sys_plain c_gettimeofday 0 (-1);
  tp ← ask (λ e, e_tod e k);
  mret (r, tp).

Definition sys_getrusage : M ((Z * Z) * (Z * Z)) :=
  k ← get_os ncall;
  sys_plain c_getrusage 0 (-1);;
  ask (λ e, e_rusage e k).

(** [random()] and [rand()]: the next number of the environment's sequence. *)
Definition c_random : M Z :=
  λ e s, (Ret (e_random e (nrandom (st_os s))), State (drawn (st_os s)) (st_g s)).

(** An uninitialised array of [n] elements: whatever the stack holds. *)
Definition stack_array (e : env) (n : Z) : list Z :=
  (λ i : nat, e_stack e (Z.of_nat i)) <$> seq 0 (Z.to_nat n).
Definition uninit (n : Z) : M (list Z) := ask (λ e, stack_array e n).

(** ** The program *)

Definition perror (message : string) : M unit := log (EvPerror message).
Definition fprintf_stderr (format : string) (args : list Z) : M unit := log (EvStderr format args).

(** [cleanup], the handler registered with [atexit]. *)
Definition cleanup : M unit :=
  dc ← get_g do_cleanup;
  if nonzero dc then sys_unlink;; log EvReport else skip.

(** [exit(status)]: the handler runs, then the process ends. *)
Definition c_exit {A} (status : Z) : M A :=
  cleanup;; log (EvExit status);; halt (Exited status).

(** [exit(status)] before any handler is registered. *)
Definition c_exit_bare {A} (status : Z) : M A :=
  log (EvExit status);; halt (Exited status).

Definition drastic (message : string) : string :=
  "bonnie: drastic I/O error (" +:+ message +:+ ")".

Definition io_error {A} (message : string) : M A :=
  perror (drastic message);; c_exit 1.

Definition usage_text : string :=
  "usage: bonnie [-d scratch-dir] [-s size-in-Mb] [-m machine-label]\n".

Definition usage {A} : M A :=
  fprintf_stderr usage_text [];; c_exit 1.

(** [if (c) io_error(message);] *)
Definition fatal_if (c : bool) (message : string) : M unit :=
  if c then io_error message else skip.

Definition time_so_far : M Q :=
  '(r, (tv_sec, tv_usec)) ← sys_gettimeofday;
  fatal_if (r =? -1) "gettimeofday";;
  bt ← get_g basetime;
  mret (inject_Z (tv_sec - bt) + inject_Z tv_usec / 1000000)%Q.

Definition cpu_so_far : M Q :=
  '((u_sec, u_usec), (s_sec, s_usec)) ← sys_getrusage;
  mret (inject_Z u_sec + inject_Z u_usec / 1000000
        + inject_Z s_sec + inject_Z s_usec / 1000000)%Q.

Definition timestamp : M unit :=
  t ← time_so_far;
  set_g (λ g, with_timestamp g t);;
  c ← cpu_so_far;
  set_g (λ g, with_cpustamp g c).

Definition get_delta_t (test : tests_t) : M unit :=
  t ← time_so_far;
  set_g (λ g, with_delta g (store (delta g) test Elapsed (t - last_timestamp g)%Q));;
  c ← cpu_so_far;
  set_g (λ g, with_delta g (store (delta g) test CPU (c - last_cpustamp g)%Q)).

(** [newfile(name, &fd, &stream, create)]; returns the new [*fd]. *)
Definition newfile (fd : Z) (create : bool) : M Z :=
  fd' ← (if create then
           r ← sys_unlink;
           fatal_if ((r =? -1) && negb (fd =? -1)) "unlink";;
           sys_open true
         else sys_open false);
  name ← get_g filename;
  fatal_if (fd' =? -1) name;;
  stream ← sys_fdopen fd';
  fatal_if (stream =? 0) "fdopen";;
  mret fd'.

Definition word_at (buf : list Z) (i : Z) : Z := default 0 (buf !! Z.to_nat i).

(** [randomize_buffer(ptr, size)]:
    [for (i = 0; i < size / sizeof(int); i++) optr[i] = rand();] *)
Fixpoint randomize_from (n : nat) (i : Z) (buf : list Z) : M (list Z) :=
  match n with
  | O => mret buf
  | S n' => r ← c_random; randomize_from n' (i + 1) (<[Z.to_nat i := r]> buf)
  end.

Definition randomize_buffer (buf : list Z) (size : Z) : M (list Z) :=
  randomize_from (iterations 0 (size ÷ IntSize)) 0 buf.

(** [doseek(where, fd, update, do_touch)], lines 670-696.  A zero divisor in
    line 688 kills the process. *)
Definition doseek (where_ fd update do_touch : Z) : M unit :=
  log (EvDoseek where_ update do_touch);;
  buf ← uninit (Chunk ÷ IntSize);
  let probe := probe_of where_ in
  r ← sys_lseek fd probe 0;
  fatal_if (negb (r =? probe)) "lseek in doseek";;
  '(size, buf) ← sys_read fd buf Chunk;
  fatal_if (size =? -1) "read in doseek";;
  if nonzero update && nonzero do_touch then
    rnd ← c_random;
    (if touch_divisor size =? 0 then halt (Killed "SIGFPE") else skip);;
    let i := touch_index rnd size in
    let buf := <[Z.to_nat i := int32 (word_at buf i - 1)]> buf in
    r ← sys_lseek fd probe 0;
    fatal_if (negb (r =? probe)) "lseek in doseek update";;
    r ← sys_write fd buf size;
    fatal_if (r =? -1) "write in doseek";;
    r ← sys_fsync fd;
    fatal_if (r =? -1) "fsync(2) in seek w/write(2)"
  else skip.

(** The loop of a seeker, lines 248-254; returns [lseek_count]. *)
Fixpoint seek_loop (fuel : nat) (fd do_write ticket lseek_count : Z) : M Z :=
  match fuel with
  | O => halt OutOfFuel
  | S fuel' =>
      if nonzero ticket then
        rnd ← c_random;
        fs ← get_g file_size;
        doseek (seek_where rnd fs) fd (update_of lseek_count) do_write;;
        '(r, ticket') ← sys_read_ticket ticket;
        fatal_if (negb (r =? 1)) "read ticket";;
        seek_loop fuel' fd do_write ticket' (int32 (lseek_count + 1))
      else mret lseek_count
  end.

(** The child of [do_seekstuff], lines 230-268. *)
Definition seeker (fuel : nat) (do_write : Z) (whereto : tests_t) (next : Z)
    (seek_tickets : list Z) (seeker_report : seeker_report) : M unit :=
  set_g (λ g, with_do_cleanup g 0);;
  sys_close_pipe seek_feedback_0;;
  sys_close_pipe seek_control_1;;
  fd ← newfile 0 false;
  sys_getpid;;                                      (* srandom(getpid()) *)
  fprintf_stderr "Seeker %lld..." [next + 1];;
  '(r, ticket) ← sys_read_ticket (word_at seek_tickets 0);
  fatal_if (negb (r =? 1)) "read ticket";;
  timestamp;;
  start ← time_so_far;
  let seeker_report := Report (at_CPU seeker_report) start (at_EndTime seeker_report) in
  seek_loop fuel fd do_write ticket 0;;
  r ← sys_fsync fd;
  (if r =? -1 then perror "fsync after seek" else skip);;
  r ← sys_close fd;
  fatal_if (r =? -1) "close after seek";;
  get_delta_t whereto;;
  stop_ ← time_so_far;
  let seeker_report := Report (at_CPU seeker_report) (at_StartTime seeker_report) stop_ in
  cpu ← get_g (λ g, delta g whereto CPU);
  let seeker_report := Report cpu (at_StartTime seeker_report) (at_EndTime seeker_report) in
  r ← sys_write_report seeker_report sizeof_seeker_report;
  fatal_if (negb (r =? sizeof_seeker_report)) "pipe write";;
  c_exit 0.

(** Lines 225-269: [for (next = 0; next < SeekProcCount; next++)] around
    [fork]. *)
Fixpoint spawn (n : nat) (next : Z) (child : Z -> M unit) : M unit :=
  match n with
  | O => skip
  | S n' =>
      c ← sys_fork;
      (if c =? -1 then io_error "fork"
       else if c =? 0 then child next
       else skip);;
      spawn n' (next + 1) child
  end.

(** Lines 285-312: [for (next = 0; next < SeekProcCount; next++)] around the
    reading of a report; returns [first_start] and [last_stop]. *)
Fixpoint collect (n : nat) (next : Z) (whereto : tests_t)
    (seeker_report : seeker_report) (first_last : Q * Q) : M (Q * Q) :=
  match n with
  | O => mret first_last
  | S n' =>
      '(r, seeker_report) ← sys_read_report seeker_report sizeof_seeker_report;
      fatal_if (negb (r =? sizeof_seeker_report)) "pipe read";;
      cpu ← get_g (λ g, delta g whereto CPU);
      let t := absorb next (Tally cpu first_last.1 first_last.2) seeker_report in
      set_g (λ g, with_delta g (store (delta g) whereto CPU (t_cpu t)));;
      st ← sys_wait;
      fatal_if (st =? -1) "wait";;
      fprintf_stderr "done..." [];;
      collect n' (next + 1) whereto seeker_report (first_start t, last_stop t)
  end.

Definition do_seekstuff (fuel : nat) (do_write : Z) (whereto : tests_t) : M unit :=
  seek_tickets ← uninit (Seeks + SeekProcCount);
  sys_system "dropthedamncaches";;
  r1 ← sys_pipe;
  r2 ← (if r1 =? -1 then mret r1 else sys_pipe);
  fatal_if ((r1 =? -1) || (r2 =? -1)) "pipe";;
  let seek_tickets := make_tickets seek_tickets in
  spawn (iterations 0 SeekProcCount) 0
    (λ next, seeker fuel do_write whereto next seek_tickets (Report 0 0 0));;
  sys_close_pipe seek_feedback_1;;
  sys_close_pipe seek_control_0;;
  sys_sleep 1;;
  fprintf_stderr "start 'em..." [];;
  r ← sys_write_tickets seek_tickets sizeof_seek_tickets;
  fatal_if (negb (r =? sizeof_seek_tickets)) "write tickets";;
  '(first_start, last_stop) ←
    collect (iterations 0 SeekProcCount) 0 whereto (Report 0 0 0) (0%Q, 0%Q);
  fprintf_stderr "\n" [];;
  set_g (λ g, with_delta g (store (delta g) whereto Elapsed (last_stop - first_start)%Q)).

(** The option scan of [main], lines 361-377; [dir] and [do_random] are
    locals of [main], [file_size] is a global ([machine] is only printed and
    is left out).  [next] is stepped once by the loop and once more after a
    flag. *)
Fixpoint scan_options (fuel : nat) (argv : list string) (next : Z)
    (dir : string) (do_random : Z) : M (string * Z) :=
  match fuel with
  | O => mret (dir, do_random)
  | S fuel' =>
      if next <? Z.of_nat (length argv) - 1 then
        if decide (first_char (arg argv next) = Some "-"%char) then
          let flag := after_first (arg argv next) in
          '(dir, do_random) ←
            (if decide (flag = "d") then mret (arg argv (next + 1), do_random)
             else if decide (flag = "s") then
               set_g (λ g, with_file_size g (atoll (arg argv (next + 1))));;
               mret (dir, do_random)
             else if decide (flag = "m") then mret (dir, do_random)
             else if decide (flag = "r") then mret (dir, 1)
             else usage);
          scan_options fuel' argv (next + 1 + 1) dir do_random
        else
          (usage : M unit);;
          scan_options fuel' argv (next + 1) dir do_random
      else mret (dir, do_random)
  end.

(** Lines 361-381: the scan, the size check and the scaling of [file_size]. *)
Definition parse_options (argv : list string) : M (string * Z) :=
  '(dir, do_random) ← scan_options (length argv) argv 1 "." 0;
  fs ← get_g file_size;
  (if fs <? 1 then usage else skip);;
  set_g (λ g, with_file_size g (int64 (file_size g * (1024 * 1024 * 1024))));;
  mret (dir, do_random).

(** [buf[bufindex++]++] after [if (bufindex == Chunk / IntSize) bufindex = 0]. *)
Definition dirty (bufindex : Z) (buf : list Z) : Z * list Z :=
  let bufindex := if bufindex =? Chunk ÷ IntSize then 0 else bufindex in
  (bufindex + 1, <[Z.to_nat bufindex := int32 (word_at buf bufindex + 1)]> buf).

Definition maybe_randomize (do_random : Z) (buf : list Z) : M (list Z) :=
  if nonzero do_random then randomize_buffer buf Chunk else mret buf.

(** Lines 410-419: the block writes,
    [for (words = bufindex = 0; words < (file_size / (long long)Chunk); words++)].
    [words] is an [int]: its increment wraps. *)
Fixpoint write_loop (fuel : nat) (fd do_random words bufindex : Z) (buf : list Z)
    : M (Z * list Z) :=
  match fuel with
  | O => halt OutOfFuel
  | S fuel' =>
      fs ← get_g file_size;
      if words <? fs ÷ Chunk then
        let '(bufindex, buf) := dirty bufindex buf in
        buf ← maybe_randomize do_random buf;
        r ← sys_write fd buf Chunk;
        fatal_if (r =? -1) "write(2)";;
        write_loop fuel' fd do_random (int32 (words + 1)) bufindex buf
      else mret (bufindex, buf)
  end.

(** Lines 436-456: [while (words == Chunk)] of the rewrite. *)
Fixpoint rewrite_loop (fuel : nat) (fd do_random words bufindex : Z) (buf : list Z)
    : M (list Z) :=
  match fuel with
  | O => halt OutOfFuel
  | S fuel' =>
      if words =? Chunk then
        let '(bufindex, buf) := dirty bufindex buf in
        r ← sys_lseek fd (- words) 1;
        fatal_if (r =? -1) "relative lseek(2)";;
        buf ← maybe_randomize do_random buf;
        r ← sys_write fd buf words;
        fatal_if (r =? -1) "re write(2)";;
        r ← sys_write fd buf words;
        fatal_if (r =? -1) "re write(2)";;
        '(words, buf) ← sys_read fd buf Chunk;
        fatal_if (words =? -1) "rwrite read";;
        rewrite_loop fuel' fd do_random words bufindex buf
      else mret buf
  end.

(** Lines 428-462: the rewrite phase. *)
Definition rewrite_phase (fuel : nat) (fd do_random : Z) (buf : list Z) : M (Z * list Z) :=
  fd ← newfile fd false;
  r ← sys_lseek fd 0 0;
  fatal_if (r =? -1) "lseek(2) before rewrite";;
  fprintf_stderr "Rewriting..." [];;
  timestamp;;
  '(words, buf) ← sys_read fd buf Chunk;
  fatal_if (words =? -1) "rewrite read";;
  buf ← rewrite_loop fuel fd do_random words 0 buf;
  r ← sys_fsync fd;
  (if r =? -1 then perror "fsync after fast rewrite" else skip);;
  r ← sys_close fd;
  fatal_if (r =? -1) "close after rewrite";;
  get_delta_t ReWrite;;
  fprintf_stderr "done\n" [];;
  mret (fd, buf).

(** Lines 404-425: the block write phase. *)
Definition write_phase (fuel : nat) (fd do_random : Z) : M (Z * list Z) :=
  buf ← uninit (Chunk ÷ IntSize);
  fd ← newfile fd true;
  fprintf_stderr "Writing intelligently..." [];;
  let buf := fill (iterations 0 (Chunk ÷ IntSize)) 0 42 buf in
  timestamp;;
  '(_, buf) ← write_loop fuel fd do_random 0 0 buf;
  r ← sys_fsync fd;
  (if r =? -1 then perror "fsync after fast write" else skip);;
  r ← sys_close fd;
  fatal_if (r =? -1) "close after fast write";;
  get_delta_t FastWrite;;
  fprintf_stderr "done\n" [];;
  mret (fd, buf).

(** Lines 497-502: [do ... while (words)]; the bookkeeping in [chars], which
    only keeps the compiler from dropping the reads, is left out. *)
Fixpoint read_loop (fuel : nat) (fd : Z) (buf : list Z) : M (list Z) :=
  match fuel with
  | O => halt OutOfFuel
  | S fuel' =>
      '(words, buf) ← sys_read fd buf Chunk;
      fatal_if (words =? -1) "read(2)";;
      if nonzero words then read_loop fuel' fd buf else mret buf
  end.

(** Lines 485-507: the block read phase. *)
Definition read_phase (fuel : nat) (fd : Z) (buf : list Z) : M (Z * list Z) :=
  sys_system "dropthedamncaches";;
  fd ← newfile fd false;
  r ← sys_lseek fd 0 0;
  fatal_if (r =? -1) "lseek before read";;
  fprintf_stderr "Reading intelligently..." [];;
  timestamp;;
  buf ← read_loop fuel fd buf;
  r ← sys_close fd;
  fatal_if (r =? -1) "close after read";;
  get_delta_t FastRead;;
  fprintf_stderr "done\n" [];;
  mret (fd, buf).

(** Lines 340-511 of [main]: the set-up and the three sequential phases,
    which share the buffer [buf]. *)
Definition sequential_phases (fuel : nat) (argv : list string) : M unit :=
  r ← sys_atexit;
  (if r =? -1 then perror "atexit(3)";; c_exit_bare 1 else skip);;
  r ← sys_signal "SIGINT";
  (if nonzero r then perror "signal";; c_exit 1 else skip);;
  r ← sys_signal "SIGTERM";
  (if nonzero r then perror "signal";; c_exit 1 else skip);;
  r ← sys_signal "SIGQUIT";
  (if nonzero r then perror "signal";; c_exit 1 else skip);;
  t ← sys_time;
  set_g (λ g, with_basetime g (int32 t));;
  '(dir, do_random) ← parse_options argv;
  p ← sys_getpid;
  set_g (λ g, with_filename g (dir +:+ "/bonnie." +:+ pretty (int32 p)));;
  fs ← get_g file_size;
  fprintf_stderr "File '%s', size: %.2f GB\n" [fs];;
  '(fd, buf) ← write_phase fuel (-1) do_random;
  '(fd, buf) ← rewrite_phase fuel fd do_random buf;
  '(fd, buf) ← read_phase fuel fd buf;
  skip.

(** [main]: the sequential phases, then the two seek phases, lines 513-516.
    The [return 0] of line 517 ends the process as [exit(0)] does: the
    handler registered with [atexit] runs. *)
Definition main (fuel : nat) (argv : list string) : M Z :=
  sequential_phases fuel argv;;
  do_seekstuff fuel 0 Lseek;;
  do_seekstuff fuel 1 Lseek2;;
  c_exit 0.

(** The globals as the program is loaded: [delta] is static storage and
    starts at zero, [file_size = 24], [do_cleanup = 1]. *)
Definition globals0 : globals :=
  Globals 0 (λ _ _, 0%Q) 0%Q 0%Q 24 EmptyString 1.

Definition os0 (p : Z) : os := Os 0 0 p false 0 0 [] [] [].

Definition state0 (p : Z) : state := State (os0 p) globals0.

(** An environment in which nothing fails; [signal] then finds the default
    handlers. *)
Definition calm (e : env) : Prop := ∀ k, e_inject e k = None.

(** ** The ticket protocol between the processes

    The coordinator's single [write] of the ticket buffer and the seekers'
    one-byte [read]s, interleaved in any order.  A pipe holds at most
    [capacity] bytes, so the [write] proceeds as the seekers drain the pipe;
    the bytes arrive in the order of the buffer. *)

Record seeker_state := Seeker {
  running : bool;          (* still in its loop, or before its first ticket *)
  probes : Z               (* calls of [doseek] made *)
}.

Record tickets_state := Tickets {
  unsent : list Z;                (* bytes of the [write] not yet in the pipe *)
  in_pipe : list Z;
  seekers : list seeker_state
}.

(** A seeker reads one byte, lines 242-254: a zero ends its loop, any other
    byte makes it call [doseek] once. *)
Definition take_ticket (b : Z) (w : seeker_state) : seeker_state :=
  if nonzero b then Seeker true (probes w + 1) else Seeker false (probes w).

Inductive ticket_step (capacity : nat) : tickets_state -> tickets_state -> Prop :=
| step_send b rest pipe ws :
    (length pipe < capacity)%nat ->
    ticket_step capacity (Tickets (b :: rest) pipe ws) (Tickets rest (pipe ++ [b]) ws)
| step_read i w b pipe rest ws :
    ws !! i = Some w ->
    running w = true ->
    ticket_step capacity (Tickets rest (b :: pipe) ws)
                         (Tickets rest pipe (<[i := take_ticket b w]> ws)).

Inductive ticket_run (capacity : nat) : nat -> tickets_state -> tickets_state -> Prop :=
| run_nil st : ticket_run capacity 0 st st
| run_step n st1 st2 st3 :
    ticket_step capacity st1 st2 ->
    ticket_run capacity n st2 st3 ->
    ticket_run capacity (S n) st1 st3.

Definition ticket_stuck (capacity : nat) (st : tickets_state) : Prop :=
  ∀ st', ¬ ticket_step capacity st st'.

(** The phase as [do_seekstuff] starts it: the whole buffer to be written,
    an empty pipe, [SeekProcCount] seekers before their first ticket. *)
Definition tickets_start (seek_tickets : list Z) : tickets_state :=
  Tickets (make_tickets seek_tickets) []
          (replicate (iterations 0 SeekProcCount) (Seeker true 0)).

Definition total_probes (ws : list seeker_state) : Z :=
  foldr (λ w acc, probes w + acc) 0 ws.

Definition all_stopped (ws : list seeker_state) : Prop :=
  Forall (λ w, running w = false) ws.

(** * Vocabulary of the statements

    Everything below reads the model; nothing of it is run by the program. *)

(** ** Readings of a trace *)

(** The reports that arrived complete on the feedback pipe. *)
Definition received (e : env) (tr : list event) : list seeker_report :=
  omap (λ ev, match ev with
              | EvSys k (c_read_report n) _ r => if r =? n then Some (e_report e k) else None
              | _ => None
              end) tr.
(** What the reads of the feedback pipe returned. *)
Definition report_reads (tr : list event) : list Z :=
  omap (λ ev, match ev with EvSys _ (c_read_report _) _ r => Some r | _ => None end) tr.
Definition reaped (tr : list event) : list Z :=
  omap (λ ev, match ev with EvSys _ c_wait _ r => Some r | _ => None end) tr.
Definition forked (tr : list event) : list Z :=
  omap (λ ev, match ev with EvSys _ c_fork _ r => Some r | _ => None end) tr.
(** The writes to the control pipe: buffer, count asked for, count returned. *)
Definition ticket_writes (tr : list event) : list (list Z * Z * Z) :=
  omap (λ ev, match ev with EvSys _ (c_write_tickets t n) _ r => Some (t, n, r) | _ => None end) tr.
(** The calls of [doseek]: [where], [update], [do_touch]. *)
Definition doseek_calls (tr : list event) : list (Z * Z * Z) :=
  omap (λ ev, match ev with EvDoseek w u t => Some (w, u, t) | _ => None end) tr.
(** The writes to the benchmark file: offset, buffer, count, return value. *)
Definition file_writes (tr : list event) : list (Z * list Z * Z * Z) :=
  omap (λ ev, match ev with
              | EvSys _ (c_write _ buf n) pos r => Some (pos, buf, n, r)
              | _ => None
              end) tr.

(** ** Runs *)

Definition never_returns {A} (m : M A) : Prop :=
  ∀ e s, ∃ w s', m e s = (Stop w, s').

(** A Hoare triple with one postcondition for a return and one for a stop. *)
Definition triple {A} (e : env) (P : state -> Prop) (m : M A)
    (Q : A -> state -> Prop) (X : stop -> state -> Prop) : Prop :=
  ∀ s, P s -> match m e s with (Ret a, s') => Q a s' | (Stop w, s') => X w s' end.

(** The trace so far drives the automaton [step] from [q0] to [q]. *)
Definition seen {T : Type} (step : T -> event -> T) (q0 q : T) : state -> Prop :=
  λ s, foldl step q0 (trace (st_os s)) = q.

Definition same_process (s s1 : state) : Prop :=
  st_g s1 = st_g s ∧ children (st_os s1) = children (st_os s).
Definition same_children (s s1 : state) : Prop :=
  pid (st_os s1) = pid (st_os s) ∧ children (st_os s1) = children (st_os s).
Definition same_file (s s1 : state) : Prop :=
  st_g s1 = st_g s ∧ trace (st_os s1) = trace (st_os s) ∧
  f_pos (st_os s1) = f_pos (st_os s) ∧ f_size (st_os s1) = f_size (st_os s).

(** The benchmark file as [main] leaves it for the seekers. *)
Definition healthy (s : state) : Prop :=
  f_exists (st_os s) = true ∧ f_size (st_os s) = file_size (st_g s) ∧
  0 < file_size (st_g s) <= LLONG_MAX ∧ (Chunk | file_size (st_g s)).

(** What a call that is no [doseek] and no [read] of a ticket leaves alone. *)
Definition undisturbed (s s1 : state) : Prop :=
  f_exists (st_os s1) = f_exists (st_os s) ∧ f_size (st_os s1) = f_size (st_os s) ∧
  control (st_os s1) = control (st_os s) ∧
  doseek_calls (trace (st_os s1)) = doseek_calls (trace (st_os s)) ∧
  file_size (st_g s1) = file_size (st_g s) ∧ do_cleanup (st_g s1) = do_cleanup (st_g s).

(** [random()] stays in its range. *)
Definition fair_dice (e : env) : Prop := ∀ k, 0 <= e_random e k <= RANDOM_MAX.

(** ** The globals *)

(** The cells of the seek phases are as the loader left them. *)
Definition seek_rows_clear (g : globals) : Prop :=
  ∀ c, delta g Lseek c = 0%Q ∧ delta g Lseek2 c = 0%Q.
(** [m] keeps the property [G] of the globals, if it returns. *)
Definition keeps (G : globals -> Prop) {A} (m : M A) : Prop :=
  ∀ e, triple e (λ s, G (st_g s)) m (λ _ s, G (st_g s)) (λ _ _, True).

(** ** The tickets *)

Definition ones (l : list Z) : Z := Z.of_nat (length (filter (λ b, nonzero b = true) l)).
Definition stopped1 (w : seeker_state) : nat := if running w then 0%nat else 1%nat.
Definition stopped_count (ws : list seeker_state) : nat :=
  length (filter (λ w, running w = false) ws).
(** The bytes no seeker has read yet, in order. *)
Definition stream (st : tickets_state) : list Z := in_pipe st ++ unsent st.
Definition ticket_measure (st : tickets_state) : nat :=
  (2 * length (unsent st) + length (in_pipe st))%nat.

(** With [n] perform tickets and [m] seekers: the unread bytes are ones
    followed by zeros, each missing one was a probe, each missing zero
    stopped a seeker, and no zero is read before the last one. *)
Definition ticket_inv (n m : nat) (st : tickets_state) : Prop :=
  ∃ a b : nat,
    stream st = replicate a 1 ++ replicate b 0 ∧
    total_probes (seekers st) = Z.of_nat n - Z.of_nat a ∧
    (stopped_count (seekers st) + b = m)%nat ∧
    length (seekers st) = m ∧
    (a <= n)%nat ∧
    (b < m -> a = 0)%nat.

(** ** The reports *)

(** The rational a finite [double] stands for. *)
Definition double_value (x : double) : Q :=
  match x with
  | SpecFloat.S754_finite s m e =>
      (inject_Z (if s then Z.neg m else Z.pos m) * Qpower 2 e)%Q
  | _ => 0%Q
  end.
Definition earliest (m : Q) (l : list Q) : Prop := m ∈ l ∧ ∀ x, x ∈ l → (m <= x)%Q.
Definition latest (m : Q) (l : list Q) : Prop := m ∈ l ∧ ∀ x, x ∈ l → (x <= m)%Q.

(** ** The duty cycle *)

Definition next_count (c : Z) : Z := int32 (c + 1).
(** A call of [doseek] writes back when both its flags are set. *)
Definition writes_back (c : Z * Z * Z) : bool := nonzero c.1.2 && nonzero c.2.
(** The counter a seeker would have if all its calls of [doseek] so far
    carried [update_of] of the counter and [do_write]; [None] once one did
    not. *)
Definition duty_step (do_write : Z) (q : option Z) (ev : event) : option Z :=
  match ev with
  | EvDoseek _ u t =>
      match q with
      | Some c => if (u =? update_of c) && (t =? do_write) then Some (next_count c) else None
      | None => None
      end
  | _ => q
  end.
Definition Duty (dw : Z) (q : option Z) : state -> Prop := seen (duty_step dw) (Some 0) q.
Definition Counting (dw : Z) : state -> Prop := λ s, ∃ c, Duty dw (Some c) s.
(** [m] makes no call of [doseek]. *)
Definition idle (dw : Z) {A} (m : M A) : Prop :=
  ∀ e q, triple e (Duty dw q) m (λ _, Duty dw q) (λ _, Duty dw q).

(** ** The offsets *)

Definition reachable (fs x : Z) : Prop :=
  ∃ rnd, 0 <= rnd <= RANDOM_MAX ∧ seek_where rnd fs = x.
(** Every offset of the file can come out of line 250. *)
Definition covers (fs : Z) : Prop := ∀ x, 0 <= x < fs → reachable fs x.

(** ** Failures of file I/O *)

Definition file_io (c : call) : bool :=
  match c with
  | c_lseek _ _ _ | c_read _ _ | c_write _ _ _ | c_fsync _ | c_close _ => true
  | _ => false
  end.
Definition is_fsync (c : call) : bool := match c with c_fsync _ => true | _ => false end.
Definition is_drastic (m : string) : bool := String.prefix "bonnie: drastic I/O error (" m.
(** The messages of the three [perror]s that are not followed by [exit]. *)
Definition warnings : list string :=
  ["fsync after fast write"; "fsync after fast rewrite"; "fsync after seek"].

Definition quiet (ev : event) : Prop :=
  match ev with
  | EvSys _ c _ _ => file_io c = false
  | EvReport => True
  | _ => False
  end.
(** Nothing but the exit handler, then [exit(1)]. *)
Definition quiet_exit (tr : list event) : Prop :=
  ∃ evs, tr = evs ++ [EvExit 1] ∧ Forall quiet evs.
Definition fatal_tail (post : list event) : Prop :=
  ∃ m rest, post = EvPerror m :: rest ∧ is_drastic m = true ∧ quiet_exit rest.
Definition warned_tail (warn : list string) (post : list event) : Prop :=
  ∃ m rest, post = EvPerror m :: rest ∧ m ∈ warn.
(** Every file call that returned -1 is followed at once by the diagnostic
    of [io_error] and an exit with status 1, or, if it is an [fsync], by one
    of the messages of [warn]. *)
Definition failures_handled (warn : list string) (tr : list event) : Prop :=
  ∀ pre k c pos post,
    tr = pre ++ EvSys k c pos (-1) :: post -> file_io c = true ->
    fatal_tail post ∨ (is_fsync c = true ∧ warned_tail warn post).

(** The same as an automaton over the trace. *)
Inductive watch := Live | Failed (c : call) | Dying | Done | Bad.

Definition watch_step (warn : list string) (q : watch) (ev : event) : watch :=
  match q with
  | Live =>
      match ev with
      | EvSys _ c _ r => if file_io c && (r =? -1) then Failed c else Live
      | EvExit _ => Done
      | _ => Live
      end
  | Failed c =>
      match ev with
      | EvPerror m =>
          if is_drastic m then Dying
          else if is_fsync c && bool_decide (m ∈ warn) then Live else Bad
      | _ => Bad
      end
  | Dying =>
      match ev with
      | EvSys _ c _ _ => if file_io c then Bad else Dying
      | EvReport => Dying
      | EvExit st => if st =? 1 then Done else Bad
      | _ => Bad
      end
  | Done => Bad
  | Bad => Bad
  end.

Definition accepted (q : watch) : Prop := q = Live ∨ q = Done.
Definition Mon (warn : list string) (q : watch) : state -> Prop :=
  seen (watch_step warn) Live q.
Definition Final (warn : list string) (w : stop) : state -> Prop :=
  match w with Exited _ => Mon warn Done | _ => Mon warn Live end.
Definition safe (warn : list string) {A} (m : M A) : Prop :=
  ∀ e, triple e (Mon warn Live) m (λ _, Mon warn Live) (Final warn).
(** What the automaton accepts from state [q]. *)
Definition watched (warn : list string) (q : watch) (tr : list event) : Prop :=
  match q with
  | Live => failures_handled warn tr
  | Failed c =>
      fatal_tail tr ∨
      (is_fsync c = true ∧ ∃ m rest, tr = EvPerror m :: rest ∧ m ∈ warn
                                     ∧ failures_handled warn rest)
  | Dying => quiet_exit tr
  | Done => tr = []
  | Bad => False
  end.

(** ** The options *)

Definition recognised (s : string) : Prop := s = "-d" ∨ s = "-s" ∨ s = "-m" ∨ s = "-r".
(** The words the scan looks at when every flag before them is known: the
    odd positions short of the last. *)
Definition examined (argv : list string) (i : Z) : Prop :=
  1 <= i < Z.of_nat (length argv) - 1 ∧ Z.odd i = true.
(** [file_size] after a scan of known flags. *)
Fixpoint scanned_size (n : nat) (argv : list string) (next fs : Z) : Z :=
  match n with
  | O => fs
  | S n' =>
      if next <? Z.of_nat (length argv) - 1 then
        scanned_size n' argv (next + 2)
          (if decide (arg argv next = "-s") then atoll (arg argv (next + 1)) else fs)
      else fs
  end.
Definition usage_shown (evs : list event) : Prop :=
  head evs = Some (EvStderr usage_text []) ∧ last evs = Some (EvExit 1).

(** ** The exit handler *)

(** What [exit(status)] adds to the trace of a process in state [o]: the
    handler [cleanup] first, which unlinks and reports unless [do_cleanup]
    is zero. *)
Definition exit_events (e : env) (o : os) (dc status : Z) : list event :=
  if nonzero dc then
    [EvSys (ncall o) c_unlink (f_pos o) (plain (if f_exists o then 0 else -1) (-1) e o);
     EvReport; EvExit status]
  else [EvExit status].

(** ** The options the scan takes *)

(** The value an option has after the scan from [from]: [init] when no
    examined word is [flag], else what the last examined [flag] gives. *)
Definition chosen {A} (argv : list string) (flag : string) (from : Z)
    (f : Z -> A) (init v : A) : Prop :=
  (v = init ∧ ∀ i, from <= i -> examined argv i -> arg argv i ≠ flag) ∨
  (∃ i, from <= i ∧ examined argv i ∧ arg argv i = flag ∧
     (∀ j, i < j -> examined argv j -> arg argv j ≠ flag) ∧ v = f i).

(** ** Who cleans up *)

(** The events of the handler [cleanup]. *)
Definition cleanup_event (ev : event) : bool :=
  match ev with
  | EvSys _ c_unlink _ _ | EvReport => true
  | _ => false
  end.

(** [m], run with [do_cleanup] at zero, leaves it there and adds no event
    of the handler. *)
Definition discreet {A} (m : M A) : Prop :=
  ∀ e s, do_cleanup (st_g s) = 0 ->
    ∃ evs, trace (st_os (m e s).2) = trace (st_os s) ++ evs ∧
      Forall (λ ev, cleanup_event ev = false) evs ∧ do_cleanup (st_g (m e s).2) = 0.

(** A trace that ends in the handler's work and [exit(status)]. *)
Definition cleaned (status : Z) (tr : list event) : Prop :=
  ∃ pre k pos r, tr = pre ++ [EvSys k c_unlink pos r; EvReport; EvExit status].
(** A trace that ends in the exit taken when [atexit] has failed. *)
Definition unregistered (tr : list event) : Prop :=
  ∃ pre, tr = pre ++ [EvPerror "atexit(3)"; EvExit 1].

Definition coordinator (s : state) : Prop := do_cleanup (st_g s) ≠ 0.
Definition exit_cleans (w : stop) (s : state) : Prop :=
  ∀ status, w = Exited status ->
    do_cleanup (st_g s) = 0 ∨
    (status = 0 ∨ status = 1) ∧ cleaned status (trace (st_os s)) ∨
    status = 1 ∧ unregistered (trace (st_os s)).
(** [m], run by the coordinator, exits through the handler. *)
Definition tidy {A} (m : M A) : Prop :=
  ∀ e, triple e coordinator m (λ _, coordinator) exit_cleans.

(** ** Runs in which no call fails *)

(** The reads of the benchmark file: offset, count asked for, return value. *)
Definition file_reads (tr : list event) : list (Z * Z * Z) :=
  omap (λ ev, match ev with EvSys _ (c_read _ n) pos r => Some (pos, n, r) | _ => None end) tr.
(** The writes to the benchmark file without the buffers: offset, count,
    return value. *)
Definition written (tr : list event) : list (Z * Z * Z) :=
  (λ w, (w.1.1.1, w.1.2, w.2)) <$> file_writes tr.
(** [f 0; f 1; ...; f (n - 1)]. *)
Definition run_of {A} (f : Z -> A) (n : nat) : list A := (λ k, f (Z.of_nat k)) <$> seq 0 n.

(** Between [s] and [s1] the process and the size asked for are the same. *)
Definition kin (s s1 : state) : Prop :=
  pid (st_os s1) = pid (st_os s) ∧ children (st_os s1) = children (st_os s) ∧
  file_size (st_g s1) = file_size (st_g s).
(** ... the file and the descriptor are the same. *)
Definition file_kept (s s1 : state) : Prop :=
  f_exists (st_os s1) = f_exists (st_os s) ∧ f_size (st_os s1) = f_size (st_os s) ∧
  f_pos (st_os s1) = f_pos (st_os s).
(** ... the writes [w] and the reads [r] of the file were made. *)
Definition logged (s s1 : state) (w r : list (Z * Z * Z)) : Prop :=
  ∃ evs, trace (st_os s1) = trace (st_os s) ++ evs ∧ written evs = w ∧ file_reads evs = r.
Definition silent (s s1 : state) : Prop := logged s s1 [] [].
Definition aside (s s1 : state) : Prop := kin s s1 ∧ file_kept s s1 ∧ silent s s1.

(** The transfers of bytes from and to the file. *)
Definition transfers (c : call) : bool :=
  match c with c_read _ _ | c_write _ _ _ => true | _ => false end.

(** What the coordinator's calls around the pipes leave alone; the
    children come and go. *)
Definition parent (s s1 : state) : Prop :=
  pid (st_os s1) = pid (st_os s) ∧ file_size (st_g s1) = file_size (st_g s) ∧
  file_kept s s1 ∧ silent s s1.
(** The bytes a list of reads has returned. *)
Definition bytes_read (rs : list (Z * Z * Z)) : Z := foldr (λ r acc, r.2 + acc) 0 rs.

(** ** Inputs of the examples *)

(** The doubles nearest to 0.1, 0.2 and 0.3. *)
Definition double_0_1 : double := SpecFloat.S754_finite false 7205759403792794 (-56).
Definition double_0_2 : double := SpecFloat.S754_finite false 7205759403792794 (-55).
Definition double_0_3 : double := SpecFloat.S754_finite false 5404319552844595 (-54).

Definition quiet_env : env :=
  Env (λ _, None) (λ k, (Z.of_nat k * 1000003) mod 2147483648) (λ k, (Z.of_nat k, 0))
      (λ k, ((0, Z.of_nat k), (0, 0)))
      (λ k, Report 1 (inject_Z (Z.of_nat k)) (inject_Z (Z.of_nat k + 5)))
      (λ _ _, 7) (λ _, 0%nat) (λ _, 0).

(** A process with the benchmark file of four blocks open at [pos], and
    [tickets] waiting on the control pipe. *)
Definition with_file4 (pos : Z) (tickets : list Z) : state :=
  State (Os 0 0 100 true (4 * Chunk) pos [] tickets [])
        (Globals 0 (λ _ _, 0%Q) 0%Q 0%Q (4 * Chunk) "./bonnie.100" 1).

(** The tenth call of a seeker that gets a stop ticket at once is the
    [fsync] of line 255; here it fails. *)
Definition fsync_fails : env :=
  Env (λ k, if (k =? 9)%nat then Some (-1) else None) (λ k, (Z.of_nat k * 1000003) mod 2147483648)
      (λ k, (Z.of_nat k, 0)) (λ k, ((0, Z.of_nat k), (0, 0)))
      (λ k, Report 1 2 3) (λ _ _, 7) (λ _, 0%nat) (λ _, 0).

Definition failed_fsync_run : res unit * state :=
  seeker 1 1 Lseek2 0 [] (Report 0 0 0) fsync_fails (with_file4 0 [0]).

(** A seek phase in which nothing fails (the seekers run in processes of
    their own and are not followed). *)
Definition seek_phase_end : state :=
  (do_seekstuff 0 0 Lseek quiet_env (state0 100)).2.

(** * Arithmetic of the model *)

Lemma wrap_id bits x : 0 < bits -> - 2 ^ (bits - 1) <= x < 2 ^ (bits - 1) -> wrap bits x = x.
Proof.
  intros Hb Hx. unfold wrap.
  replace (2 ^ bits) with (2 * 2 ^ (bits - 1)).
  2:{ rewrite <- Z.pow_succ_r by lia. f_equal. lia. }
  rewrite Z.mod_small; lia.
Qed.

Lemma int32_id x : - 2147483648 <= x < 2147483648 -> int32 x = x.
Proof. intros. apply wrap_id; [lia | simpl; lia]. Qed.

Lemma int64_id x : - 9223372036854775808 <= x < 9223372036854775808 -> int64 x = x.
Proof. intros. apply wrap_id; [lia | simpl; lia]. Qed.

Lemma Qltb_true x y : Qltb x y = true <-> (x < y)%Q.
Proof.
  unfold Qltb. rewrite negb_true_iff. split.
  - intros H. apply Qnot_le_lt. intros Hle. apply Qle_bool_iff in Hle. congruence.
  - intros H. destruct (Qle_bool y x) eqn:E; [|done].
    apply Qle_bool_iff in E. exfalso. apply (Qlt_not_le _ _ H E).
Qed.

Lemma Qltb_false x y : Qltb x y = false <-> (y <= x)%Q.
Proof.
  unfold Qltb. rewrite negb_false_iff. apply Qle_bool_iff.
Qed.

Lemma touch_index_inside rnd size :
  0 <= rnd <= RANDOM_MAX -> -2147483648 <= size < 2147483648 -> 3 <= size ÷ IntSize ->
  0 < touch_divisor size /\ 1 <= touch_index rnd size <= size ÷ IntSize - 2.
Proof.
  intros Hr Hs H3. unfold touch_index, touch_divisor.
  assert (Hq : size ÷ IntSize <= size).
  { unfold IntSize in *. assert (0 <= size) by (destruct (Z_lt_le_dec size 0) as [Hn|]; [|lia];
      pose proof (Z.quot_opp_l size 4 ltac:(lia)); pose proof (Z.quot_pos (- size) 4 ltac:(lia) ltac:(lia)); lia).
    apply Z.quot_le_upper_bound; lia. }
  rewrite int32_id by lia.
  pose proof (Z.rem_bound_pos rnd (size ÷ IntSize - 2) ltac:(lia) ltac:(lia)). lia.
Qed.

Lemma seek_where_mod rnd fs :
  0 <= rnd <= RANDOM_MAX -> 0 < fs <= LLONG_MAX ->
  seek_where rnd fs = (rnd * 4294967295) mod fs.
Proof.
  intros Hr Hf. unfold seek_where, RANDOM_MAX, LLONG_MAX in *.
  rewrite (int64_id (rnd * 4294967295)) by nia.
  rewrite Z.rem_mod_nonneg by nia.
  pose proof (Z.mod_pos_bound (rnd * 4294967295) fs ltac:(lia)).
  apply int64_id. lia.
Qed.

Lemma seek_where_range rnd fs :
  0 <= rnd <= RANDOM_MAX -> 0 < fs <= LLONG_MAX -> 0 <= seek_where rnd fs < fs.
Proof.
  intros Hr Hf. rewrite seek_where_mod by done. apply Z.mod_pos_bound. lia.
Qed.

Lemma probe_of_range w fs :
  0 <= w < fs -> fs <= LLONG_MAX -> (Chunk | fs) ->
  0 <= probe_of w <= fs - Chunk /\ (Chunk | probe_of w) /\ probe_of w <= w < probe_of w + Chunk.
Proof.
  intros Hw Hf [q Hq]. unfold probe_of, Chunk, LLONG_MAX in *.
  rewrite Z.quot_div_nonneg by lia.
  pose proof (Z.div_mod w 8192 ltac:(lia)).
  pose proof (Z.mod_pos_bound w 8192 ltac:(lia)).
  assert (0 <= w / 8192) by (apply Z.div_pos; lia).
  rewrite int64_id by lia.
  split; [|split].
  - assert (w / 8192 < q) by nia. nia.
  - exists (w / 8192). lia.
  - lia.
Qed.

Lemma seek_where_4G rnd :
  0 <= rnd <= RANDOM_MAX ->
  seek_where rnd (4 * 2 ^ 30) = 0 \/ 2147483648 < seek_where rnd (4 * 2 ^ 30).
Proof.
  intros Hr. rewrite seek_where_mod by (unfold LLONG_MAX; simpl; lia).
  unfold RANDOM_MAX in *. change (4 * 2 ^ 30) with 4294967296.
  destruct (Z.eq_dec rnd 0) as [->|Hn]; [left; reflexivity|right].
  replace (rnd * 4294967295) with ((4294967296 - rnd) + (rnd - 1) * 4294967296) by lia.
  rewrite Z.mod_add by lia. rewrite Z.mod_small by lia. lia.
Qed.

(** C5, the uniformity: it fails.  With a file of 4 GiB ([-s 4]) the offset
    of line 250 is either 0 or lies above 2^31: offset 1 is never drawn and
    no draw makes [doseek] probe the block at 8192, while offset 4294967295
    is drawn. *)
Lemma seek_offsets_not_uniform :
  ¬ covers (4 * 2 ^ 30) ∧
  reachable (4 * 2 ^ 30) 4294967295 ∧
  ∀ rnd, 0 <= rnd <= RANDOM_MAX → probe_of (seek_where rnd (4 * 2 ^ 30)) ≠ 8192.
Proof.
  split; [|split].
  - intros H. destruct (H 1 ltac:(simpl; lia)) as (rnd & Hr & E).
    destruct (seek_where_4G rnd Hr); lia.
  - exists 1. split; [unfold RANDOM_MAX; lia | reflexivity].
  - intros rnd Hr E. destruct (seek_where_4G rnd Hr) as [H|H].
    + rewrite H in E. discriminate.
    + pose proof (seek_where_range rnd (4 * 2 ^ 30) Hr ltac:(unfold LLONG_MAX; simpl; lia)) as Hb.
      destruct (probe_of_range (seek_where rnd (4 * 2 ^ 30)) (4 * 2 ^ 30) Hb
                  ltac:(unfold LLONG_MAX; simpl; lia)
                  ltac:(exists 524288; reflexivity)) as (_ & _ & H1).
      unfold Chunk in *. lia.
Qed.

Lemma fill_length n next v a : length (fill n next v a) = length a.
Proof.
  revert next a. induction n as [|n IH]; intros next a; simpl; [done|].
  by rewrite IH, length_insert.
Qed.

Lemma fill_lookup n next v a (i : nat) :
  0 <= next -> (i < length a)%nat ->
  fill n next v a !! i =
    if decide (next <= Z.of_nat i < next + Z.of_nat n) then Some v else a !! i.
Proof.
  revert next a. induction n as [|n IH]; intros next a Hn Hi; simpl fill.
  - case_decide; [lia | done].
  - rewrite IH by (rewrite ?length_insert; lia).
    destruct (decide (i = Z.to_nat next)) as [->|Hne].
    + rewrite list_lookup_insert_eq by done.
      repeat case_decide; try done; lia.
    + rewrite list_lookup_insert_ne by done.
      repeat case_decide; try done; lia.
Qed.

Lemma make_tickets_lookup a (i : nat) :
  Z.of_nat (length a) = Seeks + SeekProcCount ->
  Z.of_nat i < Seeks + SeekProcCount ->
  make_tickets a !! i = Some (if decide (Z.of_nat i < Seeks) then 1 else 0).
Proof.
  intros Ha Hi. unfold make_tickets, iterations.
  rewrite fill_lookup; [| unfold Seeks; lia | rewrite fill_length; lia].
  rewrite fill_lookup; [| lia | lia].
  unfold Seeks, SeekProcCount in *.
  repeat case_decide; try done; lia.
Qed.

Lemma make_tickets_eq a :
  Z.of_nat (length a) = Seeks + SeekProcCount ->
  make_tickets a = replicate (Z.to_nat Seeks) 1 ++ replicate (Z.to_nat SeekProcCount) 0.
Proof.
  intros Ha. apply list_eq. intros i.
  destruct (decide (Z.of_nat i < Seeks + SeekProcCount)) as [Hi|Hi].
  - rewrite make_tickets_lookup by done.
    case_decide.
    + rewrite lookup_app_l by (rewrite length_replicate; lia).
      symmetry. apply lookup_replicate. split; [done|lia].
    + rewrite lookup_app_r by (rewrite length_replicate; lia).
      rewrite length_replicate. symmetry. apply lookup_replicate.
      split; [done|]. unfold Seeks, SeekProcCount in *. lia.
  - rewrite !lookup_ge_None_2; [done | |].
    + rewrite length_app, !length_replicate. unfold Seeks, SeekProcCount in *. lia.
    + unfold make_tickets. rewrite !fill_length. lia.
Qed.

(** * The ticket protocol keeps its invariant *)

Section ticket_invariant.
Variables (n m : nat).

Lemma total_probes_app ws1 ws2 :
  total_probes (ws1 ++ ws2) = total_probes ws1 + total_probes ws2.
Proof. unfold total_probes. induction ws1 as [|w ws1 IH]; simpl; lia. Qed.

Lemma stopped_count_app ws1 ws2 :
  stopped_count (ws1 ++ ws2) = (stopped_count ws1 + stopped_count ws2)%nat.
Proof. unfold stopped_count. by rewrite filter_app, length_app. Qed.

Lemma total_probes_insert ws i w w' :
  ws !! i = Some w ->
  total_probes (<[i := w']> ws) = total_probes ws - probes w + probes w'.
Proof.
  intros H. rewrite <- (take_drop_middle ws i w H) at 2.
  rewrite insert_take_drop by (eapply lookup_lt_Some; eauto).
  rewrite !total_probes_app. unfold total_probes. simpl. lia.
Qed.

Lemma stopped_count_cons w ws :
  stopped_count (w :: ws) = (stopped1 w + stopped_count ws)%nat.
Proof.
  unfold stopped_count, stopped1. rewrite filter_cons.
  destruct (running w); case_decide; simpl; congruence.
Qed.

Lemma stopped_count_insert ws i w w' :
  ws !! i = Some w ->
  (stopped_count (<[i := w']> ws) + stopped1 w = stopped_count ws + stopped1 w')%nat.
Proof.
  intros H. rewrite <- (take_drop_middle ws i w H) at 2.
  rewrite insert_take_drop by (eapply lookup_lt_Some; eauto).
  rewrite !stopped_count_app, !stopped_count_cons. lia.
Qed.

(** The invariant of the protocol. *)
Lemma ticket_inv_step cap st st' :
  ticket_step cap st st' -> ticket_inv n m st -> ticket_inv n m st'.
Proof.
  intros Hs (a & b & Hst & Hp & Hc & Hl & Ha & Hb).
  destruct Hs as [x rest pipe ws Hcap | i w x pipe rest ws Hi Hr];
    unfold ticket_inv, stream in *; simpl in *.
  - exists a, b. rewrite <- app_assoc. simpl. done.
  - pose proof (total_probes_insert ws i w (take_ticket x w) Hi) as Ht.
    pose proof (stopped_count_insert ws i w (take_ticket x w) Hi) as Hsc.
    unfold stopped1 in Hsc. rewrite Hr in Hsc.
    destruct a as [|a].
    + destruct b as [|b]; simpl in Hst; [done|]. injection Hst as -> Hst.
      exists 0%nat, b. simpl in *. rewrite length_insert.
      repeat split; try done; lia.
    + simpl in Hst. injection Hst as -> Hst.
      exists a, b. simpl in *. rewrite length_insert.
      repeat split; try done; lia.
Qed.

Lemma ticket_inv_run cap k st st' :
  ticket_run cap k st st' -> ticket_inv n m st -> ticket_inv n m st'.
Proof. induction 1; eauto using ticket_inv_step. Qed.

Lemma ticket_run_bound cap k st st' :
  ticket_run cap k st st' -> (k + ticket_measure st' <= ticket_measure st)%nat.
Proof.
  induction 1 as [|k st1 st2 st3 Hs _ IH]; [lia|].
  assert (ticket_measure st2 < ticket_measure st1)%nat; [|lia].
  destruct Hs; unfold ticket_measure; simpl; rewrite ?length_app; simpl; lia.
Qed.

Lemma stopped_count_all ws :
  stopped_count ws = length ws -> all_stopped ws.
Proof.
  unfold all_stopped. induction ws as [|w ws IH]; intros H; [constructor|].
  rewrite stopped_count_cons in H. simpl in H.
  assert (stopped_count ws <= length ws)%nat by (apply length_filter).
  unfold stopped1 in H. destruct (running w) eqn:E; [lia|].
  constructor; [done | apply IH; lia].
Qed.

Lemma all_stopped_count ws :
  all_stopped ws -> stopped_count ws = length ws.
Proof.
  unfold all_stopped. induction 1 as [|w ws Hw _ IH]; [done|].
  rewrite stopped_count_cons. unfold stopped1. rewrite Hw. simpl. lia.
Qed.

(** While a seeker runs, a byte can be sent or read. *)
Lemma ticket_stuck_stopped cap st :
  (0 < cap)%nat -> ticket_inv n m st -> ticket_stuck cap st -> all_stopped (seekers st).
Proof.
  intros Hcap (a & b & Hst & Hp & Hc & Hl & Ha & Hb) Hstuck.
  destruct st as [u p ws]. unfold stream in *. simpl in *.
  destruct (decide (stopped_count ws = length ws)) as [E|E];
    [by apply stopped_count_all|].
  exfalso.
  assert (∃ i w, ws !! i = Some w ∧ running w = true) as (i & w & Hi & Hr).
  { clear -E. induction ws as [|w ws IH]; [done|].
    destruct (running w) eqn:Er; [exists 0%nat, w; done|].
    rewrite stopped_count_cons in E. unfold stopped1 in E. rewrite Er in E.
    destruct IH as (i & w' & ? & ?); [simpl in E; lia|].
    exists (S i), w'. done. }
  destruct p as [|x p].
  - destruct u as [|x u].
    + destruct a, b; simpl in Hst; try done. lia.
    + eapply Hstuck. apply step_send. simpl. lia.
  - eapply Hstuck. eapply step_read; eauto.
Qed.
End ticket_invariant.

Lemma ones_replicate a b : ones (replicate a 1 ++ replicate b 0) = Z.of_nat a.
Proof.
  unfold ones. rewrite filter_app, length_app.
  assert (H1 : ∀ a, length (filter (λ b : Z, nonzero b = true) (replicate a 1)) = a).
  { clear. induction a as [|a IH]; [done|]. cbn [replicate]. rewrite filter_cons.
    case_decide; simpl; [by rewrite IH | done]. }
  assert (H0 : ∀ b, length (filter (λ b : Z, nonzero b = true) (replicate b 0)) = 0%nat).
  { clear. induction b as [|b IH]; [done|]. cbn [replicate]. rewrite filter_cons.
    case_decide; simpl; [done | by rewrite IH]. }
  rewrite H1, H0. lia.
Qed.

(** * Running the monad *)

Lemma bind_run {A B} (m : M A) (f : A -> M B) e s :
  (m ≫= f) e s = match m e s with (Ret a, s') => f a e s' | (Stop w, s') => (Stop w, s') end.
Proof. reflexivity. Qed.
Lemma run_ret {A} (a : A) e s : (mret a : M A) e s = (Ret a, s).
Proof. reflexivity. Qed.
Lemma run_skip e s : skip e s = (Ret tt, s).
Proof. reflexivity. Qed.
Lemma run_halt {A} w e s : @halt A w e s = (Stop w, s).
Proof. reflexivity. Qed.
Lemma run_get_g {A} (f : globals -> A) e s : get_g f e s = (Ret (f (st_g s)), s).
Proof. reflexivity. Qed.
Lemma run_get_os {A} (f : os -> A) e s : get_os f e s = (Ret (f (st_os s)), s).
Proof. reflexivity. Qed.
Lemma run_ask {A} (f : env -> A) e s : ask f e s = (Ret (f e), s).
Proof. reflexivity. Qed.
Lemma run_set_g f e s : set_g f e s = (Ret tt, State (st_os s) (f (st_g s))).
Proof. reflexivity. Qed.
Lemma run_log ev e s :
  log ev e s = (Ret tt, State (with_trace (st_os s) (trace (st_os s) ++ [ev])) (st_g s)).
Proof. reflexivity. Qed.
Lemma run_syscall c sem e s :
  syscall c sem e s =
    (Ret (sem e (st_os s)).1,
     State (counted (with_trace (sem e (st_os s)).2
              (trace (st_os s) ++ [EvSys (ncall (st_os s)) c (f_pos (st_os s)) (sem e (st_os s)).1])))
           (st_g s)).
Proof. unfold syscall. destruct (sem e (st_os s)). reflexivity. Qed.
Lemma run_random e s :
  c_random e s = (Ret (e_random e (nrandom (st_os s))), State (drawn (st_os s)) (st_g s)).
Proof. reflexivity. Qed.

Create Rewrite HintDb run.
#[global] Hint Rewrite @bind_run @run_ret run_skip @run_halt @run_get_g @run_get_os @run_ask
  run_set_g run_log run_syscall run_random : run.


(** * Rules for the triples *)

Section triple_rules.
Context {T : Type} (step : T -> event -> T) (q0 : T).
Context (step_sys : ∀ q k k' c pos pos' r, step q (EvSys k c pos r) = step q (EvSys k' c pos' r)).

Context {A B : Type} (e : env) (Q : B -> state -> Prop) (X : stop -> state -> Prop).

Lemma tr_bind P (m : M A) (f : A -> M B) Q1 :
  triple e P m Q1 X -> (∀ a, triple e (Q1 a) (f a) Q X) -> triple e P (m ≫= f) Q X.
Proof.
  intros Hm Hf s Hs. specialize (Hm s Hs). unfold mbind, M_bind.
  destruct (m e s) as [[a|w] s']; [by apply Hf | done].
Qed.

Lemma tr_ret (P : state -> Prop) (b : B) :
  (∀ s, P s -> Q b s) -> triple e P (mret b) Q X.
Proof. intros H s Hs. by apply H. Qed.

Lemma tr_halt (P : state -> Prop) w :
  (∀ s, P s -> X w s) -> triple e P (halt w) Q X.
Proof. intros H s Hs. by apply H. Qed.

Lemma tr_sys q c sem (f : Z -> M B) :
  (∀ r, triple e (seen step q0 (step q (EvSys 0 c 0 r))) (f r) Q X) ->
  triple e (seen step q0 q) (syscall c sem ≫= f) Q X.
Proof.
  intros H s Hs. unfold mbind, M_bind, syscall.
  destruct (sem e (st_os s)) as [r o'] eqn:E.
  apply H. unfold seen in *. cbn. rewrite foldl_app. cbn. rewrite Hs. apply step_sys.
Qed.

Lemma tr_log q ev (f : unit -> M B) :
  triple e (seen step q0 (step q ev)) (f tt) Q X -> triple e (seen step q0 q) (log ev ≫= f) Q X.
Proof.
  intros H s Hs. unfold mbind, M_bind, log. apply H.
  unfold seen in *. cbn. rewrite foldl_app. cbn. by rewrite Hs.
Qed.

Lemma tr_get_g {C} q (g : globals -> C) (f : C -> M B) :
  (∀ a, triple e (seen step q0 q) (f a) Q X) -> triple e (seen step q0 q) (get_g g ≫= f) Q X.
Proof. intros H s Hs. unfold mbind, M_bind, get_g. by apply H. Qed.

Lemma tr_get_os {C} q (g : os -> C) (f : C -> M B) :
  (∀ a, triple e (seen step q0 q) (f a) Q X) -> triple e (seen step q0 q) (get_os g ≫= f) Q X.
Proof. intros H s Hs. unfold mbind, M_bind, get_os. by apply H. Qed.

Lemma tr_ask {C} q (g : env -> C) (f : C -> M B) :
  (∀ a, triple e (seen step q0 q) (f a) Q X) -> triple e (seen step q0 q) (ask g ≫= f) Q X.
Proof. intros H s Hs. unfold mbind, M_bind, ask. by apply H. Qed.

Lemma tr_set_g q g (f : unit -> M B) :
  triple e (seen step q0 q) (f tt) Q X -> triple e (seen step q0 q) (set_g g ≫= f) Q X.
Proof. intros H s Hs. unfold mbind, M_bind, set_g. by apply H. Qed.

Lemma tr_random q (f : Z -> M B) :
  (∀ a, triple e (seen step q0 q) (f a) Q X) -> triple e (seen step q0 q) (c_random ≫= f) Q X.
Proof. intros H s Hs. unfold mbind, M_bind, c_random. by apply H. Qed.

Lemma tr_assoc {C} P (m : M C) (f : C -> M A) (g : A -> M B) :
  triple e P (m ≫= λ a, f a ≫= g) Q X -> triple e P ((m ≫= f) ≫= g) Q X.
Proof.
  intros H s Hs. specialize (H s Hs). unfold mbind, M_bind in *.
  destruct (m e s) as [[a|w] s']; done.
Qed.
End triple_rules.

Lemma tr_tail {A} e P (m : M A) Q X :
  triple e P (m ≫= mret) Q X -> triple e P m Q X.
Proof.
  intros H s Hs. specialize (H s Hs). unfold mbind, M_bind, mret, M_ret in H.
  destruct (m e s) as [[a|w] s']; done.
Qed.

Lemma tr_weaken {A} e (P P' : state -> Prop) (m : M A) (Q Q' : A -> state -> Prop) (X X' : stop -> state -> Prop) :
  triple e P' m Q' X' -> (∀ s, P s -> P' s) -> (∀ a s, Q' a s -> Q a s) -> (∀ w s, X' w s -> X w s) ->
  triple e P m Q X.
Proof.
  intros H HP HQ HX s Hs. specialize (H s (HP s Hs)).
  destruct (m e s) as [[a|w] s']; auto.
Qed.

(** * Every function passes the monitor of failures *)

Lemma tr_never {A B} e P (m : M A) (f : A -> M B) Q X :
  triple e P m (λ _ _, False) X -> triple e P (m ≫= f) Q X.
Proof. intros H. eapply tr_bind; [exact H | intros a s []]. Qed.

Lemma tr_never_tail {A} e P (m : M A) Q X :
  triple e P m (λ _ _, False) X -> triple e P m Q X.
Proof. intros H. eapply tr_weaken; [exact H | auto | intros ? ? [] | auto]. Qed.

Lemma tr_ret_bind {A B} e P (a : A) (f : A -> M B) Q X :
  triple e P (f a) Q X -> triple e P (mret a ≫= f) Q X.
Proof. intros H s Hs. apply (H s Hs). Qed.

Lemma tr_halt_bind {A B} e (P : state -> Prop) w (f : A -> M B) Q (X : stop -> state -> Prop) :
  (∀ s, P s -> X w s) -> triple e P (halt w ≫= f) Q X.
Proof. intros H s Hs. by apply H. Qed.

Section monitor_steps.
Variable warn : list string.

Lemma watch_step_sys q k k' c pos pos' r :
  watch_step warn q (EvSys k c pos r) = watch_step warn q (EvSys k' c pos' r).
Proof. by destruct q. Qed.

Lemma is_drastic_drastic m : is_drastic (drastic m) = true.
Proof. by destruct m. Qed.
End monitor_steps.

(** The primitive actions, one step of the monitor each. *)
Ltac tprim warn :=
  lazymatch goal with
  | |- triple _ _ ((_ ≫= _) ≫= _) _ _ => apply tr_assoc
  | |- triple _ _ (syscall _ _ ≫= _) _ _ =>
      apply (tr_sys (watch_step warn) Live (watch_step_sys warn)); intros ?
  | |- triple _ _ (log _ ≫= _) _ _ => apply (tr_log (watch_step warn) Live)
  | |- triple _ _ (get_g _ ≫= _) _ _ => apply (tr_get_g (watch_step warn) Live); intros ?
  | |- triple _ _ (get_os _ ≫= _) _ _ => apply (tr_get_os (watch_step warn) Live); intros ?
  | |- triple _ _ (ask _ ≫= _) _ _ => apply (tr_ask (watch_step warn) Live); intros ?
  | |- triple _ _ (set_g _ ≫= _) _ _ => apply (tr_set_g (watch_step warn) Live)
  | |- triple _ _ (c_random ≫= _) _ _ => apply (tr_random (watch_step warn) Live); intros ?
  | |- triple _ _ (mret _ ≫= _) _ _ => apply tr_ret_bind
  | |- triple _ _ (skip ≫= _) _ _ => apply tr_ret_bind
  | |- triple _ _ (halt _ ≫= _) _ _ => apply tr_halt_bind; intros ? ?
  | |- triple _ _ (mret _) _ _ => apply tr_ret; intros ? ?
  | |- triple _ _ skip _ _ => apply tr_ret; intros ? ?
  | |- triple _ _ (halt _) _ _ => apply tr_halt; intros ? ?
  end.

Section monitor_exits.
Variable warn : list string.

(** [exit]: the handler does no file I/O, and the status is 1 after a
    diagnostic. *)
Lemma c_exit_final {A} e q status :
  (q = Live ∨ (q = Dying ∧ status = 1)) ->
  triple e (Mon warn q) (@c_exit A status) (λ _ _, False) (Final warn).
Proof.
  intros Hq. unfold c_exit, cleanup, sys_unlink.
  repeat tprim warn. destruct (nonzero a); repeat tprim warn; cbn in *;
    destruct Hq as [-> | [-> ->]]; cbn in *; done.
Qed.

Lemma io_error_final {A} e q message :
  (q = Live ∨ ∃ c, q = Failed c) ->
  triple e (Mon warn q) (@io_error A message) (λ _ _, False) (Final warn).
Proof.
  intros Hq. unfold io_error, perror. tprim warn.
  apply c_exit_final. destruct Hq as [-> | [c ->]]; cbn; rewrite ?is_drastic_drastic; auto.
Qed.
End monitor_exits.

(** An offset [doseek] asks for is a multiple of [Chunk], so a failed [lseek]
    never passes for it. *)
Lemma probe_of_not_m1 w : probe_of w ≠ -1.
Proof.
  unfold probe_of, int64, wrap, Chunk. intros H.
  assert (Hm : ((w ÷ 8192 * 8192 + 2 ^ (64 - 1)) mod 2 ^ 64) mod 8192 = 0).
  { rewrite Z.mod_mod_divide by (exists (2 ^ 51); reflexivity).
    change (2 ^ (64 - 1)) with (1125899906842624 * 8192).
    rewrite <- Z.mul_add_distr_r. apply Z.mod_mul. lia. }
  change (2 ^ (64 - 1)) with (1125899906842624 * 8192) in H at 2.
  assert (E : (w ÷ 8192 * 8192 + 2 ^ (64 - 1)) mod 2 ^ 64 = 1125899906842624 * 8192 - 1) by lia.
  rewrite E in Hm. vm_compute in Hm. discriminate.
Qed.

Section monitor_rules.
Variable warn : list string.

Lemma fatal_if_live e (c : bool) message :
  triple e (Mon warn Live) (fatal_if c message) (λ _, Mon warn Live) (Final warn).
Proof.
  unfold fatal_if. destruct c; [|by apply tr_ret].
  apply tr_never_tail, io_error_final. auto.
Qed.

Lemma tr_checked {B} e r c (b : bool) message (f : unit -> M B) Q :
  (r = -1 -> b = true) ->
  triple e (Mon warn Live) (f tt) Q (Final warn) ->
  triple e (Mon warn (if r =? -1 then Failed c else Live))
    (fatal_if b message ≫= f) Q (Final warn).
Proof.
  intros Hb Hf. unfold fatal_if. destruct (Z.eqb_spec r (-1)) as [E|E].
  - rewrite (Hb E). apply tr_never, io_error_final. eauto.
  - destruct b; [apply tr_never, io_error_final; auto | by apply tr_ret_bind].
Qed.

Lemma tr_checked_tail e r c (b : bool) message :
  (r = -1 -> b = true) ->
  triple e (Mon warn (if r =? -1 then Failed c else Live))
    (fatal_if b message) (λ _, Mon warn Live) (Final warn).
Proof.
  intros Hb. apply tr_tail. apply tr_checked; [done|]. by apply tr_ret.
Qed.

Lemma tr_warned {B} e r fd message (f : unit -> M B) Q :
  message ∈ warn -> is_drastic message = false ->
  triple e (Mon warn Live) (f tt) Q (Final warn) ->
  triple e (Mon warn (if r =? -1 then Failed (c_fsync fd) else Live))
    ((if r =? -1 then perror message else skip) ≫= f) Q (Final warn).
Proof.
  intros Hin Hd Hf. destruct (r =? -1); [|by apply tr_ret_bind].
  unfold perror. apply (tr_log (watch_step warn) Live). cbn.
  rewrite Hd. by rewrite bool_decide_eq_true_2.
Qed.

Lemma tr_live {A B} e (m : M A) (f : A -> M B) Q :
  safe warn m -> (∀ a, triple e (Mon warn Live) (f a) Q (Final warn)) ->
  triple e (Mon warn Live) (m ≫= f) Q (Final warn).
Proof. intros Hm Hf. eapply tr_bind; [apply Hm | exact Hf]. Qed.
End monitor_rules.

Lemma eqb_m1_probe r w : r = -1 -> negb (r =? probe_of w) = true.
Proof.
  intros ->. pose proof (probe_of_not_m1 w). destruct (Z.eqb_spec (-1) (probe_of w)); [congruence|done].
Qed.

Lemma eqb_m1_self r : r = -1 -> (r =? -1) = true.
Proof. intros ->. reflexivity. Qed.

Create HintDb safe discriminated.

(** One step through a function under the monitor: a call advances the
    automaton, a [fatal_if] on its result brings it back to [Live] or ends
    the run, a function already shown [safe] is stepped over. *)
Ltac tstep warn :=
  lazymatch goal with
  | |- triple _ _ ((_ ≫= _) ≫= _) _ _ => apply tr_assoc
  | |- triple _ _ (syscall _ _ ≫= _) _ _ =>
      apply (tr_sys (watch_step warn) Live (watch_step_sys warn)); intros ?;
      cbn [watch_step file_io andb]
  | |- triple _ _ (log _ ≫= _) _ _ => apply (tr_log (watch_step warn) Live); cbn [watch_step]
  | |- triple _ _ (get_g _ ≫= _) _ _ => apply (tr_get_g (watch_step warn) Live); intros ?
  | |- triple _ _ (get_os _ ≫= _) _ _ => apply (tr_get_os (watch_step warn) Live); intros ?
  | |- triple _ _ (ask _ ≫= _) _ _ => apply (tr_ask (watch_step warn) Live); intros ?
  | |- triple _ _ (set_g _ ≫= _) _ _ => apply (tr_set_g (watch_step warn) Live)
  | |- triple _ _ (c_random ≫= _) _ _ => apply (tr_random (watch_step warn) Live); intros ?
  | |- triple _ _ (mret _ ≫= _) _ _ => apply tr_ret_bind; cbn beta iota
  | |- triple _ _ (skip ≫= _) _ _ => apply tr_ret_bind
  | |- triple _ _ (halt _ ≫= _) _ _ => apply tr_halt_bind; intros ? ?; assumption
  | |- triple _ _ (fatal_if _ _ ≫= _) _ _ =>
      first [ apply tr_checked; [first [apply eqb_m1_self | apply eqb_m1_probe] |]
            | eapply tr_bind; [apply fatal_if_live | intros []] ]
  | |- triple _ _ ((if _ =? -1 then perror _ else skip) ≫= _) _ _ =>
      apply tr_warned; [first [assumption | solve [repeat constructor]] | reflexivity |]
  | |- triple _ _ (fatal_if _ _) _ _ =>
      first [ apply tr_checked_tail; first [apply eqb_m1_self | apply eqb_m1_probe]
            | apply fatal_if_live ]
  | |- triple _ _ (mret _) _ _ => apply tr_ret; intros ? ?; assumption
  | |- triple _ _ skip _ _ => apply tr_ret; intros ? ?; assumption
  | |- triple _ _ (halt _) _ _ => apply tr_halt; intros ? ?; assumption
  | |- triple _ _ (io_error _ ≫= _) _ _ => apply tr_never, io_error_final; auto
  | |- triple _ _ (io_error _) _ _ => apply tr_never_tail, io_error_final; auto
  | |- triple _ _ (usage ≫= _) _ _ => apply tr_never; unfold usage, fprintf_stderr
  | |- triple _ _ (c_exit _ ≫= _) _ _ => apply tr_never, c_exit_final; auto
  | |- triple _ _ (c_exit _) _ _ => apply tr_never_tail, c_exit_final; auto
  | |- triple _ _ (sys_plain _ _ _ ≫= _) _ _ => unfold sys_plain at 1
  | |- triple _ _ (sys_atexit ≫= _) _ _ => unfold sys_atexit at 1
  | |- triple _ _ (sys_signal _ ≫= _) _ _ => unfold sys_signal at 1
  | |- triple _ _ (sys_time ≫= _) _ _ => unfold sys_time at 1
  | |- triple _ _ (sys_getpid ≫= _) _ _ => unfold sys_getpid at 1
  | |- triple _ _ (sys_system _ ≫= _) _ _ => unfold sys_system at 1
  | |- triple _ _ (sys_pipe ≫= _) _ _ => unfold sys_pipe at 1
  | |- triple _ _ (sys_sleep _ ≫= _) _ _ => unfold sys_sleep at 1
  | |- triple _ _ (sys_close_pipe _ ≫= _) _ _ => unfold sys_close_pipe at 1
  | |- triple _ _ (sys_fork ≫= _) _ _ => unfold sys_fork at 1
  | |- triple _ _ (sys_wait ≫= _) _ _ => unfold sys_wait at 1
  | |- triple _ _ (sys_write_tickets _ _ ≫= _) _ _ => unfold sys_write_tickets at 1
  | |- triple _ _ (sys_read_ticket _ ≫= _) _ _ => unfold sys_read_ticket at 1
  | |- triple _ _ (sys_write_report _ _ ≫= _) _ _ => unfold sys_write_report at 1
  | |- triple _ _ (sys_read_report _ _ ≫= _) _ _ => unfold sys_read_report at 1
  | |- triple _ _ (sys_unlink ≫= _) _ _ => unfold sys_unlink at 1
  | |- triple _ _ (sys_open _ ≫= _) _ _ => unfold sys_open at 1
  | |- triple _ _ (sys_fdopen _ ≫= _) _ _ => unfold sys_fdopen at 1
  | |- triple _ _ (sys_lseek _ _ _ ≫= _) _ _ => unfold sys_lseek at 1
  | |- triple _ _ (sys_read _ _ _ ≫= _) _ _ => unfold sys_read at 1
  | |- triple _ _ (sys_write _ _ _ ≫= _) _ _ => unfold sys_write at 1
  | |- triple _ _ (sys_fsync _ ≫= _) _ _ => unfold sys_fsync at 1
  | |- triple _ _ (sys_close _ ≫= _) _ _ => unfold sys_close at 1
  | |- triple _ _ (sys_gettimeofday ≫= _) _ _ => unfold sys_gettimeofday at 1
  | |- triple _ _ (sys_getrusage ≫= _) _ _ => unfold sys_getrusage at 1
  | |- triple _ _ (uninit _ ≫= _) _ _ => unfold uninit at 1
  | |- triple _ _ (perror _ ≫= _) _ _ => unfold perror at 1
  | |- triple _ _ (fprintf_stderr _ _ ≫= _) _ _ => unfold fprintf_stderr at 1
  | |- triple _ _ ((if ?b then _ else _) ≫= _) _ _ => destruct b
  | |- triple _ _ (if ?b then _ else _) _ _ => destruct b
  | |- triple _ _ ((let '(_, _) := ?p in _) ≫= _) _ _ => destruct p
  | |- triple _ _ (let '(_, _) := ?p in _) _ _ => destruct p
  | |- triple _ _ (?m ≫= _) _ _ =>
      eapply (tr_live warn); [solve [auto with safe] | intros ?]
  | |- triple _ _ ?m _ _ => apply tr_tail
  end.

Ltac tsteps warn := repeat (tstep warn).

Section monitor_program.
Variable warn : list string.

Lemma doseek_safe w fd u t : safe warn (doseek w fd u t).
Proof. intros e. unfold doseek. tsteps warn. Qed.

Lemma time_so_far_safe : safe warn time_so_far.
Proof. intros e. unfold time_so_far. tsteps warn. Qed.

Lemma cpu_so_far_safe : safe warn cpu_so_far.
Proof. intros e. unfold cpu_so_far. tsteps warn. Qed.

Hint Resolve doseek_safe time_so_far_safe cpu_so_far_safe : safe.

Lemma timestamp_safe : safe warn timestamp.
Proof. intros e. unfold timestamp. tsteps warn. Qed.

Lemma get_delta_t_safe test : safe warn (get_delta_t test).
Proof. intros e. unfold get_delta_t. tsteps warn. Qed.

Lemma newfile_safe fd create : safe warn (newfile fd create).
Proof. intros e. unfold newfile. tsteps warn. Qed.

Lemma randomize_from_safe n i buf : safe warn (randomize_from n i buf).
Proof.
  revert i buf. induction n as [|n IH]; intros i buf e; simpl; tsteps warn.
Qed.

Hint Resolve timestamp_safe get_delta_t_safe newfile_safe randomize_from_safe : safe.

Lemma maybe_randomize_safe do_random buf : safe warn (maybe_randomize do_random buf).
Proof. intros e. unfold maybe_randomize, randomize_buffer. tsteps warn. Qed.

Lemma seek_loop_safe fuel fd do_write ticket lseek_count :
  safe warn (seek_loop fuel fd do_write ticket lseek_count).
Proof.
  revert ticket lseek_count. induction fuel as [|fuel IH]; intros ticket lseek_count e; simpl;
    tsteps warn.
Qed.

Hint Resolve maybe_randomize_safe seek_loop_safe : safe.

Lemma write_loop_safe fuel fd do_random words bufindex buf :
  safe warn (write_loop fuel fd do_random words bufindex buf).
Proof.
  revert words bufindex buf. induction fuel as [|fuel IH]; intros words bufindex buf e; simpl;
    tsteps warn.
Qed.

Lemma rewrite_loop_safe fuel fd do_random words bufindex buf :
  safe warn (rewrite_loop fuel fd do_random words bufindex buf).
Proof.
  revert words bufindex buf. induction fuel as [|fuel IH]; intros words bufindex buf e; simpl;
    tsteps warn.
Qed.

Lemma read_loop_safe fuel fd buf : safe warn (read_loop fuel fd buf).
Proof.
  revert buf. induction fuel as [|fuel IH]; intros buf e; simpl; tsteps warn.
Qed.

Lemma scan_options_safe fuel argv next dir do_random :
  safe warn (scan_options fuel argv next dir do_random).
Proof.
  revert next dir do_random. induction fuel as [|fuel IH]; intros next dir do_random e; simpl;
    tsteps warn.
Qed.

Hint Resolve write_loop_safe rewrite_loop_safe read_loop_safe scan_options_safe : safe.

Lemma parse_options_safe argv : safe warn (parse_options argv).
Proof. intros e. unfold parse_options. tsteps warn. Qed.

Lemma collect_safe n next whereto rep fl : safe warn (collect n next whereto rep fl).
Proof.
  revert next rep fl. induction n as [|n IH]; intros next rep fl e; simpl; tsteps warn.
Qed.

Lemma spawn_safe n next child : (∀ i, safe warn (child i)) -> safe warn (spawn n next child).
Proof.
  intros Hc. revert next. induction n as [|n IH]; intros next e; simpl; tsteps warn.
Qed.

Hint Resolve parse_options_safe collect_safe spawn_safe : safe.

Hypothesis warn_seek : "fsync after seek" ∈ warn.
Hypothesis warn_write : "fsync after fast write" ∈ warn.
Hypothesis warn_rewrite : "fsync after fast rewrite" ∈ warn.

Lemma seeker_safe fuel do_write whereto next tickets rep :
  safe warn (seeker fuel do_write whereto next tickets rep).
Proof. intros e. unfold seeker. tsteps warn. Qed.

Hint Resolve seeker_safe : safe.

Lemma do_seekstuff_safe fuel do_write whereto : safe warn (do_seekstuff fuel do_write whereto).
Proof. intros e. unfold do_seekstuff. tsteps warn. Qed.

Lemma write_phase_safe fuel fd do_random : safe warn (write_phase fuel fd do_random).
Proof. intros e. unfold write_phase. tsteps warn. Qed.

Lemma rewrite_phase_safe fuel fd do_random buf : safe warn (rewrite_phase fuel fd do_random buf).
Proof. intros e. unfold rewrite_phase. tsteps warn. Qed.

Lemma read_phase_safe fuel fd buf : safe warn (read_phase fuel fd buf).
Proof. intros e. unfold read_phase. tsteps warn. Qed.

Hint Resolve do_seekstuff_safe write_phase_safe rewrite_phase_safe read_phase_safe : safe.

Lemma sequential_phases_safe fuel argv : safe warn (sequential_phases fuel argv).
Proof. intros e. unfold sequential_phases, c_exit_bare. tsteps warn. Qed.

Hint Resolve sequential_phases_safe : safe.

Lemma main_safe fuel argv : safe warn (main fuel argv).
Proof. intros e. unfold main. tsteps warn. Qed.
End monitor_program.

(** * What a returning call has done *)

Lemma nr_bind {A B} (m : M A) (f : A -> M B) :
  (∀ a, never_returns (f a)) -> never_returns (m ≫= f).
Proof.
  intros H e s. rewrite bind_run. destruct (m e s) as [[a|w] s1]; [apply H | eauto].
Qed.

Lemma nr_halt {A} w : never_returns (@halt A w).
Proof. intros e s. eauto. Qed.

Lemma nr_c_exit {A} status : never_returns (@c_exit A status).
Proof. unfold c_exit. do 2 (apply nr_bind; intros ?). apply nr_halt. Qed.

Lemma nr_seeker fuel do_write whereto next tickets rep :
  never_returns (seeker fuel do_write whereto next tickets rep).
Proof.
  unfold seeker.
  repeat first [ apply nr_c_exit | apply nr_bind; intros ? | match goal with |- never_returns (let '(_, _) := ?p in _) => destruct p end ].
Qed.

Lemma nr_io_error {A} message : never_returns (@io_error A message).
Proof. unfold io_error. apply nr_bind; intros ?. apply nr_c_exit. Qed.

Lemma fatal_if_run (b : bool) message e s :
  fatal_if b message e s = (Ret tt, s) ∧ b = false ∨
  (∃ w s', fatal_if b message e s = (Stop w, s')) ∧ b = true.
Proof.
  unfold fatal_if. destruct b; [right|left; done].
  split; [|done]. apply nr_io_error.
Qed.

(** Inversion of the primitives: what a returning call has done. *)

Lemma syscall_pure_ret c (g : env -> os -> Z) e s v s1 :
  syscall c (λ e o, (g e o, o)) e s = (Ret v, s1) ->
  v = g e (st_os s) ∧ same_process s s1 ∧
  trace (st_os s1) = trace (st_os s) ++ [EvSys (ncall (st_os s)) c (f_pos (st_os s)) v].
Proof. rewrite run_syscall. cbn. intros H; simplify_eq. unfold same_process; repeat split; reflexivity. Qed.

Lemma log_ret ev e s u s1 :
  log ev e s = (Ret u, s1) ->
  same_process s s1 ∧ trace (st_os s1) = trace (st_os s) ++ [ev].
Proof. rewrite run_log. intros H; simplify_eq. unfold same_process; repeat split; reflexivity. Qed.

Lemma sys_fork_ret e s v s1 :
  sys_fork e s = (Ret v, s1) ->
  st_g s1 = st_g s ∧
  trace (st_os s1) = trace (st_os s) ++ [EvSys (ncall (st_os s)) c_fork (f_pos (st_os s)) v] ∧
  (v = -1 ∨ v = 0 ∨ (0 < v - pid (st_os s) ∧ pid (st_os s1) = pid (st_os s)
                      ∧ children (st_os s1) = v :: children (st_os s))).
Proof.
  unfold sys_fork. rewrite run_syscall.
  destruct (e_inject e (ncall (st_os s))) as [x|]; [destruct (x =? 0)|];
    cbn; intros H; simplify_eq; cbn; repeat split; auto.
  right; right. unfold fresh_pid. repeat split; lia.
Qed.

Lemma sys_wait_ret e s v s1 :
  sys_wait e s = (Ret v, s1) ->
  st_g s1 = st_g s ∧
  trace (st_os s1) = trace (st_os s) ++ [EvSys (ncall (st_os s)) c_wait (f_pos (st_os s)) v] ∧
  (v = -1 ∨ children (st_os s) ≡ₚ v :: children (st_os s1)).
Proof.
  unfold sys_wait. rewrite run_syscall.
  destruct (e_inject e (ncall (st_os s))) as [x|];
    [|destruct (children (st_os s)) as [|c0 cs] eqn:Ec].
  1,2: cbn [fst snd]; intros H; injection H as Hv Hs; subst v s1; cbn [st_os st_g];
    (split; [reflexivity|]); (split; [reflexivity|]); by left.
  remember (e_pick e (ncall (st_os s)) mod length (c0 :: cs))%nat as i eqn:Ei.
  assert (Hi : (i < length (c0 :: cs))%nat) by (subst i; apply Nat.mod_upper_bound; done).
  destruct (lookup_lt_is_Some_2 _ _ Hi) as [x Hx]. rewrite Hx.
  cbn [fst snd]; intros H; injection H as Hv Hs; subst v s1; cbn [st_os st_g].
  (split; [reflexivity|]); (split; [reflexivity|]).
  right. apply (delete_Permutation _ _ _ Hx).
Qed.

Lemma sys_read_report_ret old count e s v rep s1 :
  sys_read_report old count e s = (Ret (v, rep), s1) ->
  same_process s s1 ∧
  trace (st_os s1) = trace (st_os s)
    ++ [EvSys (ncall (st_os s)) (c_read_report count) (f_pos (st_os s)) v] ∧
  rep = (if v =? count then e_report e (ncall (st_os s)) else old).
Proof.
  unfold sys_read_report. autorewrite with run. cbn. intros H; simplify_eq. unfold same_process; repeat split; reflexivity.
Qed.

Lemma fatal_if_ret (b : bool) message e s u s1 :
  fatal_if b message e s = (Ret u, s1) -> b = false ∧ s1 = s.
Proof.
  unfold fatal_if. destruct b; [|by intros H; rewrite run_skip in H; simplify_eq].
  destruct (nr_io_error (A:=unit) message e s) as (w & s2 & ->). done.
Qed.

Lemma set_g_ret f e s u s1 :
  set_g f e s = (Ret u, s1) -> s1 = State (st_os s) (f (st_g s)).
Proof. rewrite run_set_g. by intros H; simplify_eq. Qed.

(** Peel the first action of a returning sequence. *)
Ltac peel_as H a s1 E :=
  rewrite bind_run in H;
  match type of H with
  | match ?m ?e ?s with _ => _ end = _ =>
      destruct (m e s) as [[a|?] s1] eqn:E; [cbn beta iota in H | discriminate H]
  end.
Ltac peel H :=
  let a := fresh "a" in let s1 := fresh "s" in let E := fresh "E" in peel_as H a s1 E.

Lemma received_cons e ev tr :
  received e (ev :: tr) =
    match ev with
    | EvSys k (c_read_report n) _ r =>
        if r =? n then e_report e k :: received e tr else received e tr
    | _ => received e tr
    end.
Proof.
  unfold received. destruct ev as [k [] p r| | | | |]; try reflexivity.
  cbn. by destruct (r =? count).
Qed.

Lemma report_reads_cons ev tr :
  report_reads (ev :: tr) =
    match ev with
    | EvSys _ (c_read_report _) _ r => r :: report_reads tr
    | _ => report_reads tr
    end.
Proof. by destruct ev as [k [] p r| | | | |]. Qed.

Lemma reaped_cons ev tr :
  reaped (ev :: tr) =
    match ev with EvSys _ c_wait _ r => r :: reaped tr | _ => reaped tr end.
Proof. by destruct ev as [k [] p r| | | | |]. Qed.

Lemma forked_cons ev tr :
  forked (ev :: tr) =
    match ev with EvSys _ c_fork _ r => r :: forked tr | _ => forked tr end.
Proof. by destruct ev as [k [] p r| | | | |]. Qed.

Lemma ticket_writes_cons ev tr :
  ticket_writes (ev :: tr) =
    match ev with
    | EvSys _ (c_write_tickets t n) _ r => (t, n, r) :: ticket_writes tr
    | _ => ticket_writes tr
    end.
Proof. by destruct ev as [k [] p r| | | | |]. Qed.

Lemma received_app e tr1 tr2 : received e (tr1 ++ tr2) = received e tr1 ++ received e tr2.
Proof. apply omap_app. Qed.
Lemma report_reads_app tr1 tr2 : report_reads (tr1 ++ tr2) = report_reads tr1 ++ report_reads tr2.
Proof. apply omap_app. Qed.
Lemma reaped_app tr1 tr2 : reaped (tr1 ++ tr2) = reaped tr1 ++ reaped tr2.
Proof. apply omap_app. Qed.
Lemma forked_app tr1 tr2 : forked (tr1 ++ tr2) = forked tr1 ++ forked tr2.
Proof. apply omap_app. Qed.
Lemma ticket_writes_app tr1 tr2 : ticket_writes (tr1 ++ tr2) = ticket_writes tr1 ++ ticket_writes tr2.
Proof. apply omap_app. Qed.

Ltac projections :=
  repeat first
    [ rewrite received_cons | rewrite report_reads_cons | rewrite reaped_cons
    | rewrite forked_cons | rewrite ticket_writes_cons
    | rewrite received_app | rewrite report_reads_app | rewrite reaped_app
    | rewrite forked_app | rewrite ticket_writes_app ];
  cbn beta iota.

Lemma collect_ret n : ∀ next wh rep fl e s f l s',
  collect n next wh rep fl e s = (Ret (f, l), s') ->
  ∃ evs, trace (st_os s') = trace (st_os s) ++ evs ∧
    report_reads evs = replicate n sizeof_seeker_report ∧
    length (received e evs) = n ∧
    forked evs = [] ∧ ticket_writes evs = [] ∧
    length (reaped evs) = n ∧
    children (st_os s) ≡ₚ reaped evs ++ children (st_os s') ∧
    absorb_all next (Tally (delta (st_g s) wh CPU) fl.1 fl.2) (received e evs)
      = Tally (delta (st_g s') wh CPU) f l ∧
    (∀ w c, (w, c) ≠ (wh, CPU) -> delta (st_g s') w c = delta (st_g s) w c).
Proof.
  induction n as [|n IH]; intros next wh rep fl e s f l s' H.
  - cbn [collect] in H. rewrite run_ret in H. simplify_eq. exists []. rewrite app_nil_r. done.
  - cbn [collect] in H.
    peel H. destruct a as [v rep']. apply sys_read_report_ret in E as ([Hg1 Hc1] & Ht1 & Hrep).
    peel H. apply fatal_if_ret in E as [Hv ->].
    rewrite bind_run, run_get_g in H. cbn beta iota in H.
    peel H. apply set_g_ret in E as ->.
    peel H. apply sys_wait_ret in E as (Hg2 & Ht2 & Hw).
    peel H. apply fatal_if_ret in E as [Hv2 ->].
    peel H. unfold fprintf_stderr in E. apply log_ret in E as ([Hg3 Hc3] & Ht3).
    apply IH in H as (evs & Htr & Hrr & Hrc & Hf & Htw & Hrl & Hch & Hab & Hfr).
    apply negb_false_iff, Z.eqb_eq in Hv. apply Z.eqb_neq in Hv2.
    destruct Hw as [Hw|Hw]; [done|]. cbn [st_os st_g] in *.
    eexists. split; [rewrite Htr, Ht3, Ht2, Ht1, <- !app_assoc; reflexivity|].
    cbn [app]. projections. rewrite Hv, Z.eqb_refl. cbn [replicate length].
    rewrite Hrr, Hrc, Hf, Htw, Hrl. repeat split; try done.
    + rewrite <- Hc1, Hw. constructor. rewrite <- Hc3. exact Hch.
    + rewrite <- Hab. rewrite Hg3, Hg2. cbn.
      rewrite Hv, Z.eqb_refl in Hrep. subst rep'. rewrite Hg1. f_equal.
      unfold store. rewrite decide_True by done. rewrite Z.eqb_refl.
      match goal with |- ?x = _ => by destruct x end.
    + intros w c Hne. rewrite Hfr by done. rewrite Hg3, Hg2. cbn.
      unfold store. case_decide; [|by rewrite Hg1].
      destruct (Z.eqb_spec c CPU); [congruence | by rewrite Hg1].
Qed.

Ltac pure_call E Hv Hg Hc Ht :=
  unfold sys_system, sys_pipe, sys_sleep, sys_close_pipe, sys_write_tickets, sys_plain,
    fprintf_stderr, perror in E;
  first [ apply syscall_pure_ret in E as (Hv & [Hg Hc] & Ht)
        | apply log_ret in E as ([Hg Hc] & Ht) ].

Lemma spawn_ret n : ∀ next child e s u s',
  (∀ i, never_returns (child i)) ->
  spawn n next child e s = (Ret u, s') ->
  ∃ evs, trace (st_os s') = trace (st_os s) ++ evs ∧
    report_reads evs = [] ∧ received e evs = [] ∧ reaped evs = [] ∧ ticket_writes evs = [] ∧
    length (forked evs) = n ∧
    children (st_os s') = reverse (forked evs) ++ children (st_os s) ∧
    st_g s' = st_g s.
Proof.
  induction n as [|n IH]; intros next child e s u s' Hc H.
  - cbn [spawn] in H. rewrite run_skip in H. simplify_eq. exists []. rewrite app_nil_r. done.
  - cbn [spawn] in H.
    peel H. apply sys_fork_ret in E as (Hg & Ht & Hv).
    peel H. destruct (Z.eqb_spec a (-1)) as [->|Hn1].
    { destruct (nr_io_error (A:=unit) "fork" e s0) as (w & s2 & R). rewrite R in E. done. }
    destruct (Z.eqb_spec a 0) as [->|Hn0].
    { destruct (Hc next e s0) as (w & s2 & R). rewrite R in E. done. }
    rewrite run_skip in E. simplify_eq.
    destruct Hv as [?|[?|(Hpos & Hpid & Hch)]]; [done..|].
    apply IH in H as (evs & Htr & Hrr & Hrc & Hrp & Htw & Hfl & Hchs & Hgs); [|done].
    eexists. split; [rewrite Htr, Ht, <- app_assoc; reflexivity|].
    cbn [app]. projections. rewrite Hrr, Hrc, Hrp, Htw, Hchs, Hch, Hgs, Hg.
    rewrite reverse_cons, <- app_assoc. cbn. by rewrite Hfl.
Qed.

(** What a seek phase that returns has done. *)
Lemma do_seekstuff_ret fuel do_write whereto e s u s' :
  do_seekstuff fuel do_write whereto e s = (Ret u, s') ->
  ∃ evs, trace (st_os s') = trace (st_os s) ++ evs ∧
    ticket_writes evs =
      [(make_tickets (stack_array e (Seeks + SeekProcCount)),
        sizeof_seek_tickets, sizeof_seek_tickets)] ∧
    report_reads evs = replicate (Z.to_nat SeekProcCount) sizeof_seeker_report ∧
    length (received e evs) = Z.to_nat SeekProcCount ∧
    length (forked evs) = Z.to_nat SeekProcCount ∧
    length (reaped evs) = Z.to_nat SeekProcCount ∧
    children (st_os s) ++ forked evs ≡ₚ reaped evs ++ children (st_os s') ∧
    (let t := absorb_all 0 (Tally (delta (st_g s) whereto CPU) 0 0) (received e evs) in
     delta (st_g s') whereto CPU = t_cpu t ∧
     delta (st_g s') whereto Elapsed = elapsed_of t) ∧
    (∀ w c, w ≠ whereto -> delta (st_g s') w c = delta (st_g s) w c).
Proof.
  intros H. unfold do_seekstuff, uninit in H.
  rewrite bind_run, run_ask in H. cbn beta iota in H.
  peel_as H r0 s0 E0. pure_call E0 Hv0 Hg0 Hc0 Ht0.
  peel_as H r1 s1 E1. pure_call E1 Hv1 Hg1 Hc1 Ht1.
  peel_as H r2 s2 E2.
  peel_as H u3 s3 E3. apply fatal_if_ret in E3 as [Hb ->].
  apply orb_false_iff in Hb as [Hb1 Hb2]. rewrite Hb1 in E2.
  pure_call E2 Hv2 Hg2 Hc2 Ht2.
  peel_as H u4 s4 E4.
  apply spawn_ret in E4 as (evs1 & Htr1 & Hrr1 & Hrc1 & Hrp1 & Htw1 & Hfl1 & Hch1 & Hgs1);
    [|intros i; apply nr_seeker].
  peel_as H r5 s5 E5. pure_call E5 Hv5 Hg5 Hc5 Ht5.
  peel_as H r6 s6 E6. pure_call E6 Hv6 Hg6 Hc6 Ht6.
  peel_as H r7 s7 E7. pure_call E7 Hv7 Hg7 Hc7 Ht7.
  peel_as H r8 s8 E8. pure_call E8 Hv8 Hg8 Hc8 Ht8.
  peel_as H r9 s9 E9. pure_call E9 Hv9 Hg9 Hc9 Ht9.
  peel_as H u10 s10 E10. apply fatal_if_ret in E10 as [Hb ->].
  apply negb_false_iff, Z.eqb_eq in Hb.
  peel_as H fl s11 E11. destruct fl as [first last].
  apply collect_ret in E11
    as (evs2 & Htr2 & Hrr2 & Hrc2 & Hf2 & Htw2 & Hrl2 & Hch2 & Hab2 & Hfr2).
  peel_as H r12 s12 E12. pure_call E12 Hv12 Hg12 Hc12 Ht12.
  apply set_g_ret in H. subst s'. cbn [st_os st_g].
  assert (Hg : st_g s9 = st_g s) by congruence.
  assert (Hc : children (st_os s9) = reverse (forked evs1) ++ children (st_os s)) by congruence.
  eexists. split.
  { rewrite Ht12, Htr2, Ht9, Ht8, Ht7, Ht6, Ht5, Htr1, Ht2, Ht1, Ht0.
    rewrite <- !app_assoc. reflexivity. }
  cbn [app]. projections.
  rewrite Htw1, Htw2, Hrr1, Hrr2, Hrc1, Hf2, Hrp1. rewrite ?app_nil_r.
  cbn [app]. rewrite Hb. rewrite ?length_app, Hrc2, Hfl1, Hrl2. cbn [length].
  change (iterations 0 SeekProcCount) with (Z.to_nat SeekProcCount) in *.
  rewrite Hg in Hab2, Hfr2. cbn [fst snd] in Hab2.
  repeat split; try done; try lia.
  - rewrite Hc12, <- Hch2, Hc. rewrite (comm (++) (children _)).
    by rewrite reverse_Permutation.
  - cbn [delta with_delta]. unfold store at 1. rewrite decide_True by done.
    rewrite Hab2, Hg12. reflexivity.
  - cbn [delta with_delta]. unfold store at 1. rewrite decide_True by done.
    rewrite Hab2. reflexivity.
  - intros w c Hw. cbn [delta with_delta]. unfold store at 1. rewrite decide_False by done.
    rewrite Hg12, Hfr2 by congruence. done.
Qed.

(** * The aggregation of the reports *)

(** The CPU cell takes the reports one at a time, in their order. *)
Lemma absorb_all_cpu rs : ∀ next t,
  t_cpu (absorb_all next t rs) = foldl (λ acc r, (acc + at_CPU r)%Q) (t_cpu t) rs.
Proof.
  induction rs as [|r rs IH]; intros next t; cbn [absorb_all foldl]; [done|].
  rewrite IH. f_equal. unfold absorb. by destruct (next =? 0).
Qed.

(** Once [next] is past zero the loop keeps the running minimum and maximum. *)
Lemma absorb_all_later rs : ∀ next t,
  0 < next ->
  let t' := absorb_all next t rs in
  (first_start t' ∈ first_start t :: (at_StartTime <$> rs)) ∧
  (∀ x, x ∈ first_start t :: (at_StartTime <$> rs) -> (first_start t' <= x)%Q) ∧
  (last_stop t' ∈ last_stop t :: (at_EndTime <$> rs)) ∧
  (∀ x, x ∈ last_stop t :: (at_EndTime <$> rs) -> (x <= last_stop t')%Q).
Proof.
  induction rs as [|r rs IH]; intros next t Hn; cbn [absorb_all fmap list_fmap].
  - cbn. repeat split.
    + apply list_elem_of_here.
    + intros x Hx. apply list_elem_of_singleton in Hx as ->. apply Qle_refl.
    + apply list_elem_of_here.
    + intros x Hx. apply list_elem_of_singleton in Hx as ->. apply Qle_refl.
  - destruct (IH (next + 1) (absorb next t r) ltac:(lia)) as (Hf1 & Hf2 & Hl1 & Hl2).
    cbn zeta in *.
    set (t' := absorb_all (next + 1) (absorb next t r) rs) in *.
    assert (Hnz : (next =? 0) = false) by (apply Z.eqb_neq; lia).
    assert (Ef : first_start (absorb next t r) =
                   if Qltb (first_start t) (at_StartTime r) then first_start t else at_StartTime r)
      by (unfold absorb; rewrite Hnz; reflexivity).
    assert (El : last_stop (absorb next t r) =
                   if Qltb (at_EndTime r) (last_stop t) then last_stop t else at_EndTime r)
      by (unfold absorb; rewrite Hnz; reflexivity).
    rewrite Ef in Hf1, Hf2. rewrite El in Hl1, Hl2. clear Ef El.
    pose proof (Hf2 _ (list_elem_of_here _ _)) as Hfm.
    pose proof (Hl2 _ (list_elem_of_here _ _)) as Hlm.
    destruct (Qltb (first_start t) (at_StartTime r)) eqn:E1;
      [apply Qltb_true in E1 | apply Qltb_false in E1];
      (destruct (Qltb (at_EndTime r) (last_stop t)) eqn:E2;
        [apply Qltb_true in E2 | apply Qltb_false in E2]);
      rewrite !elem_of_cons in Hf1, Hl1;
      (repeat split;
       [ rewrite !elem_of_cons; tauto
       | intros x Hx; rewrite !elem_of_cons in Hx;
         destruct Hx as [->|[->|Hx]]; [lra | lra | by apply Hf2, list_elem_of_further]
       | rewrite !elem_of_cons; tauto
       | intros x Hx; rewrite !elem_of_cons in Hx;
         destruct Hx as [->|[->|Hx]]; [lra | lra | by apply Hl2, list_elem_of_further] ]).
Qed.

Lemma absorb_all_extremes r rs t :
  let t' := absorb_all 0 t (r :: rs) in
  earliest (first_start t') (at_StartTime <$> r :: rs) ∧
  latest (last_stop t') (at_EndTime <$> r :: rs).
Proof.
  cbn [absorb_all]. change (0 + 1) with 1.
  pose proof (absorb_all_later rs 1 (absorb 0 t r) ltac:(lia)) as H.
  cbn zeta in *. unfold earliest, latest. cbn [fmap list_fmap].
  change (first_start (absorb 0 t r)) with (at_StartTime r) in H.
  change (last_stop (absorb 0 t r)) with (at_EndTime r) in H.
  tauto.
Qed.

Lemma elapsed_covers rs t :
  rs ≠ [] ->
  (∀ r, r ∈ rs -> (at_StartTime r <= at_EndTime r)%Q) ->
  let t' := absorb_all 0 t rs in
  (0 <= elapsed_of t')%Q ∧
  ∀ r, r ∈ rs -> (at_EndTime r - at_StartTime r <= elapsed_of t')%Q.
Proof.
  intros Hne Hord. destruct rs as [|r0 rs]; [done|].
  destruct (absorb_all_extremes r0 rs t) as [[Hf1 Hf2] [Hl1 Hl2]].
  cbn zeta in *. set (t' := absorb_all 0 t (r0 :: rs)) in *. unfold elapsed_of.
  assert (Hin : ∀ r, r ∈ r0 :: rs ->
            (first_start t' <= at_StartTime r)%Q ∧ (at_EndTime r <= last_stop t')%Q).
  { intros r Hr. split; [apply Hf2 | apply Hl2]; by apply list_elem_of_fmap_2. }
  split.
  - destruct (Hin r0 ltac:(apply list_elem_of_here)).
    pose proof (Hord r0 ltac:(apply list_elem_of_here)). lra.
  - intros r Hr. destruct (Hin r Hr). lra.
Qed.

(** * What the monitor accepts *)

Section monitor_sound.
Variable warn : list string.

Lemma quiet_exit_no_failure tr pre k c pos r post :
  quiet_exit tr -> tr = pre ++ EvSys k c pos r :: post -> file_io c = false.
Proof.
  intros (evs & -> & Hq) E.
  assert (Hin : EvSys k c pos r ∈ evs ++ [EvExit 1]) by (rewrite E; apply elem_of_app; right; apply list_elem_of_here).
  apply elem_of_app in Hin as [Hin|Hin].
  - rewrite Forall_forall in Hq. apply (Hq _ Hin).
  - apply list_elem_of_singleton in Hin. done.
Qed.

(** A trace the automaton accepts handles its failures. *)
Lemma watch_sound tr : ∀ q,
  accepted (foldl (watch_step warn) q tr) -> watched warn q tr.
Proof.
  induction tr as [|ev tr IH]; intros q Hacc.
  - cbn in Hacc. destruct Hacc as [-> | ->]; cbn; [|done].
    intros pre k c pos post E. by destruct pre.
  - cbn [foldl] in Hacc. specialize (IH _ Hacc).
    destruct q as [|c| | |]; cbn [watch_step] in IH; cbn [watched].
    + (* Live *)
      intros pre k c pos post E Hio.
      destruct pre as [|ev' pre]; cbn in E; injection E as -> E.
      * rewrite Hio in IH. cbn in IH. subst post.
        destruct IH as [Hf | (Hs & m & rest & Htr & Hm & _)]; [by left|].
        right. split; [done|]. by exists m, rest.
      * destruct ev' as [k' c' pos' r'| | | | |]; cbn in IH;
          try (by eapply IH).
        -- destruct (file_io c' && (r' =? -1)); cbn in IH; [|by eapply IH].
           destruct IH as [Hf | (Hs & m & rest & Htr & Hm & Hh)].
           ++ destruct Hf as (m & rest & Htr & _ & Hq).
              destruct pre as [|ev'' pre]; [by rewrite Htr in E|].
              rewrite Htr in E. cbn in E. injection E as _ E.
              by rewrite (quiet_exit_no_failure _ _ _ _ _ _ _ Hq E) in Hio.
           ++ destruct pre as [|ev'' pre]; [by rewrite Htr in E|].
              rewrite Htr in E. cbn in E. injection E as _ E. by eapply Hh.
        -- subst tr. by destruct pre.
    + (* Failed *)
      destruct ev as [| | |m| |]; try done.
      destruct (is_drastic m) eqn:Ed; cbn in IH.
      * left. by exists m, tr.
      * destruct (is_fsync c) eqn:Ef; cbn in IH; [|done].
        destruct (bool_decide (m ∈ warn)) eqn:Em; cbn in IH; [|done].
        apply bool_decide_eq_true in Em. right. split; [done|]. by exists m, tr.
    + (* Dying *)
      destruct ev as [k c pos r| | | | |st]; try done.
      * destruct (file_io c) eqn:Ec; [done|]. destruct IH as (evs & -> & Hq).
        exists (EvSys k c pos r :: evs). split; [done|]. by constructor.
      * destruct IH as (evs & -> & Hq). exists (EvReport :: evs). split; [done|].
        by constructor.
      * destruct (Z.eqb_spec st 1) as [->|]; [|done]. cbn in IH. subst tr.
        exists []. by split.
    + done.
    + done.
Qed.

Lemma watched_handled e {A} (m : M A) s :
  triple e (Mon warn Live) m (λ _, Mon warn Live) (Final warn) ->
  trace (st_os s) = [] ->
  failures_handled warn (trace (st_os (m e s).2)).
Proof.
  intros Ht Hs. specialize (Ht s). unfold Mon, seen in Ht.
  rewrite Hs in Ht. specialize (Ht eq_refl).
  apply (watch_sound _ Live).
  destruct (m e s) as [[a|w] s']; cbn; [by left|].
  destruct w; cbn in Ht; unfold Mon, seen in Ht; rewrite Ht; [by right | by left | by left].
Qed.
End monitor_sound.

(** * The duty cycle *)

Lemma duty_step_sys dw q k k' c pos pos' r :
  duty_step dw q (EvSys k c pos r) = duty_step dw q (EvSys k' c pos' r).
Proof. reflexivity. Qed.

Section idle_rules.
Variable dw : Z.

Lemma idle_bind {A B} (m : M A) (f : A -> M B) :
  idle dw m -> (∀ a, idle dw (f a)) -> idle dw (m ≫= f).
Proof. intros Hm Hf e q. eapply tr_bind; [apply Hm | intros a; apply Hf]. Qed.
Lemma idle_ret {A} (a : A) : idle dw (mret a).
Proof. intros e q. by apply tr_ret. Qed.
Lemma idle_halt {A} w : idle dw (@halt A w).
Proof. intros e q. by apply tr_halt. Qed.
Lemma idle_syscall c sem : idle dw (syscall c sem).
Proof.
  intros e q. apply tr_tail.
  apply (tr_sys (duty_step dw) (Some 0) (duty_step_sys dw)). intros r. by apply tr_ret.
Qed.
Lemma idle_log ev : (∀ w u t, ev ≠ EvDoseek w u t) -> idle dw (log ev).
Proof.
  intros Hev e q. apply tr_tail. apply (tr_log (duty_step dw) (Some 0)).
  apply tr_ret. intros s Hs. destruct ev; try done. by edestruct Hev.
Qed.
Lemma idle_get_g {A} (f : globals -> A) : idle dw (get_g f).
Proof. intros e q. apply tr_tail, (tr_get_g (duty_step dw) (Some 0)). intros a. by apply tr_ret. Qed.
Lemma idle_get_os {A} (f : os -> A) : idle dw (get_os f).
Proof. intros e q. apply tr_tail, (tr_get_os (duty_step dw) (Some 0)). intros a. by apply tr_ret. Qed.
Lemma idle_ask {A} (f : env -> A) : idle dw (ask f).
Proof. intros e q. apply tr_tail, (tr_ask (duty_step dw) (Some 0)). intros a. by apply tr_ret. Qed.
Lemma idle_set_g f : idle dw (set_g f).
Proof. intros e q. apply tr_tail, (tr_set_g (duty_step dw) (Some 0)). by apply tr_ret. Qed.
Lemma idle_random : idle dw c_random.
Proof. intros e q. apply tr_tail, (tr_random (duty_step dw) (Some 0)). intros a. by apply tr_ret. Qed.
End idle_rules.

Create HintDb idle discriminated.

Ltac idle_step :=
  lazymatch goal with
  | |- idle _ (_ ≫= _) => apply idle_bind; [|intros ?]
  | |- idle _ (mret _) => apply idle_ret
  | |- idle _ skip => apply idle_ret
  | |- idle _ (halt _) => apply idle_halt
  | |- idle _ (syscall _ _) => apply idle_syscall
  | |- idle _ (get_g _) => apply idle_get_g
  | |- idle _ (get_os _) => apply idle_get_os
  | |- idle _ (ask _) => apply idle_ask
  | |- idle _ (set_g _) => apply idle_set_g
  | |- idle _ c_random => apply idle_random
  | |- idle _ (log _) => apply idle_log; discriminate
  | |- idle _ (if ?b then _ else _) => destruct b
  | |- idle _ (let '(_, _) := ?p in _) => destruct p
  | |- idle _ _ => solve [auto with idle]
  end.
Ltac idle_tac := repeat idle_step.

Section idle_program.
Variable dw : Z.

Lemma idle_c_exit {A} status : idle dw (@c_exit A status).
Proof. unfold c_exit, cleanup, sys_unlink. idle_tac. Qed.
Hint Resolve idle_c_exit : idle.
Lemma idle_io_error {A} message : idle dw (@io_error A message).
Proof. unfold io_error, perror. idle_tac. Qed.
Hint Resolve idle_io_error : idle.
Lemma idle_fatal_if b message : idle dw (fatal_if b message).
Proof. unfold fatal_if. idle_tac. Qed.
Hint Resolve idle_fatal_if : idle.
Lemma idle_sys_plain c ok failure : idle dw (sys_plain c ok failure).
Proof. unfold sys_plain. idle_tac. Qed.
Hint Resolve idle_sys_plain : idle.
Lemma idle_sys_read fd buf count : idle dw (sys_read fd buf count).
Proof. unfold sys_read. idle_tac. Qed.
Lemma idle_sys_read_ticket old : idle dw (sys_read_ticket old).
Proof. unfold sys_read_ticket. idle_tac. Qed.
Lemma idle_sys_lseek fd off whence : idle dw (sys_lseek fd off whence).
Proof. unfold sys_lseek. idle_tac. Qed.
Lemma idle_sys_write fd buf count : idle dw (sys_write fd buf count).
Proof. unfold sys_write. idle_tac. Qed.
Lemma idle_sys_write_report r count : idle dw (sys_write_report r count).
Proof. unfold sys_write_report. idle_tac. Qed.
Lemma idle_sys_fsync fd : idle dw (sys_fsync fd).
Proof. unfold sys_fsync. idle_tac. Qed.
Lemma idle_sys_close fd : idle dw (sys_close fd).
Proof. unfold sys_close. idle_tac. Qed.
Lemma idle_sys_close_pipe which : idle dw (sys_close_pipe which).
Proof. unfold sys_close_pipe. idle_tac. Qed.
Lemma idle_sys_getpid : idle dw sys_getpid.
Proof. unfold sys_getpid. idle_tac. Qed.
Lemma idle_sys_gettimeofday : idle dw sys_gettimeofday.
Proof. unfold sys_gettimeofday. idle_tac. Qed.
Lemma idle_sys_getrusage : idle dw sys_getrusage.
Proof. unfold sys_getrusage. idle_tac. Qed.
Lemma idle_sys_unlink : idle dw sys_unlink.
Proof. unfold sys_unlink. idle_tac. Qed.
Lemma idle_sys_open create : idle dw (sys_open create).
Proof. unfold sys_open. idle_tac. Qed.
Lemma idle_sys_fdopen fd : idle dw (sys_fdopen fd).
Proof. unfold sys_fdopen. idle_tac. Qed.
Lemma idle_uninit n : idle dw (uninit n).
Proof. unfold uninit. idle_tac. Qed.
Lemma idle_perror message : idle dw (perror message).
Proof. unfold perror. idle_tac. Qed.
Lemma idle_fprintf_stderr format args : idle dw (fprintf_stderr format args).
Proof. unfold fprintf_stderr. idle_tac. Qed.
Hint Resolve idle_sys_read idle_sys_read_ticket idle_sys_lseek idle_sys_write
  idle_sys_write_report idle_sys_fsync idle_sys_close idle_sys_close_pipe idle_sys_getpid
  idle_sys_gettimeofday idle_sys_getrusage idle_sys_unlink idle_sys_open idle_sys_fdopen
  idle_uninit idle_perror idle_fprintf_stderr : idle.
Lemma idle_time_so_far : idle dw time_so_far.
Proof. unfold time_so_far. idle_tac. Qed.
Lemma idle_cpu_so_far : idle dw cpu_so_far.
Proof. unfold cpu_so_far. idle_tac. Qed.
Hint Resolve idle_time_so_far idle_cpu_so_far : idle.
Lemma idle_timestamp : idle dw timestamp.
Proof. unfold timestamp. idle_tac. Qed.
Lemma idle_get_delta_t test : idle dw (get_delta_t test).
Proof. unfold get_delta_t. idle_tac. Qed.
Lemma idle_newfile fd create : idle dw (newfile fd create).
Proof. unfold newfile. idle_tac. Qed.
Hint Resolve idle_timestamp idle_get_delta_t idle_newfile : idle.

(** [doseek] is entered once, with the flags it is given. *)
Lemma doseek_duty w fd c e :
  triple e (Duty dw (Some c)) (doseek w fd (update_of c) dw)
    (λ _, Duty dw (Some (next_count c))) (λ _, Duty dw (Some (next_count c))).
Proof.
  unfold doseek. apply (tr_log (duty_step dw) (Some 0)).
  cbn [duty_step]. rewrite !Z.eqb_refl. cbn [andb].
  assert (Hi : idle dw (buf ← uninit (Chunk ÷ IntSize);
    let probe := probe_of w in
    r ← sys_lseek fd probe 0;
    fatal_if (negb (r =? probe)) "lseek in doseek";;
    '(size, buf) ← sys_read fd buf Chunk;
    fatal_if (size =? -1) "read in doseek";;
    if nonzero (update_of c) && nonzero dw then
      rnd ← c_random;
      (if touch_divisor size =? 0 then halt (Killed "SIGFPE") else skip);;
      let i := touch_index rnd size in
      let buf := <[Z.to_nat i := int32 (word_at buf i - 1)]> buf in
      r ← sys_lseek fd probe 0;
      fatal_if (negb (r =? probe)) "lseek in doseek update";;
      r ← sys_write fd buf size;
      fatal_if (r =? -1) "write in doseek";;
      r ← sys_fsync fd;
      fatal_if (r =? -1) "fsync(2) in seek w/write(2)"
    else skip)).
  { cbv zeta. idle_tac. }
  apply Hi.
Qed.

Lemma seek_loop_duty fuel fd : ∀ ticket c e,
  triple e (Duty dw (Some c)) (seek_loop fuel fd dw ticket c)
    (λ _ s, ∃ c', Duty dw (Some c') s) (λ _ s, ∃ c', Duty dw (Some c') s).
Proof.
  induction fuel as [|fuel IH]; intros ticket c e; cbn [seek_loop].
  - apply tr_halt. eauto.
  - destruct (nonzero ticket); [|apply tr_ret; eauto].
    apply (tr_random (duty_step dw) (Some 0)). intros rnd.
    apply (tr_get_g (duty_step dw) (Some 0)). intros fs.
    apply tr_bind with (Q1 := λ _, Duty dw (Some (next_count c))).
    { eapply tr_weaken; [apply doseek_duty | done | done | cbn; eauto]. }
    intros _. apply tr_bind with (Q1 := λ _, Duty dw (Some (next_count c))).
    { eapply tr_weaken; [apply (idle_sys_read_ticket ticket e) | done | done | cbn; eauto]. }
    intros [r ticket']. apply tr_bind with (Q1 := λ _, Duty dw (Some (next_count c))).
    { eapply tr_weaken;
        [apply (idle_fatal_if (negb (r =? 1)) "read ticket" e) | done | done | cbn; eauto]. }
    intros _. apply IH.
Qed.
End idle_program.

#[export] Hint Resolve idle_c_exit idle_io_error idle_fatal_if idle_sys_plain
  idle_sys_read idle_sys_read_ticket idle_sys_lseek idle_sys_write
  idle_sys_write_report idle_sys_fsync idle_sys_close idle_sys_close_pipe idle_sys_getpid
  idle_sys_gettimeofday idle_sys_getrusage idle_sys_unlink idle_sys_open idle_sys_fdopen
  idle_uninit idle_perror idle_fprintf_stderr idle_time_so_far idle_cpu_so_far
  idle_timestamp idle_get_delta_t idle_newfile : idle.

Lemma tr_exists {A T} e (P : T -> state -> Prop) (m : M A) Q X :
  (∀ x, triple e (P x) m Q X) -> triple e (λ s, ∃ x, P x s) m Q X.
Proof. intros H s [x Hx]. by apply (H x). Qed.

Section counting.
Variable dw : Z.

Lemma duty_idle_bind {A B} (m : M A) (f : A -> M B) e c Q :
  idle dw m ->
  (∀ a, triple e (Duty dw (Some c)) (f a) Q (λ _, Counting dw)) ->
  triple e (Duty dw (Some c)) (m ≫= f) Q (λ _, Counting dw).
Proof.
  intros Hm Hf. apply tr_bind with (Q1 := λ _, Duty dw (Some c)); [|done].
  eapply tr_weaken; [apply Hm | done | done |]. intros w s Hs. by exists c.
Qed.

Lemma duty_idle_rest {A} (m : M A) e :
  idle dw m -> triple e (Counting dw) m (λ _, Counting dw) (λ _, Counting dw).
Proof.
  intros Hm. apply tr_exists. intros c.
  eapply tr_weaken; [apply Hm | done | |]; intros ? s Hs; by exists c.
Qed.

Lemma seeker_duty fuel whereto next tickets rep e :
  triple e (Duty dw (Some 0)) (seeker fuel dw whereto next tickets rep)
    (λ _, Counting dw) (λ _, Counting dw).
Proof.
  unfold seeker.
  repeat lazymatch goal with
    | |- triple _ _ (seek_loop _ _ _ _ _ ≫= _) _ _ => fail
    | |- triple _ _ (let '(_, _) := ?p in _) _ _ => destruct p
    | |- triple _ _ (let _ := _ in _) _ _ => cbv zeta
    | |- _ => apply duty_idle_bind; [solve [idle_tac] | intros ?]
    end.
  apply tr_bind with (Q1 := λ _, Counting dw); [apply seek_loop_duty|].
  intros c. apply duty_idle_rest. idle_tac.
Qed.

(** A trace on which the counter survives has the flags of the duty cycle. *)
Lemma duty_sound tr : ∀ c0 c',
  foldl (duty_step dw) (Some c0) tr = Some c' ->
  ∀ k w u t, doseek_calls tr !! k = Some (w, u, t) ->
    u = update_of (Nat.iter k next_count c0) ∧ t = dw.
Proof.
  induction tr as [|ev tr IH]; intros c0 c' Hf k w u t Hk; [done|].
  cbn [foldl] in Hf.
  destruct ev as [k0 c p r | w0 u0 t0 | f a | m | | st]; try exact (IH c0 c' Hf k w u t Hk).
  cbn [duty_step] in Hf.
  destruct ((u0 =? update_of c0) && (t0 =? dw)) eqn:E.
  - apply andb_true_iff in E as [E1%Z.eqb_eq E2%Z.eqb_eq].
    destruct k as [|k]; cbn in Hk.
    + by simplify_eq.
    + rewrite Nat.iter_succ_r. exact (IH _ c' Hf k w u t Hk).
  - exfalso. clear -Hf. induction tr as [|ev tr IH]; [done|].
    apply IH. cbn in Hf. by destruct ev.
Qed.

Lemma iter_next_count (k : nat) :
  Z.of_nat k < 2147483648 -> Nat.iter k next_count 0 = Z.of_nat k.
Proof.
  induction k as [|k IH]; intros Hk; [done|].
  rewrite Nat.iter_succ, IH by lia. unfold next_count. rewrite int32_id; lia.
Qed.
End counting.

Lemma nonzero_truth b : nonzero (truth b) = b.
Proof. by destruct b. Qed.

(** Ten consecutive calls hold one multiple of ten. *)
Lemma window_count (calls : list (Z * Z * Z)) dw :
  (∀ k w u t, calls !! k = Some (w, u, t) -> Z.of_nat k < 2147483648 ->
     u = truth (Z.of_nat k mod UpdateSeek =? 0) ∧ t = dw) ->
  ∀ i : nat, (i + 10 <= length calls)%nat -> Z.of_nat i + 10 <= 2147483648 ->
    length (filter (λ c, writes_back c = true) (take 10 (drop i calls)))
      = if nonzero dw then 1%nat else 0%nat.
Proof.
  intros Hflags i Hlen Hi.
  assert (Hl : length (take 10 (drop i calls)) = 10%nat)
    by (rewrite length_take, length_drop; lia).
  assert (Hj : ∀ j x, (j < 10)%nat -> take 10 (drop i calls) !! j = Some x ->
            writes_back x = ((Z.of_nat i + Z.of_nat j) mod 10 =? 0) && nonzero dw).
  { intros j [[w u] t] Hj Hx. rewrite lookup_take_lt, lookup_drop in Hx by done.
    destruct (Hflags _ _ _ _ Hx ltac:(lia)) as [-> ->].
    unfold writes_back, UpdateSeek. cbn [fst snd]. rewrite nonzero_truth.
    by rewrite Nat2Z.inj_add. }
  destruct (take 10 (drop i calls)) as [|x0 [|x1 [|x2 [|x3 [|x4 [|x5 [|x6 [|x7 [|x8 [|x9 [|]]]]]]]]]]];
    try discriminate Hl.
  pose proof (Hj 0%nat x0 ltac:(lia) eq_refl) as H0.
  pose proof (Hj 1%nat x1 ltac:(lia) eq_refl) as H1.
  pose proof (Hj 2%nat x2 ltac:(lia) eq_refl) as H2.
  pose proof (Hj 3%nat x3 ltac:(lia) eq_refl) as H3.
  pose proof (Hj 4%nat x4 ltac:(lia) eq_refl) as H4.
  pose proof (Hj 5%nat x5 ltac:(lia) eq_refl) as H5.
  pose proof (Hj 6%nat x6 ltac:(lia) eq_refl) as H6.
  pose proof (Hj 7%nat x7 ltac:(lia) eq_refl) as H7.
  pose proof (Hj 8%nat x8 ltac:(lia) eq_refl) as H8.
  pose proof (Hj 9%nat x9 ltac:(lia) eq_refl) as H9.
  clear Hj Hl Hflags Hlen.
  rewrite !filter_cons, filter_nil.
  rewrite H0, H1, H2, H3, H4, H5, H6, H7, H8, H9.
  destruct (nonzero dw).
  2:{ rewrite !andb_false_r. by repeat case_decide. }
  rewrite !andb_true_r.
  assert (Hr : ∃ q r, Z.of_nat i = 10 * q + r ∧ 0 <= r < 10).
  { exists (Z.of_nat i / 10), (Z.of_nat i mod 10).
    pose proof (Z.div_mod (Z.of_nat i) 10 ltac:(lia)).
    pose proof (Z.mod_pos_bound (Z.of_nat i) 10 ltac:(lia)). lia. }
  destruct Hr as (q & r & -> & Hr).
  assert (Hm : ∀ j, (10 * q + r + j) mod 10 = (r + j) mod 10).
  { intros j. rewrite <- Z.add_assoc, Z.add_comm, Z.mul_comm, Z.mod_add by lia. done. }
  rewrite !Hm.
  assert (r = 0 ∨ r = 1 ∨ r = 2 ∨ r = 3 ∨ r = 4 ∨ r = 5 ∨ r = 6 ∨ r = 7 ∨ r = 8 ∨ r = 9)
    as Hc by lia.
  destruct Hc as [->|[->|[->|[->|[->|[->|[->|[->|[->| ->]]]]]]]]]; reflexivity.
Qed.

(** * The writes of [doseek] *)

Lemma file_writes_cons ev tr :
  file_writes (ev :: tr) =
    match ev with
    | EvSys _ (c_write _ buf n) pos r => (pos, buf, n, r) :: file_writes tr
    | _ => file_writes tr
    end.
Proof. by destruct ev as [k [] p r| | | | |]. Qed.
Lemma file_writes_app tr1 tr2 : file_writes (tr1 ++ tr2) = file_writes tr1 ++ file_writes tr2.
Proof. apply omap_app. Qed.

Lemma syscall_ret c sem e s v s1 :
  syscall c sem e s = (Ret v, s1) ->
  st_g s1 = st_g s ∧
  trace (st_os s1) = trace (st_os s) ++ [EvSys (ncall (st_os s)) c (f_pos (st_os s)) v].
Proof.
  rewrite run_syscall. intros H. injection H as Hv Hs. subst v s1. by cbn.
Qed.

Lemma sys_read_ret fd buf count e s v buf' s1 :
  sys_read fd buf count e s = (Ret (v, buf'), s1) ->
  st_g s1 = st_g s ∧
  trace (st_os s1) = trace (st_os s) ++ [EvSys (ncall (st_os s)) (c_read fd count) (f_pos (st_os s)) v].
Proof.
  unfold sys_read. rewrite bind_run, run_get_os. cbn beta iota. intros H.
  peel_as H r s2 E. apply syscall_ret in E as [Hg Ht].
  rewrite bind_run, run_ask, run_ret in H. cbn beta iota in H. by simplify_eq.
Qed.

Lemma doseek_writes w fd u t e s a s' :
  doseek w fd u t e s = (Ret a, s') ->
  ∃ evs, trace (st_os s') = trace (st_os s) ++ evs ∧
    length (file_writes evs) = if nonzero u && nonzero t then 1%nat else 0%nat.
Proof.
  intros H. unfold doseek, uninit in H.
  peel_as H u0 s0 E0. apply log_ret in E0 as [_ Ht0].
  rewrite bind_run, run_ask in H. cbn beta iota zeta in H.
  peel_as H r1 s1 E1. unfold sys_lseek, sys_write, sys_fsync, sys_plain in E1; apply syscall_ret in E1 as [_ Ht1].
  peel_as H u2 s2 E2. apply fatal_if_ret in E2 as [_ ->].
  peel_as H p3 s3 E3. destruct p3 as [size buf]. apply sys_read_ret in E3 as [_ Ht3].
  peel_as H u4 s4 E4. apply fatal_if_ret in E4 as [_ ->].
  destruct (nonzero u && nonzero t).
  - rewrite bind_run, run_random in H. cbn beta iota in H.
    peel_as H u5 s5 E5.
    assert (s5 = State (drawn (st_os s3)) (st_g s3)) as ->.
    { destruct (touch_divisor size =? 0); [by rewrite run_halt in E5|].
      rewrite run_skip in E5. by simplify_eq. }
    peel_as H r6 s6 E6. unfold sys_lseek, sys_write, sys_fsync, sys_plain in E6; apply syscall_ret in E6 as [_ Ht6].
    peel_as H u7 s7 E7. apply fatal_if_ret in E7 as [_ ->].
    peel_as H r8 s8 E8. unfold sys_lseek, sys_write, sys_fsync, sys_plain in E8; apply syscall_ret in E8 as [_ Ht8].
    peel_as H u9 s9 E9. apply fatal_if_ret in E9 as [_ ->].
    peel_as H r10 s10 E10. unfold sys_lseek, sys_write, sys_fsync, sys_plain in E10; apply syscall_ret in E10 as [_ Ht10].
    apply fatal_if_ret in H as [_ ->].
    cbn [st_os drawn trace] in *.
    eexists. split.
    { rewrite Ht10, Ht8, Ht6, Ht3, Ht1, Ht0, <- !app_assoc. reflexivity. }
    cbn [app]. by rewrite !file_writes_cons.
  - rewrite run_skip in H. simplify_eq.
    eexists. split.
    { rewrite Ht3, Ht1, Ht0, <- !app_assoc. reflexivity. }
    cbn [app]. by rewrite !file_writes_cons.
Qed.

Lemma transfer_bounds count e o : 0 <= count -> -1 <= transfer count e o <= count.
Proof.
  intros Hc. unfold transfer. destruct (e_inject e (ncall o)) as [v|]; [|lia].
  destruct (Z.leb_spec (-1) v), (Z.leb_spec v count); cbn; lia.
Qed.

(** What an updating [doseek] that returns has done: its six events. *)
Lemma doseek_update_ret w fd u t e s a s' :
  doseek w fd u t e s = (Ret a, s') ->
  nonzero u && nonzero t = true -> 0 <= probe_of w ->
  ∃ size r,
    let block := read_into (e_data e (S (ncall (st_os s)))) (size ÷ IntSize)
                   (stack_array e (Chunk ÷ IntSize)) in
    let i := touch_index (e_random e (nrandom (st_os s))) size in
    let k := ncall (st_os s) in
    trace (st_os s') = trace (st_os s)
      ++ [EvDoseek w u t;
          EvSys k (c_lseek fd (probe_of w) 0) (f_pos (st_os s)) (probe_of w);
          EvSys (S k) (c_read fd Chunk) (probe_of w) size;
          EvSys (S (S k)) (c_lseek fd (probe_of w) 0) (probe_of w + size) (probe_of w);
          EvSys (S (S (S k)))
            (c_write fd (<[Z.to_nat i := int32 (word_at block i - 1)]> block) size)
            (probe_of w) r;
          EvSys (S (S (S (S k)))) (c_fsync fd) (probe_of w + r) 0] ∧
    0 <= size <= Chunk ∧ 0 <= r <= size ∧ touch_divisor size ≠ 0.
Proof.
  intros H Hut Hp. unfold doseek, uninit, sys_lseek, sys_read, sys_write, sys_fsync, sys_plain in H.
  rewrite Hut in H.
  rewrite bind_run, run_log in H. cbn beta iota in H.
  rewrite bind_run, run_ask in H. cbn beta iota zeta in H.
  (* the seek *)
  rewrite bind_run, run_syscall in H.
  cbn [fst snd st_os st_g Z.eqb] in H.
  match type of H with context [EvSys _ _ _ ?r] => set (r1 := r) in H end.
  peel_as H u2 s2 E2. apply fatal_if_ret in E2 as [Hb ->].
  apply negb_false_iff, Z.eqb_eq in Hb.
  assert (E1 : (r1 <? 0) = false) by (apply Z.ltb_ge; lia).
  rewrite E1 in H. clearbody r1. subst r1.
  (* the read *)
  rewrite !bind_run, run_get_os in H. cbn beta iota in H.
  rewrite bind_run, run_syscall in H. cbn [fst snd st_os st_g] in H.
  match type of H with context [EvSys _ (c_read _ _) _ ?r] => set (size := r) in H end.
  rewrite bind_run, run_ask in H. cbn beta iota in H. rewrite run_ret in H. cbn beta iota in H.
  peel_as H u4 s4 E4. apply fatal_if_ret in E4 as [Hs ->]. apply Z.eqb_neq in Hs.
  assert (Bs : 0 <= size <= Chunk).
  { subst size.
    match goal with |- context [transfer ?c ?e0 ?o0] =>
      pose proof (transfer_bounds c e0 o0 ltac:(lia)) as B;
      set (x := transfer c e0 o0) in *; clearbody x end.
    unfold Chunk in *. lia. }
  assert (Es : (size <? 0) = false) by (apply Z.ltb_ge; lia).
  rewrite !Es in H. clearbody size.
  cbn [ncall counted with_trace with_pos with_file st_os st_g trace f_pos f_size f_exists
       nrandom pid children control] in H.
  (* the touched word *)
  rewrite bind_run, run_random in H. cbn beta iota in H.
  cbn [ncall counted with_trace with_pos with_file st_os st_g trace f_pos f_size f_exists
       nrandom pid children control drawn] in H.
  destruct (Z.eqb_spec (touch_divisor size) 0) as [|Hd];
    [rewrite bind_run, run_halt in H; discriminate H|].
  rewrite bind_run, run_skip in H. cbn beta iota in H.
  (* the seek back *)
  rewrite bind_run, run_syscall in H.
  cbn [fst snd ncall counted with_trace with_pos with_file st_os st_g trace f_pos f_size
       f_exists nrandom pid children control drawn] in H.
  match type of H with context [EvSys _ (c_lseek _ _ _) (_ + size) ?r] => set (r1 := r) in H end.
  peel_as H u6 s6 E6. apply fatal_if_ret in E6 as [Hb' ->].
  apply negb_false_iff, Z.eqb_eq in Hb'.
  assert (E1' : (r1 <? 0) = false) by (apply Z.ltb_ge; lia).
  rewrite E1' in H. clearbody r1. subst r1.
  cbn [ncall counted with_trace with_pos with_file st_os st_g trace f_pos f_size f_exists
       nrandom pid children control drawn] in H.
  (* the write *)
  rewrite bind_run, run_syscall in H.
  cbn [fst snd ncall counted with_trace with_pos with_file st_os st_g trace f_pos f_size
       f_exists nrandom pid children control drawn] in H.
  match type of H with context [EvSys _ (c_write _ _ _) _ ?rr] => set (r := rr) in H end.
  peel_as H u8 s8 E8. apply fatal_if_ret in E8 as [Hr ->]. apply Z.eqb_neq in Hr.
  assert (Br : 0 <= r <= size).
  { subst r.
    match goal with |- context [transfer ?c ?e0 ?o0] =>
      pose proof (transfer_bounds c e0 o0 ltac:(lia)) as B;
      set (x := transfer c e0 o0) in *; clearbody x end.
    lia. }
  assert (Er : (r <? 0) = false) by (apply Z.ltb_ge; lia).
  rewrite !Er in H. clearbody r.
  cbn [ncall counted with_trace with_pos with_file st_os st_g trace f_pos f_size f_exists
       nrandom pid children control drawn] in H.
  (* the fsync *)
  rewrite bind_run, run_syscall in H.
  cbn [fst snd ncall counted with_trace with_pos with_file st_os st_g trace f_pos f_size
       f_exists nrandom pid children control drawn] in H.
  match type of H with context [EvSys _ (c_fsync _) _ ?rr] => set (r2 := rr) in H end.
  apply fatal_if_ret in H as [Hf ->]. apply Z.eqb_neq in Hf.
  assert (r2 = 0) as E2.
  { subst r2. unfold plain in *. by destruct (e_inject _ _). }
  rewrite E2. clear Hf E2. clearbody r2.
  exists size, r. cbn zeta.
  cbn [ncall counted with_trace with_pos with_file st_os st_g trace f_pos f_size f_exists
       nrandom pid children control drawn].
  rewrite <- !app_assoc. cbn [app]. done.
Qed.

(** * The option scan *)

Lemma usage_run {A} e s :
  ∃ s' evs, @usage A e s = (Stop (Exited 1), s') ∧
    trace (st_os s') = trace (st_os s) ++ evs ∧ usage_shown evs.
Proof.
  unfold usage, fprintf_stderr, c_exit, cleanup, sys_unlink.
  autorewrite with run. cbn [fst snd st_os st_g].
  destruct (nonzero (do_cleanup (st_g s))); autorewrite with run; cbn [fst snd st_os st_g];
    eexists _, _; (split; [reflexivity|]); cbn [trace st_os with_trace counted];
    rewrite <- ?app_assoc; (split; [reflexivity|]); by split.
Qed.

Lemma recognised_flag s :
  recognised s <->
  first_char s = Some "-"%char ∧
  (after_first s = "d" ∨ after_first s = "s" ∨ after_first s = "m" ∨ after_first s = "r").
Proof.
  unfold recognised. split.
  - intros [->|[->|[->| ->]]]; cbn; tauto.
  - intros [Hc Ha]. destruct s as [|c s]; [done|]. cbn in *. simplify_eq.
    destruct Ha as [->|[->|[->| ->]]]; tauto.
Qed.

Lemma flag_s s : first_char s = Some "-"%char -> (after_first s = "s" <-> s = "-s").
Proof.
  intros Hc. destruct s as [|c s]; [done|]. cbn in *. simplify_eq.
  split; [by intros -> | by intros [= ->]].
Qed.

(** The scan from an odd position [next]: it ends in [usage] at the first
    examined word that is no known flag, and else leaves the size of the last
    [-s]. *)
Lemma scan_options_spec fuel argv : ∀ next dir dr e s,
  Z.odd next = true -> 1 <= next -> Z.of_nat (length argv) - next <= Z.of_nat fuel ->
  ((∃ i, next <= i ∧ examined argv i ∧ ¬ recognised (arg argv i)) ->
   ∃ s' evs, scan_options fuel argv next dir dr e s = (Stop (Exited 1), s') ∧
     trace (st_os s') = trace (st_os s) ++ evs ∧ usage_shown evs) ∧
  ((∀ i, next <= i -> examined argv i -> recognised (arg argv i)) ->
   ∃ d r s', scan_options fuel argv next dir dr e s = (Ret (d, r), s') ∧
     st_os s' = st_os s ∧
     file_size (st_g s') = scanned_size fuel argv next (file_size (st_g s))).
Proof.
  induction fuel as [|fuel IH]; intros next dir dr e s Hodd Hge Hfuel.
  { split.
    - intros (i & Hi & [Hex _] & _). lia.
    - intros _. cbn [scan_options scanned_size]. rewrite run_ret. by exists dir, dr, s. }
  cbn [scan_options scanned_size].
  destruct (Z.ltb_spec next (Z.of_nat (length argv) - 1)) as [Hlt|Hnlt].
  2:{ split.
      - intros (i & Hi & [Hex _] & _). lia.
      - intros _. rewrite run_ret. by exists dir, dr, s. }
  assert (Hex : examined argv next) by (split; [lia | done]).
  assert (Hodd2 : Z.odd (next + 1 + 1) = true).
  { replace (next + 1 + 1) with (Z.succ (Z.succ next)) by lia. by rewrite Z.odd_succ_succ. }
  assert (Hnext : ∀ i, next <= i -> Z.odd i = true -> i ≠ next -> next + 1 + 1 <= i).
  { intros i Hi Hio Hne. destruct (Z.eq_dec i (next + 1)) as [->|]; [|lia].
    replace (next + 1) with (Z.succ next) in Hio by lia.
    rewrite Z.odd_succ in Hio. rewrite <- Z.negb_odd in Hio. rewrite Hodd in Hio. done. }
  destruct (decide (recognised (arg argv next))) as [Hrec|Hnrec].
  - (* a flag the scan knows: it steps over the next word *)
    pose proof Hrec as Hrec'. apply recognised_flag in Hrec' as [Hc Ha].
    rewrite decide_True by done.
    set (s1 := if decide (arg argv next = "-s")
               then State (st_os s) (with_file_size (st_g s) (atoll (arg argv (next + 1))))
               else s).
    assert (∃ d r, ((if decide (after_first (arg argv next) = "d")
                then mret (arg argv (next + 1), dr)
                else if decide (after_first (arg argv next) = "s")
                then set_g (λ g, with_file_size g (atoll (arg argv (next + 1))));;
                     mret (dir, dr)
                else if decide (after_first (arg argv next) = "m") then mret (dir, dr)
                else if decide (after_first (arg argv next) = "r") then mret (dir, 1)
                else usage) : M (string * Z)) e s = (Ret (d, r), s1)) as (d & r & Hrun).
    { subst s1. destruct (decide (arg argv next = "-s")) as [Es|Es].
      - rewrite Es. cbn. eauto.
      - assert (after_first (arg argv next) ≠ "s") by (by rewrite flag_s).
        repeat case_decide; try done; rewrite ?run_ret; eauto.
        exfalso. tauto. }
    rewrite bind_run, Hrun. cbn beta iota.
    destruct (IH (next + 1 + 1) d r e s1 Hodd2 ltac:(lia) ltac:(lia)) as [IHa IHb].
    assert (Hos : st_os s1 = st_os s) by (subst s1; by case_decide).
    assert (Hfs : file_size (st_g s1) =
              if decide (arg argv next = "-s") then atoll (arg argv (next + 1))
              else file_size (st_g s)) by (subst s1; by case_decide).
    replace (next + 2) with (next + 1 + 1) by lia.
    split.
    + intros (i & Hi & Hexi & Hnr).
      destruct IHa as (s' & evs & Hr & Ht & Hu).
      { exists i. split; [|done]. apply Hnext; [done | apply Hexi |]. by intros ->. }
      exists s', evs. by rewrite <- Hos.
    + intros Hall. destruct IHb as (d' & r' & s' & Hr & Ho & Hf).
      { intros i Hi. apply Hall. lia. }
      exists d', r', s'. rewrite <- Hfs, <- Hos. done.
  - (* anything else ends in [usage] *)
    split; [|intros Hall; exfalso; apply Hnrec, Hall; [lia | done]].
    intros _.
    destruct (decide (first_char (arg argv next) = Some "-"%char)) as [Hc|Hc].
    + rewrite bind_run.
      assert (Hnot : ¬ (after_first (arg argv next) = "d" ∨ after_first (arg argv next) = "s"
                ∨ after_first (arg argv next) = "m" ∨ after_first (arg argv next) = "r"))
        by (intros Ha; apply Hnrec, recognised_flag; done).
      rewrite !decide_False by tauto.
      destruct (usage_run (A:=string * Z) e s) as (s' & evs & -> & Ht & Hu). eauto.
    + rewrite bind_run.
      destruct (usage_run (A:=unit) e s) as (s' & evs & -> & Ht & Hu). eauto.
Qed.

(** * Runs in which no call fails *)

Lemma plain_calm ok failure e o : calm e -> plain ok failure e o = ok.
Proof. intros H. unfold plain. by rewrite H. Qed.
Lemma transfer_calm count e o : calm e -> transfer count e o = count.
Proof. intros H. unfold transfer. by rewrite H. Qed.

Lemma sys_lseek_calm fd offset whence e s target :
  calm e ->
  target = (if whence =? 0 then offset
            else if whence =? 1 then f_pos (st_os s) + offset
            else f_size (st_os s) + offset) ->
  0 <= target ->
  ∃ s1, sys_lseek fd offset whence e s = (Ret target, s1) ∧
    st_g s1 = st_g s ∧
    trace (st_os s1) = trace (st_os s)
      ++ [EvSys (ncall (st_os s)) (c_lseek fd offset whence) (f_pos (st_os s)) target] ∧
    f_pos (st_os s1) = target ∧ f_size (st_os s1) = f_size (st_os s).
Proof.
  intros Hc Et Ht. unfold sys_lseek. rewrite run_syscall. cbn [fst snd].
  rewrite <- Et. rewrite plain_calm by done.
  assert (E : (target <? 0) = false) by (apply Z.ltb_ge; lia).
  rewrite !E. eexists. split; [reflexivity|]. by cbn.
Qed.

Lemma sys_write_calm fd buf count e s :
  calm e -> 0 <= count ->
  ∃ s1, sys_write fd buf count e s = (Ret count, s1) ∧
    st_g s1 = st_g s ∧
    trace (st_os s1) = trace (st_os s)
      ++ [EvSys (ncall (st_os s)) (c_write fd buf count) (f_pos (st_os s)) count] ∧
    f_pos (st_os s1) = f_pos (st_os s) + count ∧
    f_size (st_os s1) = Z.max (f_size (st_os s)) (f_pos (st_os s) + count).
Proof.
  intros Hc Ht. unfold sys_write. rewrite run_syscall. cbn [fst snd].
  rewrite transfer_calm by done.
  assert (E : (count <? 0) = false) by (apply Z.ltb_ge; lia).
  rewrite !E. eexists. split; [reflexivity|]. by cbn.
Qed.

Lemma sys_read_calm fd buf count e s :
  calm e ->
  let n := Z.max 0 (Z.min count (f_size (st_os s) - f_pos (st_os s))) in
  ∃ buf' s1, sys_read fd buf count e s = (Ret (n, buf'), s1) ∧
    st_g s1 = st_g s ∧
    trace (st_os s1) = trace (st_os s)
      ++ [EvSys (ncall (st_os s)) (c_read fd count) (f_pos (st_os s)) n] ∧
    f_pos (st_os s1) = f_pos (st_os s) + n ∧ f_size (st_os s1) = f_size (st_os s).
Proof.
  intros Hc n. unfold sys_read. autorewrite with run. cbn [fst snd st_os st_g].
  fold n. rewrite transfer_calm by done.
  assert (E : (n <? 0) = false) by (apply Z.ltb_ge; lia). clearbody n.
  rewrite !E. eexists _, _. split; [reflexivity|]. by cbn.
Qed.

Lemma randomize_from_same n : ∀ i buf e s,
  ∃ buf' s1, randomize_from n i buf e s = (Ret buf', s1) ∧ same_file s s1.
Proof.
  induction n as [|n IH]; intros i buf e s; cbn [randomize_from].
  - rewrite run_ret. by eexists _, _.
  - rewrite bind_run, run_random. cbn beta iota.
    destruct (IH (i + 1) (<[Z.to_nat i:=e_random e (nrandom (st_os s))]> buf) e
                (State (drawn (st_os s)) (st_g s))) as (buf' & s1 & -> & Hg & Ht & Hp & Hs).
    by eexists _, _.
Qed.

Lemma maybe_randomize_same do_random buf e s :
  ∃ buf' s1, maybe_randomize do_random buf e s = (Ret buf', s1) ∧ same_file s s1.
Proof.
  unfold maybe_randomize. destruct (nonzero do_random).
  - apply randomize_from_same.
  - rewrite run_ret. by eexists _, _.
Qed.

Lemma fatal_if_false message e s : fatal_if false message e s = (Ret tt, s).
Proof. reflexivity. Qed.

(** One turn of the loop of the rewrite, entered with the block at [p]
    read: the four calls it makes and the state in which the next turn
    starts. *)
Lemma rewrite_turn_calm fuel fd do_random bufindex buf e s p :
  calm e -> 0 <= p -> f_pos (st_os s) = p + Chunk ->
  let n := Z.max 0 (Z.min Chunk (f_size (st_os s) - (p + 2 * Chunk))) in
  ∃ k1 k2 k3 k4 b bufindex' buf' s',
    rewrite_loop (S fuel) fd do_random Chunk bufindex buf e s
      = rewrite_loop fuel fd do_random n bufindex' buf' e s' ∧
    trace (st_os s') = trace (st_os s)
      ++ [EvSys k1 (c_lseek fd (- Chunk) 1) (p + Chunk) p;
          EvSys k2 (c_write fd b Chunk) p Chunk;
          EvSys k3 (c_write fd b Chunk) (p + Chunk) Chunk;
          EvSys k4 (c_read fd Chunk) (p + 2 * Chunk) n] ∧
    f_pos (st_os s') = p + 2 * Chunk + n ∧
    f_size (st_os s') = Z.max (f_size (st_os s)) (p + 2 * Chunk).
Proof.
  intros Hc Hp Hpos n. cbn [rewrite_loop]. change (Chunk =? Chunk) with true. cbn beta iota.
  destruct (dirty bufindex buf) as [bufindex' buf1].
  destruct (sys_lseek_calm fd (- Chunk) 1 e s p Hc) as (s1 & R1 & Hg1 & Ht1 & Hp1 & Hs1);
    [cbn; lia | lia |].
  rewrite bind_run, R1. cbn beta iota.
  destruct (Z.eqb_spec p (-1)); [lia|]. rewrite bind_run, fatal_if_false. cbn beta iota.
  destruct (maybe_randomize_same do_random buf1 e s1) as (buf2 & s2 & R2 & Hg2 & Ht2 & Hp2 & Hs2).
  rewrite bind_run, R2. cbn beta iota.
  destruct (sys_write_calm fd buf2 Chunk e s2 Hc ltac:(done)) as (s3 & R3 & Hg3 & Ht3 & Hp3 & Hs3).
  rewrite bind_run, R3. cbn beta iota. rewrite bind_run, fatal_if_false. cbn beta iota.
  destruct (sys_write_calm fd buf2 Chunk e s3 Hc ltac:(done)) as (s4 & R4 & Hg4 & Ht4 & Hp4 & Hs4).
  rewrite bind_run, R4. cbn beta iota. rewrite bind_run, fatal_if_false. cbn beta iota.
  destruct (sys_read_calm fd buf2 Chunk e s4 Hc) as (buf3 & s5 & R5 & Hg5 & Ht5 & Hp5 & Hs5).
  cbn zeta in R5. rewrite bind_run, R5. cbn beta iota.
  assert (Hz : f_size (st_os s4) = Z.max (f_size (st_os s)) (p + 2 * Chunk)).
  { rewrite Hs4, Hs3, Hs2, Hs1, Hp3, Hp2, Hp1. unfold Chunk. lia. }
  assert (Hq : f_pos (st_os s4) = p + 2 * Chunk).
  { rewrite Hp4, Hp3, Hp2, Hp1. lia. }
  assert (Hn : Z.max 0 (Z.min Chunk (f_size (st_os s4) - f_pos (st_os s4))) = n).
  { rewrite Hz, Hq. subst n. unfold Chunk. lia. }
  rewrite Hn in *.
  destruct (Z.eqb_spec n (-1)); [subst n; lia|]. rewrite bind_run, fatal_if_false. cbn beta iota.
  eexists _, _, _, _, buf2, bufindex', buf3, s5. split; [reflexivity|].
  split; [|split; [rewrite Hp5, Hq; done | rewrite Hs5, Hz; done]].
  rewrite Ht5, Ht4, Ht3, Ht2, Ht1, <- !app_assoc. cbn [app].
  rewrite Hq, Hp3, Hp2, Hp1, Hpos. done.
Qed.

(** The loop of the rewrite only adds to the trace and never shrinks the
    file. *)
Lemma rewrite_loop_grows fuel : ∀ fd do_random words bufindex buf e s,
  calm e -> (words = Chunk -> Chunk <= f_pos (st_os s)) ->
  ∃ evs, trace (st_os (rewrite_loop fuel fd do_random words bufindex buf e s).2)
           = trace (st_os s) ++ evs ∧
    f_size (st_os s) <= f_size (st_os (rewrite_loop fuel fd do_random words bufindex buf e s).2).
Proof.
  induction fuel as [|fuel IH]; intros fd do_random words bufindex buf e s Hc Hpos.
  { exists []. cbn [rewrite_loop]. rewrite run_halt, app_nil_r. done. }
  destruct (Z.eqb_spec words Chunk) as [->|Hw].
  2:{ exists []. cbn [rewrite_loop]. destruct (Z.eqb_spec words Chunk); [done|].
      rewrite run_ret, app_nil_r. done. }
  destruct (rewrite_turn_calm fuel fd do_random bufindex buf e s (f_pos (st_os s) - Chunk) Hc)
    as (k1 & k2 & k3 & k4 & b & bi' & buf' & s' & -> & Ht & Hp & Hz);
    [specialize (Hpos eq_refl); lia | lia |].
  destruct (IH fd do_random
              (Z.max 0 (Z.min Chunk (f_size (st_os s) - (f_pos (st_os s) - Chunk + 2 * Chunk))))
              bi' buf' e s' Hc) as (evs & Htr & Hsz).
  { intros _. rewrite Hp. specialize (Hpos eq_refl). unfold Chunk in *. lia. }
  eexists. split; [rewrite Htr, Ht, <- app_assoc; reflexivity|]. lia.
Qed.

(** ** The coordinator *)

Lemma sys_plain_calm c ok failure e s :
  calm e -> ∃ s1, sys_plain c ok failure e s = (Ret ok, s1) ∧ same_children s s1.
Proof.
  intros Hc. unfold sys_plain. rewrite run_syscall. cbn [fst snd].
  rewrite plain_calm by done. by eexists.
Qed.

Lemma log_same ev e s : ∃ s1, log ev e s = (Ret tt, s1) ∧ same_children s s1.
Proof. rewrite run_log. by eexists. Qed.

Lemma sys_write_tickets_calm tickets count e s :
  calm e -> ∃ s1, sys_write_tickets tickets count e s = (Ret count, s1) ∧ same_children s s1.
Proof.
  intros Hc. unfold sys_write_tickets. rewrite run_syscall. cbn [fst snd].
  rewrite transfer_calm by done. by eexists.
Qed.

Lemma sys_read_report_calm old count e s :
  calm e ->
  ∃ s1, sys_read_report old count e s = (Ret (count, e_report e (ncall (st_os s))), s1)
        ∧ same_children s s1.
Proof.
  intros Hc. unfold sys_read_report. autorewrite with run. cbn [fst snd st_os st_g].
  rewrite transfer_calm by done. rewrite Z.eqb_refl. by eexists.
Qed.

Lemma sys_fork_calm e s :
  calm e -> 0 <= pid (st_os s) ->
  ∃ v s1, sys_fork e s = (Ret v, s1) ∧ 0 < v ∧
    pid (st_os s1) = pid (st_os s) ∧ children (st_os s1) = v :: children (st_os s).
Proof.
  intros Hc Hp. unfold sys_fork. rewrite run_syscall, Hc. cbn [fst snd].
  eexists _, _. split; [reflexivity|]. cbn. unfold fresh_pid. repeat split. lia.
Qed.

Lemma sys_wait_calm e s :
  calm e -> children (st_os s) ≠ [] -> Forall (λ c, c ≠ -1) (children (st_os s)) ->
  ∃ v s1, sys_wait e s = (Ret v, s1) ∧ v ≠ -1 ∧
    pid (st_os s1) = pid (st_os s) ∧
    S (length (children (st_os s1))) = length (children (st_os s)) ∧
    Forall (λ c, c ≠ -1) (children (st_os s1)).
Proof.
  intros Hc Hne Hall. unfold sys_wait. rewrite run_syscall, Hc.
  destruct (children (st_os s)) as [|c0 cs] eqn:Ec; [done|].
  remember (e_pick e (ncall (st_os s)) mod length (c0 :: cs))%nat as i eqn:Ei.
  assert (Hi : (i < length (c0 :: cs))%nat) by (subst i; apply Nat.mod_upper_bound; done).
  destruct (lookup_lt_is_Some_2 _ _ Hi) as [x Hx]. rewrite Hx.
  cbn [fst snd]. eexists _, _. split; [reflexivity|]. cbn [st_os default].
  assert (x ≠ -1) by (rewrite Forall_forall in Hall; apply Hall; by eapply list_elem_of_lookup_2).
  repeat split; [done| |].
  - cbn [children counted with_trace with_children]. rewrite length_delete by eauto.
    cbn [length] in *. lia.
  - cbn [children counted with_trace with_children].
    by apply Forall_delete.
Qed.

Lemma spawn_calm n : ∀ next child e s,
  calm e -> 0 <= pid (st_os s) -> Forall (λ c, c ≠ -1) (children (st_os s)) ->
  ∃ s', spawn n next child e s = (Ret tt, s') ∧
    pid (st_os s') = pid (st_os s) ∧
    length (children (st_os s')) = (n + length (children (st_os s)))%nat ∧
    Forall (λ c, c ≠ -1) (children (st_os s')).
Proof.
  induction n as [|n IH]; intros next child e s Hc Hp Hall; cbn [spawn].
  - rewrite run_skip. by exists s.
  - destruct (sys_fork_calm e s Hc Hp) as (v & s1 & R & Hv & Hp1 & Hc1).
    rewrite bind_run, R. cbn beta iota.
    destruct (Z.eqb_spec v (-1)); [lia|]. destruct (Z.eqb_spec v 0); [lia|].
    rewrite bind_run, run_skip. cbn beta iota.
    destruct (IH (next + 1) child e s1 Hc ltac:(lia)) as (s' & R' & Hp' & Hl' & Hall').
    { rewrite Hc1. constructor; [lia | done]. }
    exists s'. rewrite R', Hp', Hl', Hp1, Hc1. cbn [length]. repeat split; [lia | done].
Qed.

Lemma collect_calm n : ∀ next wh rep fl e s,
  calm e -> (n <= length (children (st_os s)))%nat ->
  Forall (λ c, c ≠ -1) (children (st_os s)) ->
  ∃ fl' s', collect n next wh rep fl e s = (Ret fl', s').
Proof.
  induction n as [|n IH]; intros next wh rep fl e s Hc Hn Hall; cbn [collect].
  - rewrite run_ret. eauto.
  - destruct (sys_read_report_calm rep sizeof_seeker_report e s Hc) as (s1 & R1 & Hp1 & Hc1).
    rewrite bind_run, R1. cbn beta iota. rewrite Z.eqb_refl. cbn [negb].
    rewrite bind_run, fatal_if_false. cbn beta iota.
    rewrite bind_run, run_get_g. cbn beta iota. rewrite bind_run, run_set_g. cbn beta iota.
    rewrite bind_run.
    match goal with |- context [sys_wait e ?s2] =>
      destruct (sys_wait_calm e s2 Hc) as (v & s3 & R3 & Hv & Hp3 & Hl3 & Hall3) end.
    { cbn [st_os]. rewrite Hc1. destruct (children (st_os s)); [cbn in Hn; lia | done]. }
    { cbn [st_os]. by rewrite Hc1. }
    rewrite R3. cbn beta iota.
    destruct (Z.eqb_spec v (-1)); [done|]. rewrite bind_run, fatal_if_false. cbn beta iota.
    unfold fprintf_stderr.
    destruct (log_same (EvStderr "done..." []) e s3) as (s4 & R4 & Hp4 & Hc4).
    rewrite bind_run, R4. cbn beta iota.
    apply IH; [done | | by rewrite Hc4].
    rewrite Hc4. cbn [st_os] in Hl3. rewrite Hc1 in Hl3. lia.
Qed.

(** When no call fails the seek phase returns. *)
Lemma do_seekstuff_calm fuel do_write whereto e s :
  calm e -> 0 <= pid (st_os s) -> Forall (λ c, c ≠ -1) (children (st_os s)) ->
  ∃ s', do_seekstuff fuel do_write whereto e s = (Ret tt, s').
Proof.
  intros Hc Hp Hall. unfold do_seekstuff, uninit, sys_system, sys_pipe, sys_close_pipe,
    sys_sleep, fprintf_stderr.
  rewrite bind_run, run_ask. cbn beta iota.
  destruct (sys_plain_calm (c_system "dropthedamncaches") 0 (-1) e s Hc) as (s0 & R0 & Hp0 & Hc0).
  rewrite bind_run, R0. cbn beta iota.
  destruct (sys_plain_calm c_pipe 0 (-1) e s0 Hc) as (s1 & R1 & Hp1 & Hc1).
  rewrite bind_run, R1. cbn beta iota. cbn [Z.eqb].
  destruct (sys_plain_calm c_pipe 0 (-1) e s1 Hc) as (s2 & R2 & Hp2 & Hc2).
  rewrite bind_run, R2. cbn beta iota. cbn [Z.eqb orb].
  rewrite bind_run, fatal_if_false. cbn beta iota. rewrite bind_run.
  match goal with |- context [spawn ?n ?i ?ch e s2] =>
    destruct (spawn_calm n i ch e s2 Hc) as (s3 & R3 & Hp3 & Hl3 & Hall3) end.
  { lia. } { by rewrite Hc2, Hc1, Hc0. }
  rewrite R3. cbn beta iota.
  destruct (sys_plain_calm (c_close_pipe seek_feedback_1) 0 (-1) e s3 Hc) as (s4 & R4 & Hp4 & Hc4).
  rewrite bind_run, R4. cbn beta iota.
  destruct (sys_plain_calm (c_close_pipe seek_control_0) 0 (-1) e s4 Hc) as (s5 & R5 & Hp5 & Hc5).
  rewrite bind_run, R5. cbn beta iota.
  destruct (sys_plain_calm (c_sleep 1) 0 0 e s5 Hc) as (s6 & R6 & Hp6 & Hc6).
  rewrite bind_run, R6. cbn beta iota.
  destruct (log_same (EvStderr "start 'em..." []) e s6) as (s7 & R7 & Hp7 & Hc7).
  rewrite bind_run, R7. cbn beta iota. rewrite bind_run.
  match goal with |- context [sys_write_tickets ?t ?c e s7] =>
    destruct (sys_write_tickets_calm t c e s7 Hc) as (s8 & R8 & Hp8 & Hc8) end.
  rewrite R8. cbn beta iota. rewrite Z.eqb_refl. cbn [negb].
  rewrite bind_run, fatal_if_false. cbn beta iota. rewrite bind_run.
  match goal with |- context [collect ?n ?i ?w ?r ?f e s8] =>
    destruct (collect_calm n i w r f e s8 Hc) as ([first last] & s9 & R9) end.
  { rewrite Hc8, Hc7, Hc6, Hc5, Hc4, Hl3. lia. }
  { by rewrite Hc8, Hc7, Hc6, Hc5, Hc4. }
  rewrite R9. cbn beta iota.
  rewrite bind_run, run_log. cbn beta iota. rewrite run_set_g. eauto.
Qed.

(** ** The seeker *)

Lemma doseek_calls_app tr1 tr2 : doseek_calls (tr1 ++ tr2) = doseek_calls tr1 ++ doseek_calls tr2.
Proof. apply omap_app. Qed.

Lemma doseek_calls_entry w u t evs :
  doseek_calls (EvDoseek w u t :: evs) = (w, u, t) :: doseek_calls evs.
Proof. reflexivity. Qed.

Lemma undisturbed_trans s s1 s2 : undisturbed s s1 -> undisturbed s1 s2 -> undisturbed s s2.
Proof. unfold undisturbed. intros (?&?&?&?&?&?) (?&?&?&?&?&?). repeat split; congruence. Qed.

Lemma healthy_undisturbed s s1 : healthy s -> undisturbed s s1 -> healthy s1.
Proof.
  unfold healthy, undisturbed. intros (?&?&?&?) (E1&E2&?&?&E3&?). rewrite E1, E2, E3. done.
Qed.

Ltac undisturbed_tac :=
  unfold undisturbed; cbn [st_os st_g f_exists f_size control trace counted with_trace
    with_file with_pos file_size do_cleanup with_timestamp with_cpustamp with_delta];
  rewrite ?doseek_calls_app; cbn [doseek_calls omap]; rewrite ?app_nil_r; repeat split; done.

Lemma sys_plain_undisturbed c ok failure e s :
  calm e -> ∃ s1, sys_plain c ok failure e s = (Ret ok, s1) ∧ undisturbed s s1.
Proof.
  intros Hc. unfold sys_plain. rewrite run_syscall. cbn [fst snd].
  rewrite plain_calm by done. eexists. split; [reflexivity|]. undisturbed_tac.
Qed.

Lemma log_undisturbed ev e s :
  (∀ w u t, ev ≠ EvDoseek w u t) ->
  ∃ s1, log ev e s = (Ret tt, s1) ∧ undisturbed s s1.
Proof.
  intros Hev. rewrite run_log. eexists. split; [reflexivity|].
  destruct ev; try undisturbed_tac. by edestruct Hev.
Qed.

Lemma set_g_undisturbed f e s :
  (∀ g, file_size (f g) = file_size g ∧ do_cleanup (f g) = do_cleanup g) ->
  ∃ s1, set_g f e s = (Ret tt, s1) ∧ undisturbed s s1.
Proof.
  intros Hf. rewrite run_set_g. eexists. split; [reflexivity|].
  destruct (Hf (st_g s)). unfold undisturbed. cbn. done.
Qed.

Lemma time_so_far_calm e s :
  calm e -> ∃ t s1, time_so_far e s = (Ret t, s1) ∧ undisturbed s s1.
Proof.
  intros Hc. unfold time_so_far, sys_gettimeofday.
  rewrite !bind_run, run_get_os. cbn beta iota.
  destruct (sys_plain_undisturbed c_gettimeofday 0 (-1) e s Hc) as (s1 & R & U).
  rewrite bind_run, R. cbn beta iota. rewrite bind_run, run_ask. cbn beta iota.
  rewrite run_ret. destruct (e_tod e (ncall (st_os s))) as [sec usec].
  cbn beta iota. cbn [Z.eqb]. rewrite bind_run, fatal_if_false. cbn beta iota.
  rewrite bind_run, run_get_g. cbn beta iota. rewrite run_ret. eauto.
Qed.

Lemma cpu_so_far_calm e s :
  calm e -> ∃ t s1, cpu_so_far e s = (Ret t, s1) ∧ undisturbed s s1.
Proof.
  intros Hc. unfold cpu_so_far, sys_getrusage.
  rewrite !bind_run, run_get_os. cbn beta iota.
  destruct (sys_plain_undisturbed c_getrusage 0 (-1) e s Hc) as (s1 & R & U).
  rewrite bind_run, R. cbn beta iota. rewrite run_ask.
  destruct (e_rusage e (ncall (st_os s))) as [[a b] [c d]]. cbn beta iota.
  rewrite run_ret. eauto.
Qed.

Lemma timestamp_calm e s :
  calm e -> ∃ s1, timestamp e s = (Ret tt, s1) ∧ undisturbed s s1.
Proof.
  intros Hc. unfold timestamp.
  destruct (time_so_far_calm e s Hc) as (t & s1 & R1 & U1).
  rewrite bind_run, R1. cbn beta iota.
  destruct (set_g_undisturbed (λ g, with_timestamp g t) e s1) as (s2 & R2 & U2); [done|].
  rewrite bind_run, R2. cbn beta iota.
  destruct (cpu_so_far_calm e s2 Hc) as (c & s3 & R3 & U3).
  rewrite bind_run, R3. cbn beta iota.
  destruct (set_g_undisturbed (λ g, with_cpustamp g c) e s3) as (s4 & R4 & U4); [done|].
  rewrite R4. eauto using undisturbed_trans.
Qed.

Lemma get_delta_t_calm test e s :
  calm e -> ∃ s1, get_delta_t test e s = (Ret tt, s1) ∧ undisturbed s s1.
Proof.
  intros Hc. unfold get_delta_t.
  destruct (time_so_far_calm e s Hc) as (t & s1 & R1 & U1).
  rewrite bind_run, R1. cbn beta iota. rewrite bind_run.
  match goal with |- context [set_g ?f e s1] =>
    destruct (set_g_undisturbed f e s1) as (s2 & R2 & U2); [done|] end.
  rewrite R2. cbn beta iota.
  destruct (cpu_so_far_calm e s2 Hc) as (c & s3 & R3 & U3).
  rewrite bind_run, R3. cbn beta iota.
  match goal with |- context [set_g ?f e s3] =>
    destruct (set_g_undisturbed f e s3) as (s4 & R4 & U4); [done|] end.
  rewrite R4. eauto using undisturbed_trans.
Qed.

Lemma newfile_calm fd e s :
  calm e -> f_exists (st_os s) = true ->
  ∃ s1, newfile fd false e s = (Ret 3, s1) ∧ undisturbed s s1.
Proof.
  intros Hc Hex. unfold newfile, sys_open, sys_fdopen.
  rewrite bind_run, run_syscall. cbn [fst snd]. rewrite Hex, plain_calm by done.
  cbn beta iota. cbn [Z.eqb]. rewrite bind_run, run_get_g. cbn beta iota.
  rewrite bind_run, fatal_if_false. cbn beta iota. rewrite bind_run.
  match goal with |- context [sys_plain ?c ?a ?b e ?s0] =>
    destruct (sys_plain_undisturbed c a b e s0 Hc) as (s1 & R & U) end.
  rewrite R. cbn beta iota. cbn [Z.eqb].
  rewrite bind_run, fatal_if_false. cbn beta iota. rewrite run_ret.
  eexists. split; [reflexivity|]. eapply undisturbed_trans; [|exact U].
  unfold undisturbed. cbn. rewrite doseek_calls_app. cbn. rewrite app_nil_r. by rewrite Hex.
Qed.

Lemma sys_read_ticket_calm old b rest e s :
  calm e -> control (st_os s) = b :: rest ->
  ∃ s1, sys_read_ticket old e s = (Ret (1, b), s1) ∧
    control (st_os s1) = rest ∧
    f_exists (st_os s1) = f_exists (st_os s) ∧ f_size (st_os s1) = f_size (st_os s) ∧
    doseek_calls (trace (st_os s1)) = doseek_calls (trace (st_os s)) ∧
    st_g s1 = st_g s.
Proof.
  intros Hc Hb. unfold sys_read_ticket.
  rewrite bind_run, run_get_os. cbn beta iota.
  rewrite bind_run, run_syscall. cbn beta. rewrite !Hb, !transfer_calm by done.
  cbn [fst snd]. cbn beta iota. cbn [Z.eqb Pos.eqb]. rewrite run_ret. cbn [head default].
  eexists. split; [reflexivity|].
  cbn. rewrite ?Hb, doseek_calls_app. cbn. by rewrite app_nil_r.
Qed.

Lemma touch_divisor_chunk : (touch_divisor Chunk =? 0) = false.
Proof. reflexivity. Qed.

Lemma doseek_calm w fd u t e s :
  calm e -> 0 <= probe_of w -> probe_of w + Chunk <= f_size (st_os s) ->
  ∃ s1 evs, doseek w fd u t e s = (Ret tt, s1) ∧
    st_g s1 = st_g s ∧ f_exists (st_os s1) = f_exists (st_os s) ∧
    f_size (st_os s1) = f_size (st_os s) ∧ control (st_os s1) = control (st_os s) ∧
    trace (st_os s1) = trace (st_os s) ++ EvDoseek w u t :: evs ∧
    doseek_calls evs = [].
Proof.
  intros Hc Hp Hs. unfold doseek, uninit, sys_lseek, sys_read, sys_write, sys_fsync, sys_plain.
  assert (Hlt : (probe_of w <? 0) = false) by (apply Z.ltb_ge; lia).
  rewrite bind_run, run_log. cbn beta iota.
  rewrite bind_run, run_ask. cbn beta iota zeta.
  rewrite bind_run, run_syscall. cbn [fst snd Z.eqb]. rewrite plain_calm by done.
  rewrite !Hlt. cbn beta iota. rewrite Z.eqb_refl. cbn [negb].
  rewrite bind_run, fatal_if_false. cbn beta iota.
  rewrite !bind_run, run_get_os. cbn beta iota.
  rewrite bind_run, run_syscall. cbn [fst snd st_os]. rewrite transfer_calm by done.
  cbn [f_size f_pos counted with_trace with_pos with_file].
  replace (Z.max 0 (Z.min Chunk (f_size (st_os s) - probe_of w))) with Chunk by (unfold Chunk in *; lia).
  cbn beta iota. change (Chunk <? 0) with false. cbn beta iota.
  rewrite bind_run, run_ask. cbn beta iota. rewrite run_ret. cbn beta iota.
  change (Chunk =? -1) with false. rewrite bind_run, fatal_if_false. cbn beta iota.
  destruct (nonzero u && nonzero t).
  - rewrite bind_run, run_random. cbn beta iota.
    rewrite touch_divisor_chunk. rewrite bind_run, run_skip. cbn beta iota.
    rewrite bind_run, run_syscall. cbn [fst snd Z.eqb]. rewrite plain_calm by done.
    rewrite !Hlt. cbn beta iota. rewrite Z.eqb_refl. cbn [negb].
    rewrite bind_run, fatal_if_false. cbn beta iota.
    rewrite bind_run, run_syscall. cbn [fst snd]. rewrite transfer_calm by done.
    change (Chunk <? 0) with false. cbn beta iota.
    change (Chunk =? -1) with false. rewrite bind_run, fatal_if_false. cbn beta iota.
    rewrite bind_run, run_syscall. cbn [fst snd]. rewrite plain_calm by done.
    cbn [Z.eqb]. rewrite fatal_if_false.
    eexists _, _. split; [reflexivity|].
    cbn [st_os st_g f_exists f_size f_pos control trace counted with_trace with_pos with_file drawn].
    repeat split; [unfold Chunk in *; lia | rewrite <- !app_assoc; reflexivity | reflexivity].
  - rewrite run_skip.
    eexists _, _. split; [reflexivity|].
    cbn [st_os st_g f_exists f_size f_pos control trace counted with_trace with_pos with_file drawn].
    repeat split; [rewrite <- !app_assoc; reflexivity | reflexivity].
Qed.

Lemma seek_loop_calm fd do_write e (Hc : calm e) (Hr : fair_dice e) :
  ∀ bs fuel ticket c s rest,
  healthy s -> control (st_os s) = bs ++ 0 :: rest -> Forall (λ b, b ≠ 0) bs ->
  ticket ≠ 0 -> (length bs + 2 <= fuel)%nat ->
  ∃ c' s', seek_loop fuel fd do_write ticket c e s = (Ret c', s') ∧
    healthy s' ∧ st_g s' = st_g s ∧ control (st_os s') = rest ∧
    length (doseek_calls (trace (st_os s'))) =
      (length (doseek_calls (trace (st_os s))) + S (length bs))%nat.
Proof.
  induction bs as [|b bs IH]; intros fuel ticket c s rest Hh Hctl Hbs Ht Hfuel;
    (destruct fuel as [|fuel]; [cbn in Hfuel; lia|]); cbn [seek_loop];
    (destruct (nonzero ticket) eqn:En; [|unfold nonzero in En; apply negb_false_iff, Z.eqb_eq in En; done]);
    rewrite bind_run, run_random; cbn beta iota;
    rewrite bind_run, run_get_g; cbn beta iota; cbn [st_g];
    destruct Hh as (Hex & Hsz & Hfs & Hdiv);
    pose proof (seek_where_range (e_random e (nrandom (st_os s))) (file_size (st_g s)) (Hr _) Hfs) as Hw;
    destruct (probe_of_range _ _ Hw ltac:(lia) Hdiv) as (Hp & _ & _);
    rewrite bind_run;
    match goal with |- context [doseek ?w fd ?u ?t e ?s0] =>
      destruct (doseek_calm w fd u t e s0 Hc ltac:(lia) ltac:(cbn; lia))
        as (s1 & evs & R1 & Hg1 & Hex1 & Hsz1 & Hctl1 & Htr1 & Hds1) end;
    rewrite R1; cbn beta iota; cbn [st_os st_g control drawn f_exists f_size trace] in *;
    rewrite Hctl in Hctl1.
  - destruct (sys_read_ticket_calm ticket 0 rest e s1 Hc Hctl1)
      as (s2 & R2 & Hctl2 & Hex2 & Hsz2 & Hd2 & Hg2).
    rewrite bind_run, R2. cbn beta iota. cbn [Z.eqb Pos.eqb negb].
    rewrite bind_run, fatal_if_false. cbn beta iota.
    destruct fuel as [|fuel]; [cbn in Hfuel; lia|]. cbn [seek_loop nonzero Z.eqb negb].
    rewrite run_ret. eexists _, _. split; [reflexivity|].
    split; [unfold healthy; rewrite Hex2, Hex1, Hsz2, Hsz1, Hg2, Hg1; done|].
    split; [congruence|]. split; [done|].
    rewrite Hd2, Htr1, doseek_calls_app, doseek_calls_entry, Hds1, length_app. cbn. done.
  - destruct (sys_read_ticket_calm ticket b (bs ++ 0 :: rest) e s1 Hc Hctl1)
      as (s2 & R2 & Hctl2 & Hex2 & Hsz2 & Hd2 & Hg2).
    rewrite bind_run, R2. cbn beta iota. cbn [Z.eqb Pos.eqb negb].
    rewrite bind_run, fatal_if_false. cbn beta iota.
    inversion Hbs as [|? ? Hb Hbs']; subst.
    destruct (IH fuel b (int32 (c + 1)) s2 rest) as (c' & s' & R & Hh' & Hg' & Hctl' & Hd'); try done.
    { unfold healthy; rewrite Hex2, Hex1, Hsz2, Hsz1, Hg2, Hg1; done. }
    { cbn in Hfuel. lia. }
    exists c', s'. split; [done|]. split; [done|]. split; [congruence|]. split; [done|].
    rewrite Hd', Hd2, Htr1, doseek_calls_app, doseek_calls_entry, Hds1, !length_app. cbn. lia.
Qed.

Lemma sys_write_report_calm r count e s :
  calm e -> ∃ s1, sys_write_report r count e s = (Ret count, s1) ∧ undisturbed s s1.
Proof.
  intros Hc. unfold sys_write_report. rewrite run_syscall. cbn [fst snd].
  rewrite transfer_calm by done. eexists. split; [reflexivity|]. undisturbed_tac.
Qed.

Lemma sys_getpid_calm e s : ∃ p s1, sys_getpid e s = (Ret p, s1) ∧ undisturbed s s1.
Proof.
  unfold sys_getpid. rewrite run_syscall. cbn [fst snd].
  eexists _, _. split; [reflexivity|]. undisturbed_tac.
Qed.

Lemma c_exit_calm {A} status e s :
  do_cleanup (st_g s) = 0 ->
  ∃ s1, @c_exit A status e s = (Stop (Exited status), s1) ∧ undisturbed s s1.
Proof.
  intros Hd. unfold c_exit, cleanup. rewrite !bind_run, run_get_g. cbn beta iota.
  rewrite Hd. cbn [nonzero Z.eqb negb]. rewrite run_skip. cbn beta iota.
  rewrite ?bind_run, run_log. cbn beta iota. rewrite run_halt.
  eexists. split; [reflexivity|]. undisturbed_tac.
Qed.

(** The seeker from its last ticket on, lines 255-267. *)
Lemma seeker_tail_calm (whereto : tests_t) (start : Q) (rep : seeker_report) fd e s :
  calm e -> do_cleanup (st_g s) = 0 ->
  ∃ s', (r ← sys_fsync fd;
         (if r =? -1 then perror "fsync after seek" else skip);;
         r ← sys_close fd;
         fatal_if (r =? -1) "close after seek";;
         get_delta_t whereto;;
         stop_ ← time_so_far;
         let seeker_report := Report (at_CPU rep) start stop_ in
         cpu ← get_g (λ g, delta g whereto CPU);
         let seeker_report := Report cpu (at_StartTime seeker_report) (at_EndTime seeker_report) in
         r ← sys_write_report seeker_report sizeof_seeker_report;
         fatal_if (negb (r =? sizeof_seeker_report)) "pipe write";;
         (c_exit 0 : M unit)) e s = (Stop (Exited 0), s') ∧ undisturbed s s'.
Proof.
  intros Hc Hd. unfold sys_fsync, sys_close.
  destruct (sys_plain_undisturbed (c_fsync fd) 0 (-1) e s Hc) as (s1 & R1 & U1).
  rewrite bind_run, R1. cbn beta iota. cbn [Z.eqb]. rewrite bind_run, run_skip. cbn beta iota.
  destruct (sys_plain_undisturbed (c_close fd) 0 (-1) e s1 Hc) as (s2 & R2 & U2).
  rewrite bind_run, R2. cbn beta iota. cbn [Z.eqb]. rewrite bind_run, fatal_if_false. cbn beta iota.
  destruct (get_delta_t_calm whereto e s2 Hc) as (s3 & R3 & U3).
  rewrite bind_run, R3. cbn beta iota.
  destruct (time_so_far_calm e s3 Hc) as (t4 & s4 & R4 & U4).
  rewrite bind_run, R4. cbn beta iota zeta.
  rewrite bind_run, run_get_g. cbn beta iota. rewrite bind_run.
  match goal with |- context [sys_write_report ?r ?n e s4] =>
    destruct (sys_write_report_calm r n e s4 Hc) as (s5 & R5 & U5) end.
  rewrite R5. cbn beta iota. rewrite Z.eqb_refl. cbn [negb].
  rewrite bind_run, fatal_if_false. cbn beta iota.
  destruct (c_exit_calm (A:=unit) 0 e s5) as (s6 & R6 & U6).
  { destruct U5 as (_&_&_&_&_&->), U4 as (_&_&_&_&_&->), U3 as (_&_&_&_&_&->),
      U2 as (_&_&_&_&_&->), U1 as (_&_&_&_&_&->). done. }
  rewrite R6. eauto 10 using undisturbed_trans.
Qed.

(** A seeker that meets no failure probes once for each non-zero byte, takes
    the zero after them, and exits with status 0. *)
Lemma seeker_calm fuel do_write whereto next tickets rep e s bs rest :
  calm e -> fair_dice e -> healthy s ->
  control (st_os s) = bs ++ 0 :: rest -> Forall (λ b, b ≠ 0) bs ->
  (length bs + 2 <= fuel)%nat ->
  ∃ s', seeker fuel do_write whereto next tickets rep e s = (Stop (Exited 0), s') ∧
    control (st_os s') = rest ∧
    length (doseek_calls (trace (st_os s'))) =
      (length (doseek_calls (trace (st_os s))) + length bs)%nat.
Proof.
  intros Hc Hr Hh Hctl Hbs Hfuel. unfold seeker, sys_close_pipe, fprintf_stderr.
  rewrite bind_run, run_set_g. cbn beta iota.
  set (s0 := State (st_os s) (with_do_cleanup (st_g s) 0)).
  assert (U0 : undisturbed s s0 ∨ True) by (by right).
  assert (Hh0 : healthy s0) by exact Hh.
  assert (Hd0 : do_cleanup (st_g s0) = 0) by reflexivity.
  assert (Hctl0 : control (st_os s0) = bs ++ 0 :: rest) by exact Hctl.
  assert (Hn0 : doseek_calls (trace (st_os s0)) = doseek_calls (trace (st_os s))) by reflexivity.
  clearbody s0. clear U0.
  destruct (sys_plain_undisturbed (c_close_pipe seek_feedback_0) 0 (-1) e s0 Hc) as (s1 & R1 & U1).
  rewrite bind_run, R1. cbn beta iota.
  destruct (sys_plain_undisturbed (c_close_pipe seek_control_1) 0 (-1) e s1 Hc) as (s2 & R2 & U2).
  rewrite bind_run, R2. cbn beta iota.
  pose proof (undisturbed_trans _ _ _ U1 U2) as U02.
  destruct (newfile_calm 0 e s2 Hc) as (s3 & R3 & U3).
  { destruct U02 as (-> & _). apply Hh0. }
  rewrite bind_run, R3. cbn beta iota.
  destruct (sys_getpid_calm e s3) as (p & s4 & R4 & U4).
  rewrite bind_run, R4. cbn beta iota.
  destruct (log_undisturbed (EvStderr "Seeker %lld..." [next + 1]) e s4) as (s5 & R5 & U5); [done|].
  rewrite bind_run, R5. cbn beta iota.
  assert (U05 : undisturbed s0 s5) by eauto using undisturbed_trans.
  clear U1 U2 U02 U3 U4 U5 R1 R2 R3 R4 R5 s1 s2 s3 s4.
  assert (Hctl5 : control (st_os s5) = bs ++ 0 :: rest) by (destruct U05 as (_&_&->&_); done).
  destruct bs as [|b bs].
  - (* the first ticket is a stop *)
    destruct (sys_read_ticket_calm (word_at tickets 0) 0 rest e s5 Hc Hctl5)
      as (s6 & R6 & Hctl6 & Hex6 & Hsz6 & Hd6 & Hg6).
    rewrite bind_run, R6. cbn beta iota. cbn [Z.eqb Pos.eqb negb].
    rewrite bind_run, fatal_if_false. cbn beta iota.
    destruct (timestamp_calm e s6 Hc) as (s7 & R7 & U7).
    rewrite bind_run, R7. cbn beta iota.
    destruct (time_so_far_calm e s7 Hc) as (t8 & s8 & R8 & U8).
    rewrite bind_run, R8. cbn beta iota zeta.
    destruct fuel as [|fuel]; [cbn in Hfuel; lia|]. cbn [seek_loop nonzero Z.eqb negb].
    rewrite bind_run, run_ret. cbn beta iota.
    destruct (seeker_tail_calm whereto t8 rep 3 e s8 Hc) as (s9 & R9 & U9).
    { destruct U8 as (_&_&_&_&_&->), U7 as (_&_&_&_&_&->). rewrite Hg6.
      destruct U05 as (_&_&_&_&_&->). done. }
    cbn [at_CPU at_StartTime at_EndTime] in *. rewrite R9.
    exists s9. split; [done|].
    destruct U9 as (_&_&->&->&_), U8 as (_&_&->&->&_), U7 as (_&_&->&->&_).
    rewrite Hctl6, Hd6. destruct U05 as (_&_&_&->&_). rewrite Hn0. cbn. split; [done | lia].
  - destruct (sys_read_ticket_calm (word_at tickets 0) b (bs ++ 0 :: rest) e s5 Hc Hctl5)
      as (s6 & R6 & Hctl6 & Hex6 & Hsz6 & Hd6 & Hg6).
    rewrite bind_run, R6. cbn beta iota. cbn [Z.eqb Pos.eqb negb].
    rewrite bind_run, fatal_if_false. cbn beta iota.
    destruct (timestamp_calm e s6 Hc) as (s7 & R7 & U7).
    rewrite bind_run, R7. cbn beta iota.
    destruct (time_so_far_calm e s7 Hc) as (t8 & s8 & R8 & U8).
    rewrite bind_run, R8. cbn beta iota zeta.
    inversion Hbs as [|? ? Hb Hbs']; subst.
    assert (U58 : undisturbed s6 s8) by eauto using undisturbed_trans.
    assert (Hh6 : healthy s6).
    { pose proof (healthy_undisturbed _ _ Hh0 U05) as (?&?&?&?).
      unfold healthy. rewrite Hex6, Hsz6, Hg6. done. }
    destruct (seek_loop_calm 3 do_write e Hc Hr bs fuel b 0 s8 rest) as (c' & s9 & R9 & Hh9 & Hg9 & Hctl9 & Hd9);
      [by eapply healthy_undisturbed | by destruct U58 as (_&_&->&_) | done | done | cbn in Hfuel; lia |].
    rewrite bind_run, R9. cbn beta iota.
    destruct (seeker_tail_calm whereto t8 rep 3 e s9 Hc) as (s10 & R10 & U10).
    { rewrite Hg9. destruct U58 as (_&_&_&_&_&->). rewrite Hg6.
      destruct U05 as (_&_&_&_&_&->). done. }
    cbn [at_CPU at_StartTime at_EndTime] in *. rewrite R10.
    exists s10. split; [done|].
    destruct U10 as (_&_&->&->&_). rewrite Hctl9, Hd9.
    destruct U58 as (_&_&_&->&_). rewrite Hd6. destruct U05 as (_&_&_&->&_). rewrite Hn0.
    cbn. split; [done | lia].
Qed.

(** * What the sequential phases leave of the globals *)

Section keeping_rules.
Variable G : globals -> Prop.

Lemma keeps_bind {A B} (m : M A) (f : A -> M B) :
  keeps G m -> (∀ a, keeps G (f a)) -> keeps G (m ≫= f).
Proof. intros Hm Hf e. eapply tr_bind; [apply Hm | intros a; apply Hf]. Qed.
Lemma keeps_ret {A} (a : A) : keeps G (mret a).
Proof. intros e s Hs. exact Hs. Qed.
Lemma keeps_halt {A} w : keeps G (@halt A w).
Proof. intros e s Hs. exact I. Qed.
Lemma keeps_syscall c sem : keeps G (syscall c sem).
Proof. intros e s Hs. rewrite run_syscall. exact Hs. Qed.
Lemma keeps_log ev : keeps G (log ev).
Proof. intros e s Hs. exact Hs. Qed.
Lemma keeps_get_g {A} (f : globals -> A) : keeps G (get_g f).
Proof. intros e s Hs. exact Hs. Qed.
Lemma keeps_get_os {A} (f : os -> A) : keeps G (get_os f).
Proof. intros e s Hs. exact Hs. Qed.
Lemma keeps_ask {A} (f : env -> A) : keeps G (ask f).
Proof. intros e s Hs. exact Hs. Qed.
Lemma keeps_random : keeps G c_random.
Proof. intros e s Hs. exact Hs. Qed.
Lemma keeps_set_g f : (∀ g, G g -> G (f g)) -> keeps G (set_g f).
Proof. intros Hf e s Hs. apply Hf, Hs. Qed.
End keeping_rules.

Create HintDb keeps discriminated.

Ltac keeps_step :=
  lazymatch goal with
  | |- keeps _ (_ ≫= _) => apply keeps_bind; [|intros ?]
  | |- keeps _ (mret _) => apply keeps_ret
  | |- keeps _ skip => apply keeps_ret
  | |- keeps _ (halt _) => apply keeps_halt
  | |- keeps _ (syscall _ _) => apply keeps_syscall
  | |- keeps _ (get_g _) => apply keeps_get_g
  | |- keeps _ (get_os _) => apply keeps_get_os
  | |- keeps _ (ask _) => apply keeps_ask
  | |- keeps _ c_random => apply keeps_random
  | |- keeps _ (log _) => apply keeps_log
  | |- keeps _ (set_g _) => apply keeps_set_g; intros ? ?; assumption
  | |- keeps _ (if ?b then _ else _) => destruct b
  | |- keeps _ (let '(_, _) := ?p in _) => destruct p
  | |- keeps _ _ => solve [auto with keeps]
  end.
Ltac keeps_tac := repeat keeps_step.

Lemma keeps_c_exit {A} status : keeps seek_rows_clear (@c_exit A status).
Proof. unfold c_exit, cleanup, sys_unlink. keeps_tac. Qed.
Lemma keeps_c_exit_bare {A} status : keeps seek_rows_clear (@c_exit_bare A status).
Proof. unfold c_exit_bare. keeps_tac. Qed.
#[export] Hint Resolve keeps_c_exit keeps_c_exit_bare : keeps.
Lemma keeps_io_error {A} message : keeps seek_rows_clear (@io_error A message).
Proof. unfold io_error, perror. keeps_tac. Qed.
Lemma keeps_usage {A} : keeps seek_rows_clear (@usage A).
Proof. unfold usage, fprintf_stderr. keeps_tac. Qed.
#[export] Hint Resolve keeps_io_error keeps_usage : keeps.
Lemma keeps_fatal_if b message : keeps seek_rows_clear (fatal_if b message).
Proof. unfold fatal_if. keeps_tac. Qed.
Lemma keeps_sys_plain c ok failure : keeps seek_rows_clear (sys_plain c ok failure).
Proof. unfold sys_plain. keeps_tac. Qed.
#[export] Hint Resolve keeps_fatal_if keeps_sys_plain : keeps.
Lemma keeps_sys_read fd buf count : keeps seek_rows_clear (sys_read fd buf count).
Proof. unfold sys_read. keeps_tac. Qed.
Lemma keeps_sys_gettimeofday : keeps seek_rows_clear sys_gettimeofday.
Proof. unfold sys_gettimeofday. keeps_tac. Qed.
Lemma keeps_sys_getrusage : keeps seek_rows_clear sys_getrusage.
Proof. unfold sys_getrusage. keeps_tac. Qed.
#[export] Hint Resolve keeps_sys_read keeps_sys_gettimeofday keeps_sys_getrusage : keeps.
Lemma keeps_time_so_far : keeps seek_rows_clear time_so_far.
Proof. unfold time_so_far. keeps_tac. Qed.
Lemma keeps_cpu_so_far : keeps seek_rows_clear cpu_so_far.
Proof. unfold cpu_so_far. keeps_tac. Qed.
#[export] Hint Resolve keeps_time_so_far keeps_cpu_so_far : keeps.
Lemma keeps_timestamp : keeps seek_rows_clear timestamp.
Proof. unfold timestamp. keeps_tac. Qed.

Lemma store_elsewhere g test col v :
  test ≠ Lseek -> test ≠ Lseek2 -> seek_rows_clear g -> seek_rows_clear (with_delta g (store (delta g) test col v)).
Proof.
  intros H1 H2 Hg c. cbn [delta with_delta]. unfold store.
  rewrite !decide_False by done. apply Hg.
Qed.

Lemma keeps_get_delta_t test : test ≠ Lseek -> test ≠ Lseek2 -> keeps seek_rows_clear (get_delta_t test).
Proof.
  intros H1 H2. unfold get_delta_t.
  apply keeps_bind; [apply keeps_time_so_far | intros t].
  apply keeps_bind; [apply keeps_set_g; intros g; by apply store_elsewhere | intros _].
  apply keeps_bind; [apply keeps_cpu_so_far | intros c].
  apply keeps_set_g; intros g; by apply store_elsewhere.
Qed.

Lemma keeps_newfile fd create : keeps seek_rows_clear (newfile fd create).
Proof. unfold newfile, sys_unlink, sys_open, sys_fdopen. keeps_tac. Qed.
Lemma keeps_randomize_from n : ∀ i buf, keeps seek_rows_clear (randomize_from n i buf).
Proof. induction n as [|n IH]; intros i buf; cbn [randomize_from]; keeps_tac. Qed.
#[export] Hint Resolve keeps_timestamp keeps_newfile keeps_randomize_from : keeps.
Lemma keeps_maybe_randomize do_random buf : keeps seek_rows_clear (maybe_randomize do_random buf).
Proof. unfold maybe_randomize, randomize_buffer. keeps_tac. Qed.
#[export] Hint Resolve keeps_maybe_randomize : keeps.

Lemma keeps_write_loop fuel : ∀ fd do_random words bufindex buf,
  keeps seek_rows_clear (write_loop fuel fd do_random words bufindex buf).
Proof.
  induction fuel as [|fuel IH]; intros fd do_random words bufindex buf; cbn [write_loop];
    unfold sys_write; keeps_tac.
Qed.
Lemma keeps_rewrite_loop fuel : ∀ fd do_random words bufindex buf,
  keeps seek_rows_clear (rewrite_loop fuel fd do_random words bufindex buf).
Proof.
  induction fuel as [|fuel IH]; intros fd do_random words bufindex buf; cbn [rewrite_loop];
    unfold sys_write, sys_lseek; keeps_tac.
Qed.
Lemma keeps_read_loop fuel : ∀ fd buf, keeps seek_rows_clear (read_loop fuel fd buf).
Proof.
  induction fuel as [|fuel IH]; intros fd buf; cbn [read_loop]; keeps_tac.
Qed.
Lemma keeps_scan_options fuel argv : ∀ next dir do_random,
  keeps seek_rows_clear (scan_options fuel argv next dir do_random).
Proof.
  induction fuel as [|fuel IH]; intros next dir do_random; cbn [scan_options]; keeps_tac.
Qed.
#[export] Hint Resolve keeps_write_loop keeps_rewrite_loop keeps_read_loop keeps_scan_options : keeps.

Lemma keeps_sequential_phases fuel argv : keeps seek_rows_clear (sequential_phases fuel argv).
Proof.
  unfold sequential_phases, parse_options, write_phase, rewrite_phase, read_phase,
    sys_atexit, sys_signal, sys_time, sys_getpid, sys_system, sys_lseek, sys_fsync,
    sys_close, uninit, perror, fprintf_stderr.
  repeat first [ apply keeps_get_delta_t; discriminate | keeps_step ].
Qed.

(** [main] enters both seek phases with their CPU cell at zero. *)
Lemma seek_cells_zero_in_main fuel argv e p u s1 :
  sequential_phases fuel argv e (state0 p) = (Ret u, s1) ->
  delta (st_g s1) Lseek CPU = 0%Q ∧
  ∀ u2 s2, do_seekstuff fuel 0 Lseek e s1 = (Ret u2, s2) -> delta (st_g s2) Lseek2 CPU = 0%Q.
Proof.
  intros R.
  pose proof (keeps_sequential_phases fuel argv e (state0 p)) as H.
  rewrite R in H. specialize (H ltac:(by intros c)).
  split; [apply H|]. intros u2 s2 R2.
  destruct (do_seekstuff_ret _ _ _ _ _ _ _ R2) as (evs & _ & _ & _ & _ & _ & _ & _ & _ & Hrest).
  rewrite Hrest by done. apply H.
Qed.

(** * Offsets, indices and options *)

Lemma quiet_env_calm : calm quiet_env.
Proof. intros k. reflexivity. Qed.

Lemma quiet_env_fair : fair_dice quiet_env.
Proof.
  intros k. cbn [e_random quiet_env]. unfold RANDOM_MAX.
  pose proof (Z.mod_pos_bound (Z.of_nat k * 1000003) 2147483648 ltac:(lia)). lia.
Qed.

(** C10.  After a read of [size] bytes that hold at least three words, and
    for a value of [random()] in its range, the divisor [size / IntSize - 2]
    of line 688 is positive and the index of the word that is decremented
    lies in [1, size / IntSize - 2]: neither the first word of the block nor
    the last. *)
Theorem touch_index_in_block rnd size :
  0 <= rnd <= RANDOM_MAX -> -2147483648 <= size < 2147483648 -> 3 <= size ÷ IntSize ->
  0 < touch_divisor size ∧ touch_divisor size = size ÷ IntSize - 2 ∧
  1 <= touch_index rnd size <= size ÷ IntSize - 2 ∧
  touch_index rnd size ≠ 0 ∧ touch_index rnd size ≠ size ÷ IntSize - 1.
Proof.
  intros Hr Hs H3. destruct (touch_index_inside rnd size Hr Hs H3) as [Hd Hi].
  assert (touch_divisor size = size ÷ IntSize - 2).
  { unfold touch_divisor. apply int32_id. unfold IntSize in *.
    assert (0 <= size) by (destruct (Z_lt_le_dec size 0) as [Hn|]; [|lia];
      pose proof (Z.quot_opp_l size 4 ltac:(lia)); pose proof (Z.quot_pos (- size) 4 ltac:(lia) ltac:(lia)); lia).
    pose proof (Z.quot_le_upper_bound size 4 size ltac:(lia)). lia. }
  repeat split; try lia.
Qed.

Lemma touch_index_in_block_witness :
  0 < touch_divisor 8192 ∧ touch_divisor 8192 = 8192 ÷ IntSize - 2 ∧
  1 <= touch_index 1000003 8192 <= 8192 ÷ IntSize - 2 ∧
  touch_index 1000003 8192 ≠ 0 ∧ touch_index 1000003 8192 ≠ 8192 ÷ IntSize - 1.
Proof.
  apply (touch_index_in_block 1000003 8192); unfold RANDOM_MAX, IntSize; [lia | lia |].
  vm_compute. discriminate.
Defined.

(** C5, as the code has it.  For a file size that is a positive multiple of
    [Chunk] and a value of [random()] in its range, the offset of line 250
    is [(random * 0xFFFFFFFF) mod file_size], it lies in [0, file_size), and
    [doseek] seeks to the start of its block, which is at most
    [file_size - Chunk]. *)
Theorem seek_offset_in_file rnd fs :
  0 <= rnd <= RANDOM_MAX -> 0 < fs <= LLONG_MAX -> (Chunk | fs) ->
  seek_where rnd fs = (rnd * 4294967295) mod fs ∧
  0 <= seek_where rnd fs < fs ∧
  0 <= probe_of (seek_where rnd fs) <= fs - Chunk ∧
  (Chunk | probe_of (seek_where rnd fs)) ∧
  probe_of (seek_where rnd fs) <= seek_where rnd fs < probe_of (seek_where rnd fs) + Chunk.
Proof.
  intros Hr Hf Hd. pose proof (seek_where_range rnd fs Hr Hf) as Hw.
  split; [by apply seek_where_mod|]. split; [done|].
  apply probe_of_range; [done | lia | done].
Qed.

Lemma seek_offset_in_file_witness :
  seek_where 1000003 (4 * Chunk) = (1000003 * 4294967295) mod (4 * Chunk) ∧
  0 <= seek_where 1000003 (4 * Chunk) < 4 * Chunk ∧
  0 <= probe_of (seek_where 1000003 (4 * Chunk)) <= 4 * Chunk - Chunk ∧
  (Chunk | probe_of (seek_where 1000003 (4 * Chunk))) ∧
  probe_of (seek_where 1000003 (4 * Chunk)) <= seek_where 1000003 (4 * Chunk)
    < probe_of (seek_where 1000003 (4 * Chunk)) + Chunk.
Proof.
  apply (seek_offset_in_file 1000003 (4 * Chunk)).
  - unfold RANDOM_MAX. lia.
  - unfold Chunk, LLONG_MAX. lia.
  - exists 4. reflexivity.
Defined.

(** C7, as the code has it.  The scan looks at the odd positions short of
    the last word.  [parse_options] prints the usage message and exits with
    status 1 when one of these words is no known flag, or when all are known
    and the size the scan leaves is below 1; when all are known and the size
    is at least 1 it returns, with [file_size] scaled to bytes. *)
Theorem parse_options_usage argv e s :
  let size := scanned_size (length argv) argv 1 (file_size (st_g s)) in
  ((∃ i, examined argv i ∧ ¬ recognised (arg argv i)) ∨
   ((∀ i, examined argv i -> recognised (arg argv i)) ∧ size < 1) ->
   ∃ s' evs, parse_options argv e s = (Stop (Exited 1), s') ∧
     trace (st_os s') = trace (st_os s) ++ evs ∧ usage_shown evs) ∧
  ((∀ i, examined argv i -> recognised (arg argv i)) -> 1 <= size ->
   ∃ d r s', parse_options argv e s = (Ret (d, r), s') ∧
     st_os s' = st_os s ∧ file_size (st_g s') = int64 (size * (1024 * 1024 * 1024))).
Proof.
  intros size. unfold parse_options.
  destruct (scan_options_spec (length argv) argv 1 "." 0 e s eq_refl ltac:(lia) ltac:(lia))
    as [Hbad Hgood].
  split.
  - intros [(i & Hex & Hnr) | [Hall Hsz]].
    + destruct Hbad as (s' & evs & R & Ht & Hu).
      { exists i. split; [apply Hex | done]. }
      exists s', evs. by rewrite bind_run, R.
    + destruct Hgood as (d & r & s1 & R & Ho & Hf); [by intros i _; apply Hall|].
      rewrite bind_run, R. cbn beta iota. rewrite bind_run, run_get_g. cbn beta iota.
      fold size in Hf. rewrite Hf.
      destruct (Z.ltb_spec size 1); [|lia]. rewrite bind_run.
      destruct (usage_run (A:=unit) e s1) as (s' & evs & -> & Ht & Hu).
      exists s', evs. by rewrite <- Ho.
  - intros Hall Hsz.
    destruct Hgood as (d & r & s1 & R & Ho & Hf); [by intros i _; apply Hall|].
    rewrite bind_run, R. cbn beta iota. rewrite bind_run, run_get_g. cbn beta iota.
    fold size in Hf. rewrite Hf.
    destruct (Z.ltb_spec size 1); [lia|].
    rewrite bind_run, run_skip. cbn beta iota. rewrite bind_run, run_set_g. cbn beta iota.
    rewrite run_ret. eexists _, _, _. split; [reflexivity|]. cbn. by rewrite Hf.
Qed.

(** C7 fails for a flag in the last position, which the scan never looks
    at: [bonnie -x] is accepted without a message; and a size of 0 is
    accepted when a later [-s] overrides it. *)
Lemma unknown_last_flag_accepted :
  ¬ recognised (arg ["bonnie"; "-x"] 1) ∧
  (∃ d r s', parse_options ["bonnie"; "-x"] quiet_env (state0 100) = (Ret (d, r), s') ∧
     trace (st_os s') = []) ∧
  (∃ d r s', parse_options ["bonnie"; "-s"; "0"; "-s"; "3"] quiet_env (state0 100)
               = (Ret (d, r), s') ∧
     trace (st_os s') = [] ∧ file_size (st_g s') = 3 * (1024 * 1024 * 1024)).
Proof.
  split; [|split].
  - intros [H|[H|[H|H]]]; discriminate H.
  - eexists _, _, _. split; reflexivity.
  - eexists _, _, _. split; [reflexivity|]. split; reflexivity.
Qed.

Lemma parse_options_usage_witness :
  (∃ s' evs, parse_options ["bonnie"; "-x"; "y"] quiet_env (state0 100) = (Stop (Exited 1), s') ∧
     trace (st_os s') = trace (st_os (state0 100)) ++ evs ∧ usage_shown evs) ∧
  (∃ d r s', parse_options ["bonnie"; "-s"; "2"; "-r"; "x"] quiet_env (state0 100) = (Ret (d, r), s') ∧
     st_os s' = st_os (state0 100) ∧
     file_size (st_g s') =
       int64 (scanned_size 5 ["bonnie"; "-s"; "2"; "-r"; "x"] 1 24 * (1024 * 1024 * 1024))).
Proof.
  split.
  - apply (parse_options_usage ["bonnie"; "-x"; "y"] quiet_env (state0 100)).
    left. exists 1. split; [split; [simpl; lia | reflexivity]|].
    intros [H|[H|[H|H]]]; discriminate H.
  - apply (parse_options_usage ["bonnie"; "-s"; "2"; "-r"; "x"] quiet_env (state0 100)).
    + intros i [Hr Ho]. simpl in Hr.
      assert (i = 1 ∨ i = 2 ∨ i = 3) as [->|[->| ->]] by lia.
      * right; left; reflexivity.
      * discriminate Ho.
      * right; right; right; reflexivity.
    + vm_compute. discriminate.
Defined.

(** * The rewrite and the failures *)

(** C9, what the code does.  When no call fails, a turn of the loop of the
    rewrite, entered with the block at offset [p] read, seeks back to [p]
    once, writes the buffer at [p], and writes the same buffer once more
    without a seek in between: the second write lands at [p + Chunk], on the
    block that follows, and the next read is at [p + 2 * Chunk].  The block
    at [p + Chunk] is overwritten and never read; when the block at [p] was
    the last of the file, the second write extends the file by a block. *)
Theorem second_write_lands_on_next_block fuel fd do_random bufindex buf e s p :
  calm e -> 0 <= p -> f_pos (st_os s) = p + Chunk ->
  let final := (rewrite_loop (S fuel) fd do_random Chunk bufindex buf e s).2 in
  ∃ k1 k2 k3 k4 b n rest,
    trace (st_os final) = trace (st_os s)
      ++ EvSys k1 (c_lseek fd (- Chunk) 1) (p + Chunk) p
      :: EvSys k2 (c_write fd b Chunk) p Chunk
      :: EvSys k3 (c_write fd b Chunk) (p + Chunk) Chunk
      :: EvSys k4 (c_read fd Chunk) (p + 2 * Chunk) n
      :: rest ∧
    n = Z.max 0 (Z.min Chunk (f_size (st_os s) - (p + 2 * Chunk))) ∧
    p + 2 * Chunk <= f_size (st_os final).
Proof.
  intros Hc Hp Hpos final. subst final.
  destruct (rewrite_turn_calm fuel fd do_random bufindex buf e s p Hc Hp Hpos)
    as (k1 & k2 & k3 & k4 & b & bi' & buf' & s' & -> & Ht & Hq & Hz).
  destruct (rewrite_loop_grows fuel fd do_random
              (Z.max 0 (Z.min Chunk (f_size (st_os s) - (p + 2 * Chunk)))) bi' buf' e s' Hc)
    as (rest & Htr & Hsz).
  { intros _. rewrite Hq. unfold Chunk. lia. }
  exists k1, k2, k3, k4, b, (Z.max 0 (Z.min Chunk (f_size (st_os s) - (p + 2 * Chunk)))), rest.
  split; [rewrite Htr, Ht, <- app_assoc; reflexivity|]. split; [done|]. lia.
Qed.

Lemma second_write_lands_on_next_block_witness :
  let final := (rewrite_loop 3 3 0 Chunk 0 (replicate 2048 0) quiet_env
                  (with_file4 Chunk [])).2 in
  ∃ k1 k2 k3 k4 b n rest,
    trace (st_os final) = trace (st_os (with_file4 Chunk []))
      ++ EvSys k1 (c_lseek 3 (- Chunk) 1) (0 + Chunk) 0
      :: EvSys k2 (c_write 3 b Chunk) 0 Chunk
      :: EvSys k3 (c_write 3 b Chunk) (0 + Chunk) Chunk
      :: EvSys k4 (c_read 3 Chunk) (0 + 2 * Chunk) n
      :: rest ∧
    n = Z.max 0 (Z.min Chunk (f_size (st_os (with_file4 Chunk [])) - (0 + 2 * Chunk))) ∧
    0 + 2 * Chunk <= f_size (st_os final).
Proof.
  apply (second_write_lands_on_next_block 2 3 0 0 (replicate 2048 0) quiet_env
           (with_file4 Chunk []) 0).
  - intros k. reflexivity.
  - lia.
  - reflexivity.
Defined.

Lemma warnings_seek : "fsync after seek" ∈ warnings.
Proof. unfold warnings. do 2 apply list_elem_of_further. apply list_elem_of_here. Qed.
Lemma warnings_write : "fsync after fast write" ∈ warnings.
Proof. apply list_elem_of_here. Qed.
Lemma warnings_rewrite : "fsync after fast rewrite" ∈ warnings.
Proof. apply list_elem_of_further, list_elem_of_here. Qed.

Lemma main_handled fuel argv e p :
  failures_handled warnings (trace (st_os (main fuel argv e (state0 p)).2)).
Proof.
  apply (watched_handled warnings e (main fuel argv) (state0 p)); [|reflexivity].
  apply (main_safe warnings warnings_seek warnings_write warnings_rewrite).
Qed.




(** * The duty cycle of a seeker *)

Lemma duty_start dw tr q : doseek_calls tr = [] -> foldl (duty_step dw) q tr = q.
Proof.
  revert q. induction tr as [|ev tr IH]; intros q H; [done|].
  destruct ev; try exact (IH q H). discriminate H.
Qed.

Lemma update_of_nat (k : nat) : update_of (Z.of_nat k) = truth (Z.of_nat k mod UpdateSeek =? 0).
Proof. unfold update_of, UpdateSeek. by rewrite Z.rem_mod_nonneg by lia. Qed.



(** * The tickets of a seek phase *)

Lemma stack_array_length e n : 0 <= n -> Z.of_nat (length (stack_array e n)) = n.
Proof. intros Hn. unfold stack_array. rewrite length_fmap, length_seq. lia. Qed.

Lemma ticket_run_app cap k1 k2 st1 st2 st3 :
  ticket_run cap k1 st1 st2 -> ticket_run cap k2 st2 st3 -> ticket_run cap (k1 + k2) st1 st3.
Proof. induction 1; intros H2; [done|]. cbn. econstructor; eauto. Qed.

(** One seeker can take all the perform tickets. *)
Lemma ticket_run_performs cap (a : nat) : ∀ w0 ws rest,
  (0 < cap)%nat -> running w0 = true ->
  ticket_run cap (a + a) (Tickets (replicate a 1 ++ rest) [] (w0 :: ws))
    (Tickets rest [] (Seeker true (probes w0 + Z.of_nat a) :: ws)).
Proof.
  induction a as [|a IH]; intros w0 ws rest Hcap Hr.
  - cbn. destruct w0 as [r p]. cbn in *. subst r. rewrite Z.add_0_r. constructor.
  - replace (S a + S a)%nat with (2 + (a + a))%nat by lia.
    eapply (ticket_run_app _ 2).
    + cbn [replicate app]. eapply run_step; [by apply step_send|].
      eapply run_step; [|apply run_nil].
      cbn [app]. by apply (step_read cap 0 w0 1 [] (replicate a 1 ++ rest) (w0 :: ws)).
    + cbn [insert list_insert take_ticket nonzero Z.eqb negb].
      replace (probes w0 + Z.of_nat (S a)) with (probes w0 + 1 + Z.of_nat a) by lia.
      by apply (IH (Seeker true (probes w0 + 1))).
Qed.

(** The stop tickets, one for each seeker. *)
Lemma ticket_run_stops cap p0 p1 p2 :
  (0 < cap)%nat ->
  ticket_run cap 6 (Tickets [0; 0; 0] [] [Seeker true p0; Seeker true p1; Seeker true p2])
    (Tickets [] [] [Seeker false p0; Seeker false p1; Seeker false p2]).
Proof.
  intros Hcap.
  eapply run_step; [by apply step_send|]. cbn [app].
  eapply run_step; [by apply (step_read cap 0 (Seeker true p0))|]. cbn.
  eapply run_step; [by apply step_send|]. cbn [app].
  eapply run_step; [by apply (step_read cap 1 (Seeker true p1))|]. cbn.
  eapply run_step; [by apply step_send|]. cbn [app].
  eapply run_step; [by apply (step_read cap 2 (Seeker true p2))|]. cbn.
  apply run_nil.
Qed.

Lemma tickets_done_stuck cap ws : ticket_stuck cap (Tickets [] [] ws).
Proof. intros st' H. inversion H. Qed.

Lemma ticket_protocol_completes cap seek_tickets :
  (0 < cap)%nat -> Z.of_nat (length seek_tickets) = Seeks + SeekProcCount ->
  ∃ k st, ticket_run cap k (tickets_start seek_tickets) st ∧ ticket_stuck cap st.
Proof.
  intros Hcap Hl. unfold tickets_start. rewrite make_tickets_eq by done.
  change (iterations 0 SeekProcCount) with 3%nat.
  change (Z.to_nat SeekProcCount) with 3%nat.
  generalize (Z.to_nat Seeks). intros a.
  exists (a + a + 6)%nat, (Tickets [] [] [Seeker false (0 + Z.of_nat a); Seeker false 0; Seeker false 0]).
  split; [|apply tickets_done_stuck].
  apply (ticket_run_app cap (a + a) 6 _
           (Tickets [0; 0; 0] [] [Seeker true (0 + Z.of_nat a); Seeker true 0; Seeker true 0])).
  - exact (ticket_run_performs cap a (Seeker true 0) [Seeker true 0; Seeker true 0] [0; 0; 0] Hcap eq_refl).
  - by apply ticket_run_stops.
Qed.

Lemma tickets_start_inv seek_tickets :
  Z.of_nat (length seek_tickets) = Seeks + SeekProcCount ->
  ticket_inv (Z.to_nat Seeks) (Z.to_nat SeekProcCount) (tickets_start seek_tickets).
Proof.
  intros Hl. exists (Z.to_nat Seeks), (Z.to_nat SeekProcCount).
  unfold tickets_start, stream. cbn [in_pipe unsent seekers app].
  rewrite make_tickets_eq by done.
  change (iterations 0 SeekProcCount) with 3%nat.
  change (Z.to_nat SeekProcCount) with 3%nat.
  generalize (Z.to_nat Seeks). intros a.
  split; [reflexivity|]. split; [cbn; lia|]. split; [reflexivity|]. split; [reflexivity|].
  split; lia.
Qed.

(** The seeker's loop is [take_ticket], byte after byte. *)
Lemma take_tickets bs w :
  running w = true -> Forall (λ b, b ≠ 0) bs ->
  foldl (λ w b, take_ticket b w) w (bs ++ [0]) = Seeker false (probes w + Z.of_nat (length bs)).
Proof.
  revert w. induction bs as [|b bs IH]; intros w Hr Hbs; cbn.
  - unfold take_ticket. cbn. by rewrite Z.add_0_r.
  - inversion Hbs as [|? ? Hb Hbs']; subst. unfold take_ticket at 2.
    assert (nonzero b = true) as -> by (unfold nonzero; by destruct (Z.eqb_spec b 0)).
    rewrite IH by done. cbn. f_equal. lia.
Qed.

Lemma make_tickets_built a :
  Z.of_nat (length a) = Seeks + SeekProcCount ->
  Z.of_nat (length (make_tickets a)) = Seeks + SeekProcCount ∧
  (∀ i : nat, Z.of_nat i < Seeks -> make_tickets a !! i = Some 1) ∧
  (∀ i : nat, Seeks <= Z.of_nat i < Seeks + SeekProcCount -> make_tickets a !! i = Some 0).
Proof.
  intros Hl. split; [|split].
  - unfold make_tickets. rewrite !fill_length. exact Hl.
  - intros i Hi. rewrite make_tickets_lookup; [|exact Hl|].
    + rewrite decide_True; [reflexivity | exact Hi].
    + assert (0 <= SeekProcCount) by (unfold SeekProcCount; lia). lia.
  - intros i [Hi1 Hi2]. rewrite make_tickets_lookup; [|exact Hl|exact Hi2].
    rewrite decide_False; [reflexivity | lia].
Qed.

Lemma make_tickets_length a : length (make_tickets a) = length a.
Proof. unfold make_tickets. by rewrite !fill_length. Qed.

Lemma tickets_start_measure a :
  ticket_measure (tickets_start a) = (2 * length a)%nat.
Proof.
  unfold tickets_start, ticket_measure. cbn [unsent in_pipe].
  rewrite make_tickets_length. cbn [length]. lia.
Qed.

(** A run takes at most two steps for each byte of the buffer. *)
Lemma ticket_run_length capacity k seek_tickets st :
  Z.of_nat (length seek_tickets) = Seeks + SeekProcCount ->
  ticket_run capacity k (tickets_start seek_tickets) st ->
  Z.of_nat k <= 2 * (Seeks + SeekProcCount).
Proof.
  intros Hl Hk.
  pose proof (ticket_run_bound _ _ _ _ Hk) as Hb.
  rewrite tickets_start_measure in Hb. lia.
Qed.

Lemma ticket_run_sound capacity k seek_tickets st :
  Z.of_nat (length seek_tickets) = Seeks + SeekProcCount ->
  (0 < capacity)%nat ->
  ticket_run capacity k (tickets_start seek_tickets) st ->
  Z.of_nat k <= 2 * (Seeks + SeekProcCount) ∧
  total_probes (seekers st) + ones (stream st) = Seeks ∧
  (ticket_stuck capacity st ->
     all_stopped (seekers st) ∧ stream st = [] ∧ total_probes (seekers st) = Seeks).
Proof.
  intros Hl Hcap Hk.
  split; [exact (ticket_run_length _ _ _ _ Hl Hk)|].
  pose proof (ticket_inv_run _ _ _ _ _ _ Hk (tickets_start_inv _ Hl)) as Hinv.
  assert (HS : Z.of_nat (Z.to_nat Seeks) = Seeks) by (apply Z2Nat.id; unfold Seeks; lia).
  change (Z.to_nat SeekProcCount) with 3%nat in Hinv.
  revert Hinv HS. generalize (Z.to_nat Seeks). intros n Hinv HS.
  pose proof Hinv as (a & b & Hst & Hp & Hc & Hlen & Ha & Hb).
  split.
  - rewrite Hst, ones_replicate, Hp. lia.
  - intros Hstuck.
    pose proof (ticket_stuck_stopped _ _ _ _ Hcap Hinv Hstuck) as Hall.
    pose proof (all_stopped_count _ Hall) as Hsc.
    assert (b = 0%nat) by lia. subst b.
    assert (a = 0%nat) by (apply Hb; lia). subst a.
    split; [exact Hall|]. split; [rewrite Hst; reflexivity|]. rewrite Hp. lia.
Qed.

Lemma seeks_bounds : 0 <= Seeks + SeekProcCount.
Proof. unfold Seeks, SeekProcCount. lia. Qed.

(** What a seeker does with the bytes it finds on the control pipe is what
    [take_ticket] does with them. *)
Lemma seeker_takes_tickets fuel do_write whereto next tickets rep e s bs rest :
  calm e -> fair_dice e -> healthy s ->
  control (st_os s) = bs ++ 0 :: rest -> Forall (λ b, b ≠ 0) bs ->
  (length bs + 2 <= fuel)%nat ->
  ∃ s', seeker fuel do_write whereto next tickets rep e s = (Stop (Exited 0), s') ∧
    control (st_os s') = rest ∧
    Seeker false (Z.of_nat (length (doseek_calls (trace (st_os s'))))
                  - Z.of_nat (length (doseek_calls (trace (st_os s)))))
      = foldl (λ w b, take_ticket b w) (Seeker true 0) (bs ++ [0]).
Proof.
  intros Hc Hr Hh Hctl Hbs Hfuel.
  destruct (seeker_calm fuel do_write whereto next tickets rep e s bs rest Hc Hr Hh Hctl Hbs Hfuel)
    as (s' & R & Hctl' & Hn).
  exists s'. split; [exact R|]. split; [exact Hctl'|].
  rewrite take_tickets by done. cbn [probes]. f_equal. lia.
Qed.


Lemma seek_phase_returns :
  do_seekstuff 0 0 Lseek quiet_env (state0 100) = (Ret tt, seek_phase_end).
Proof.
  unfold seek_phase_end.
  rewrite (surjective_pairing (do_seekstuff 0 0 Lseek quiet_env (state0 100))) at 1.
  f_equal.
Qed.


(** * The reports of a seek phase *)

Lemma received_three e evs :
  length (received e evs) = Z.to_nat SeekProcCount -> ∃ r rs, received e evs = r :: rs.
Proof. destruct (received e evs) as [|r rs]; [discriminate | eauto]. Qed.




(** C3.  For any reports, at least one, each ending no earlier than it
    starts, the elapsed figure of the aggregation is not negative and not
    below any report's own span; and that figure is what a returning
    [do_seekstuff], which has received at least one report, leaves in
    [delta[whereto][Elapsed]]. *)
Theorem aggregated_elapsed_bounds :
  (∀ rs t, rs ≠ [] -> (∀ r, r ∈ rs -> (at_StartTime r <= at_EndTime r)%Q) ->
     (0 <= elapsed_of (absorb_all 0 t rs))%Q ∧
     ∀ r, r ∈ rs -> (at_EndTime r - at_StartTime r <= elapsed_of (absorb_all 0 t rs))%Q) ∧
  (∀ fuel do_write whereto e s u s',
     do_seekstuff fuel do_write whereto e s = (Ret u, s') ->
     ∃ evs, trace (st_os s') = trace (st_os s) ++ evs ∧
       received e evs ≠ [] ∧
       ((∀ r, r ∈ received e evs -> (at_StartTime r <= at_EndTime r)%Q) ->
        (0 <= delta (st_g s') whereto Elapsed)%Q ∧
        ∀ r, r ∈ received e evs ->
          (at_EndTime r - at_StartTime r <= delta (st_g s') whereto Elapsed)%Q)).
Proof.
  split.
  - intros rs t Hne Hord. exact (elapsed_covers rs t Hne Hord).
  - intros fuel do_write whereto e s u s' Hrun.
    destruct (do_seekstuff_ret _ _ _ _ _ _ _ Hrun)
      as (evs & Ht & _ & _ & Hlen & _ & _ & _ & [Hcpu Hel] & _).
    exists evs. split; [exact Ht|].
    assert (Hne : received e evs ≠ []) by (destruct (received_three e evs Hlen) as (r & rs & ->); done).
    split; [exact Hne|]. intros Hord. rewrite Hel.
    exact (elapsed_covers _ _ Hne Hord).
Qed.

Lemma aggregated_elapsed_bounds_witness :
  (0 <= elapsed_of (absorb_all 0 (Tally 0 0 0) [Report 1 2 5; Report 1 1 3; Report 1 4 4]))%Q ∧
  (5 - 2 <= elapsed_of (absorb_all 0 (Tally 0 0 0) [Report 1 2 5; Report 1 1 3; Report 1 4 4]))%Q.
Proof.
  destruct (proj1 aggregated_elapsed_bounds [Report 1 2 5; Report 1 1 3; Report 1 4 4]
              (Tally 0 0 0)) as [H0 H1].
  - discriminate.
  - intros r Hr. rewrite !elem_of_cons in Hr.
    destruct Hr as [->|[->|[->|Hr]]]; [cbn; lra | cbn; lra | cbn; lra | inversion Hr].
  - split; [exact H0|]. apply (H1 (Report 1 2 5)). apply list_elem_of_here.
Defined.

(** C8.  A [do_seekstuff] that returns has read [SeekProcCount] reports,
    each read returning the [sizeof(seeker_report)] bytes asked for, has
    forked [SeekProcCount] children and has reaped as many; the children it
    had and those it forked are those it reaped and those it is left with,
    so that it is left with none when it started with none. *)
Theorem reports_read_workers_reaped fuel do_write whereto e s u s' :
  do_seekstuff fuel do_write whereto e s = (Ret u, s') ->
  ∃ evs, trace (st_os s') = trace (st_os s) ++ evs ∧
    report_reads evs = replicate (Z.to_nat SeekProcCount) sizeof_seeker_report ∧
    length (received e evs) = Z.to_nat SeekProcCount ∧
    length (forked evs) = Z.to_nat SeekProcCount ∧
    length (reaped evs) = Z.to_nat SeekProcCount ∧
    children (st_os s) ++ forked evs ≡ₚ reaped evs ++ children (st_os s') ∧
    (children (st_os s) = [] -> children (st_os s') = [] ∧ reaped evs ≡ₚ forked evs).
Proof.
  intros Hrun.
  destruct (do_seekstuff_ret _ _ _ _ _ _ _ Hrun)
    as (evs & Ht & _ & Hrr & Hlen & Hf & Hr & Hperm & _).
  exists evs. repeat (split; [assumption|]).
  intros Hnil. rewrite Hnil in Hperm. cbn [app] in Hperm.
  pose proof (Permutation_length Hperm) as HL. rewrite length_app, Hf, Hr in HL.
  assert (Hc : children (st_os s') = []) by (destruct (children (st_os s')); [done | cbn in HL; lia]).
  split; [exact Hc|]. rewrite Hc, app_nil_r in Hperm. by symmetry.
Qed.

Lemma reports_read_workers_reaped_witness :
  ∃ evs, trace (st_os seek_phase_end) = trace (st_os (state0 100)) ++ evs ∧
    report_reads evs = replicate (Z.to_nat SeekProcCount) sizeof_seeker_report ∧
    children (st_os seek_phase_end) = [] ∧ reaped evs ≡ₚ forked evs.
Proof.
  destruct (reports_read_workers_reaped 0 0 Lseek quiet_env (state0 100) tt seek_phase_end
              seek_phase_returns) as (evs & Ht & Hrr & _ & _ & _ & _ & Hnil).
  exists evs. split; [exact Ht|]. split; [exact Hrr|]. apply Hnil. reflexivity.
Defined.

(** * The touched word, for any read *)

(** X1.  For every byte count [size] a read of a block can return, 0 to [Chunk],
    and every value of [random()]: the divisor [size / IntSize - 2] of line 688
    is zero exactly when [size] is 8, 9, 10 or 11 (the division then kills the
    process), and for every other [size] the index of the touched word lies
    between 1 and [Chunk / IntSize - 2], inside the buffer of [doseek], also
    when the read was short and the divisor is negative. *)
Theorem touch_index_in_buffer rnd size :
  0 <= rnd <= RANDOM_MAX -> 0 <= size <= Chunk ->
  (touch_divisor size = 0 <-> 8 <= size <= 11) ∧
  (touch_divisor size ≠ 0 -> 1 <= touch_index rnd size <= Chunk ÷ IntSize - 2).
Proof.
  intros Hr Hs. unfold touch_index, touch_divisor, Chunk, IntSize, RANDOM_MAX in *.
  rewrite Z.quot_div_nonneg by lia.
  pose proof (Z.div_mod size 4 ltac:(lia)) as Hd.
  pose proof (Z.mod_pos_bound size 4 ltac:(lia)) as Hm.
  change (8192 ÷ 4 - 2) with 2046.
  rewrite int32_id by lia.
  split; [lia|]. intros Hne.
  destruct (Z_lt_le_dec 0 (size / 4 - 2)) as [Hpos|Hneg].
  - pose proof (Z.rem_bound_pos rnd (size / 4 - 2) ltac:(lia) Hpos). lia.
  - rewrite <- (Z.opp_involutive (size / 4 - 2)), Z.rem_opp_r by lia.
    pose proof (Z.rem_bound_pos rnd (- (size / 4 - 2)) ltac:(lia) ltac:(lia)). lia.
Qed.

Lemma touch_index_in_buffer_witness :
  (touch_divisor 4 = 0 <-> 8 <= 4 <= 11) ∧
  (touch_divisor 4 ≠ 0 -> 1 <= touch_index 1000003 4 <= Chunk ÷ IntSize - 2).
Proof.
  apply (touch_index_in_buffer 1000003 4); unfold RANDOM_MAX, Chunk; lia.
Defined.

(** * The order of the reports *)

Lemma earliest_unique m m' l l' : l ≡ₚ l' -> earliest m l -> earliest m' l' -> (m == m')%Q.
Proof.
  intros Hp [Hin Hle] [Hin' Hle']. apply Qle_antisym.
  - apply Hle. by rewrite Hp.
  - apply Hle'. by rewrite <- Hp.
Qed.

Lemma latest_unique m m' l l' : l ≡ₚ l' -> latest m l -> latest m' l' -> (m == m')%Q.
Proof.
  intros Hp [Hin Hle] [Hin' Hle']. apply Qle_antisym.
  - apply Hle'. by rewrite <- Hp.
  - apply Hle. by rewrite Hp.
Qed.

(** X2.  The start, the end and the elapsed time that the collection loop
    of [do_seekstuff] computes do not depend on the order in which the
    reports arrive: for two lists of reports that are permutations of one
    another (and not empty), the earliest start, the latest stop and the
    elapsed time are equal. *)
Theorem aggregation_order_independent rs rs' t :
  rs ≡ₚ rs' -> rs ≠ [] ->
  (first_start (absorb_all 0 t rs) == first_start (absorb_all 0 t rs'))%Q ∧
  (last_stop (absorb_all 0 t rs) == last_stop (absorb_all 0 t rs'))%Q ∧
  (elapsed_of (absorb_all 0 t rs) == elapsed_of (absorb_all 0 t rs'))%Q.
Proof.
  intros Hp Hne.
  destruct rs as [|r rs]; [done|].
  destruct rs' as [|r' rs']; [by apply Permutation_nil_r in Hp|].
  destruct (absorb_all_extremes r rs t) as [Hf Hl].
  destruct (absorb_all_extremes r' rs' t) as [Hf' Hl'].
  cbn zeta in *.
  assert (E1 : (first_start (absorb_all 0 t (r :: rs))
                == first_start (absorb_all 0 t (r' :: rs')))%Q)
    by (eapply earliest_unique; [|exact Hf|exact Hf']; by apply fmap_Permutation).
  assert (E2 : (last_stop (absorb_all 0 t (r :: rs))
                == last_stop (absorb_all 0 t (r' :: rs')))%Q)
    by (eapply latest_unique; [|exact Hl|exact Hl']; by apply fmap_Permutation).
  split; [exact E1|split; [exact E2|]].
  unfold elapsed_of. rewrite E1, E2. reflexivity.
Qed.

Lemma aggregation_order_independent_witness :
  (elapsed_of (absorb_all 0 (Tally 0 0 0) [Report 1 2 5; Report 1 1 3; Report 1 4 4])
   == elapsed_of (absorb_all 0 (Tally 0 0 0) [Report 1 4 4; Report 1 2 5; Report 1 1 3]))%Q.
Proof.
  apply (aggregation_order_independent
           [Report 1 2 5; Report 1 1 3; Report 1 4 4]
           [Report 1 4 4; Report 1 2 5; Report 1 1 3] (Tally 0 0 0)).
  - etrans; [apply Permutation_swap|]. etrans; [apply perm_skip, Permutation_swap|].
    etrans; [apply Permutation_swap|]. apply perm_skip. apply Permutation_swap.
  - discriminate.
Defined.

(** * The buffer of the sequential phases *)

(** X3.  [buf[bufindex++]++] after the wrap-around test, as the write and the
    rewrite loop do it: for an index between 0 and [Chunk / IntSize], the
    word that is incremented lies inside the buffer (the index [Chunk /
    IntSize] wraps to word 0), the new index is again between 1 and [Chunk /
    IntSize], the buffer keeps its length, the word is incremented as an
    [int] and no other word changes. *)
Theorem dirty_in_buffer bufindex buf :
  0 <= bufindex <= Chunk ÷ IntSize -> Z.of_nat (length buf) = Chunk ÷ IntSize ->
  let j := if bufindex =? Chunk ÷ IntSize then 0 else bufindex in
  (dirty bufindex buf).1 = j + 1 ∧
  0 <= j < Chunk ÷ IntSize ∧ 1 <= (dirty bufindex buf).1 <= Chunk ÷ IntSize ∧
  length (dirty bufindex buf).2 = length buf ∧
  (dirty bufindex buf).2 !! Z.to_nat j = Some (int32 (word_at buf j + 1)) ∧
  (∀ k : nat, k ≠ Z.to_nat j -> (dirty bufindex buf).2 !! k = buf !! k).
Proof.
  intros Hi Hl. cbn zeta. unfold dirty. change (Chunk ÷ IntSize) with 2048 in *.
  destruct (Z.eqb_spec bufindex 2048) as [->|Hne]; cbn [fst snd];
    (split; [reflexivity|]); (split; [lia|]); (split; [lia|]);
    (split; [by rewrite length_insert|]);
    (split; [apply list_lookup_insert_eq; lia | intros k Hk; by apply list_lookup_insert_ne]).
Qed.

Lemma dirty_in_buffer_witness :
  (dirty 2048 (replicate 2048 42)).1 = 1 ∧
  (dirty 2048 (replicate 2048 42)).2 !! 0%nat = Some 43.
Proof.
  destruct (dirty_in_buffer 2048 (replicate 2048 42)) as (H1 & _ & _ & _ & H5 & _).
  - vm_compute. split; discriminate.
  - vm_compute. reflexivity.
  - split; [exact H1 | exact H5].
Defined.

Lemma randomize_from_fills n : ∀ i buf e s,
  0 <= i -> (Z.to_nat i + n <= length buf)%nat ->
  ∃ buf', randomize_from n i buf e s
            = (Ret buf', State (Os (ncall (st_os s)) (nrandom (st_os s) + n) (pid (st_os s))
                                   (f_exists (st_os s)) (f_size (st_os s)) (f_pos (st_os s))
                                   (children (st_os s)) (control (st_os s)) (trace (st_os s)))
                               (st_g s)) ∧
    length buf' = length buf ∧
    (∀ k : nat, (k < n)%nat ->
       buf' !! (Z.to_nat i + k)%nat = Some (e_random e (nrandom (st_os s) + k))) ∧
    (∀ j : nat, (j < Z.to_nat i ∨ Z.to_nat i + n <= j)%nat -> buf' !! j = buf !! j).
Proof.
  induction n as [|n IH]; intros i buf e s Hi Hl; cbn [randomize_from].
  - exists buf. rewrite run_ret, Nat.add_0_r. destruct s as [[] g]. cbn.
    split; [reflexivity|]. split; [reflexivity|]. split; [intros k Hk; lia | done].
  - rewrite bind_run, run_random. cbn beta iota.
    destruct (IH (i + 1) (<[Z.to_nat i := e_random e (nrandom (st_os s))]> buf) e
                (State (drawn (st_os s)) (st_g s)) ltac:(lia)) as (buf' & R & Hlen & Hnew & Hold).
    { rewrite length_insert. lia. }
    exists buf'. rewrite R. cbn [st_os st_g drawn ncall nrandom pid f_exists f_size f_pos
                                 children control trace].
    split; [do 3 f_equal; lia|]. rewrite length_insert in Hlen. split; [exact Hlen|]. split.
    + intros k Hk. destruct k as [|k].
      * rewrite Nat.add_0_r, Hold by lia. rewrite Nat.add_0_r.
        apply list_lookup_insert_eq. lia.
      * replace (Z.to_nat i + S k)%nat with (Z.to_nat (i + 1) + k)%nat by lia.
        rewrite Hnew by lia. do 2 f_equal. cbn. lia.
    + intros j Hj. rewrite Hold by lia. apply list_lookup_insert_ne. lia.
Qed.

(** X4.  [randomize_buffer(buf, size)], for [size >= 0] within the buffer,
    returns, draws [size / IntSize] numbers from [rand()], and leaves them in
    that order in the first [size / IntSize] words; the words after them, the
    trace and the globals are unchanged. *)
Theorem randomize_buffer_fills buf size e s :
  0 <= size -> size ÷ IntSize <= Z.of_nat (length buf) ->
  ∃ buf' s', randomize_buffer buf size e s = (Ret buf', s') ∧
    length buf' = length buf ∧
    nrandom (st_os s') = (nrandom (st_os s) + Z.to_nat (size ÷ IntSize))%nat ∧
    trace (st_os s') = trace (st_os s) ∧ st_g s' = st_g s ∧
    (∀ k : nat, Z.of_nat k < size ÷ IntSize ->
       buf' !! k = Some (e_random e (nrandom (st_os s) + k))) ∧
    (∀ k : nat, size ÷ IntSize <= Z.of_nat k -> buf' !! k = buf !! k).
Proof.
  intros Hs Hl. unfold randomize_buffer, iterations. rewrite Z.sub_0_r.
  assert (0 <= size ÷ IntSize) by (apply Z.quot_pos; unfold IntSize; lia).
  destruct (randomize_from_fills (Z.to_nat (size ÷ IntSize)) 0 buf e s ltac:(lia) ltac:(lia))
    as (buf' & R & Hlen & Hnew & Hold).
  eexists _, _. split; [exact R|]. cbn [st_os st_g nrandom trace].
  repeat split; try done.
  - intros k Hk. apply (Hnew k). lia.
  - intros k Hk. apply Hold. lia.
Qed.

Lemma randomize_buffer_fills_witness :
  ∃ buf' s', randomize_buffer (replicate 2048 0) Chunk quiet_env (with_file4 0 []) = (Ret buf', s') ∧
    nrandom (st_os s') = 2048%nat ∧ buf' !! 3%nat = Some (e_random quiet_env 3).
Proof.
  destruct (randomize_buffer_fills (replicate 2048 0) Chunk quiet_env (with_file4 0 []))
    as (buf' & s' & R & _ & Hn & _ & _ & Hnew & _).
  - unfold Chunk. lia.
  - vm_compute. discriminate.
  - exists buf', s'. split; [exact R|]. split; [exact Hn|].
    apply (Hnew 3%nat). vm_compute. reflexivity.
Defined.

(** * The exits, and the edges of [newfile] *)

Lemma plain_same v e o : plain v v e o = v.
Proof. unfold plain. by destruct (e_inject e (ncall o)). Qed.

Lemma c_exit_run {A} status e s :
  ∃ s', @c_exit A status e s = (Stop (Exited status), s') ∧
    trace (st_os s') = trace (st_os s) ++ exit_events e (st_os s) (do_cleanup (st_g s)) status ∧
    st_g s' = st_g s.
Proof.
  unfold c_exit, cleanup, sys_unlink, exit_events.
  rewrite !bind_run, run_get_g. cbn beta iota.
  destruct (nonzero (do_cleanup (st_g s))).
  - autorewrite with run. cbn [fst snd st_os st_g].
    eexists. split; [reflexivity|].
    cbn [trace st_os st_g with_trace counted]. rewrite <- !app_assoc. cbn [app].
    done.
  - autorewrite with run. cbn [fst snd st_os st_g].
    eexists. split; [reflexivity|]. done.
Qed.

Lemma io_error_run {A} message e s :
  ∃ s', @io_error A message e s = (Stop (Exited 1), s') ∧
    trace (st_os s') = trace (st_os s)
      ++ EvPerror (drastic message) :: exit_events e (st_os s) (do_cleanup (st_g s)) 1 ∧
    st_g s' = st_g s.
Proof.
  unfold io_error, perror. rewrite bind_run, run_log. cbn beta iota.
  match goal with |- context [c_exit 1 e ?s0] =>
    destruct (c_exit_run (A:=A) 1 e s0) as (s' & R & Ht & Hg) end.
  exists s'. rewrite R. split; [done|]. cbn in Ht. rewrite Ht, <- app_assoc. done.
Qed.

Lemma usage_exit {A} e s :
  ∃ s', @usage A e s = (Stop (Exited 1), s') ∧
    trace (st_os s') = trace (st_os s)
      ++ EvStderr usage_text [] :: exit_events e (st_os s) (do_cleanup (st_g s)) 1 ∧
    st_g s' = st_g s.
Proof.
  unfold usage, fprintf_stderr. rewrite bind_run, run_log. cbn beta iota.
  match goal with |- context [c_exit 1 e ?s0] =>
    destruct (c_exit_run (A:=A) 1 e s0) as (s' & R & Ht & Hg) end.
  exists s'. rewrite R. split; [done|]. cbn in Ht. rewrite Ht, <- app_assoc. done.
Qed.

(** X6.  The edges of [newfile].  Creating when the file does not exist and a
    descriptor was open before ([*fd != -1]): the failed [unlink] is fatal,
    with the message for [unlink] and then the exit handler.  Opening a file
    that does not exist is fatal, with the file's name in the message.  When
    no call fails, creating succeeds if the file exists or [*fd] is -1 (the
    failed [unlink] is then ignored), gives descriptor 3 and leaves the file
    empty, at offset 0, and the globals as they were. *)
Theorem newfile_edges fd e s :
  (f_exists (st_os s) = false -> fd ≠ -1 ->
     ∃ s', newfile fd true e s = (Stop (Exited 1), s') ∧
       trace (st_os s') = trace (st_os s)
         ++ EvSys (ncall (st_os s)) c_unlink (f_pos (st_os s)) (-1)
         :: EvPerror (drastic "unlink")
         :: exit_events e (counted (st_os s)) (do_cleanup (st_g s)) 1) ∧
  (f_exists (st_os s) = false ->
     ∃ s', newfile fd false e s = (Stop (Exited 1), s') ∧
       trace (st_os s') = trace (st_os s)
         ++ EvSys (ncall (st_os s)) (c_open false) (f_pos (st_os s)) (-1)
         :: EvPerror (drastic (filename (st_g s)))
         :: exit_events e (counted (st_os s)) (do_cleanup (st_g s)) 1) ∧
  (calm e -> f_exists (st_os s) = true ∨ fd = -1 ->
     ∃ s', newfile fd true e s = (Ret 3, s') ∧
       f_exists (st_os s') = true ∧ f_size (st_os s') = 0 ∧ f_pos (st_os s') = 0 ∧
       st_g s' = st_g s).
Proof.
  split; [|split].
  - intros Hex Hfd. unfold newfile. cbn beta iota.
    rewrite !bind_run. unfold sys_unlink at 1. rewrite run_syscall. cbn [fst snd].
    rewrite Hex, !plain_same. cbn [Z.eqb andb].
    destruct (Z.eqb_spec fd (-1)) as [?|_]; [done|].
    cbn [Pos.eqb andb negb]. rewrite bind_run. cbn [fatal_if].
    match goal with |- context [@io_error ?A "unlink" e ?s0] =>
      destruct (io_error_run (A:=A) "unlink" e s0) as (s' & R & Ht & Hg) end.
    rewrite R. exists s'. split; [reflexivity|].
    cbn in Ht. rewrite Ht, <- app_assoc. done.
  - intros Hex. unfold newfile. cbn beta iota.
    rewrite !bind_run. unfold sys_open. rewrite run_syscall. cbn [fst snd].
    rewrite Hex, !plain_same. cbn [Z.eqb Pos.eqb]. cbn beta iota.
    rewrite bind_run, run_get_g.
    cbn beta iota. rewrite bind_run. cbn [fatal_if].
    match goal with |- context [@io_error ?A ?m e ?s0] =>
      destruct (io_error_run (A:=A) m e s0) as (s' & R & Ht & Hg) end.
    rewrite R. exists s'. split; [reflexivity|].
    cbn in Ht. rewrite Ht, <- app_assoc. done.
  - intros Hc Hor. unfold newfile, sys_unlink, sys_open, sys_fdopen, sys_plain.
    cbn beta iota.
    assert (E' : negb (f_exists (st_os s)) && negb (fd =? -1) = false).
    { destruct Hor as [->| ->]; [done|]. by rewrite andb_comm. }
    destruct (f_exists (st_os s)) eqn:Hex; cbn [negb andb] in E';
    repeat first
      [ rewrite bind_run | rewrite run_syscall | rewrite run_get_g | rewrite run_ret
      | rewrite plain_calm by done | rewrite fatal_if_false | rewrite Hex | rewrite E'
      | progress cbn [fst snd st_os st_g f_exists with_file counted with_trace Z.eqb Pos.eqb
                      andb negb] ];
    (eexists; split; [reflexivity|]; done).
Qed.

Lemma newfile_edges_witness :
  (∃ s', newfile 3 true quiet_env (state0 100) = (Stop (Exited 1), s') ∧
     trace (st_os s') =
       [EvSys 0 c_unlink 0 (-1); EvPerror (drastic "unlink");
        EvSys 1 c_unlink 0 (-1); EvReport; EvExit 1]) ∧
  (∃ s', newfile (-1) true quiet_env (state0 100) = (Ret 3, s') ∧
     f_exists (st_os s') = true ∧ f_size (st_os s') = 0 ∧ f_pos (st_os s') = 0 ∧
     st_g s' = st_g (state0 100)).
Proof.
  split.
  - apply (proj1 (newfile_edges 3 quiet_env (state0 100))); [reflexivity|lia].
  - apply (proj2 (proj2 (newfile_edges (-1) quiet_env (state0 100)))).
    + intros k. reflexivity.
    + right. reflexivity.
Defined.

(** * The stop watch *)

Lemma time_so_far_run e s :
  let k := ncall (st_os s) in
  let s0 r := State (counted (with_trace (st_os s)
                (trace (st_os s) ++ [EvSys k c_gettimeofday (f_pos (st_os s)) r]))) (st_g s) in
  (e_inject e k = None -> ∃ t, time_so_far e s = (Ret t, s0 0)) ∧
  (e_inject e k ≠ None ->
     ∃ s1, time_so_far e s = (Stop (Exited 1), s1) ∧
       trace (st_os s1) = trace (st_os (s0 (-1)))
         ++ EvPerror (drastic "gettimeofday")
         :: exit_events e (st_os (s0 (-1))) (do_cleanup (st_g s)) 1 ∧
       st_g s1 = st_g s).
Proof.
  intros k s0. unfold time_so_far, sys_gettimeofday, sys_plain.
  autorewrite with run. cbn [fst snd st_os st_g]. unfold plain. fold k.
  destruct (e_tod e k) as [sec usec]. cbn beta iota.
  split; intros Hk.
  - rewrite Hk. cbn [Z.eqb]. rewrite bind_run, fatal_if_false. cbn beta iota.
    autorewrite with run. by eexists.
  - destruct (e_inject e k); [|done]. cbn [Z.eqb Pos.eqb]. rewrite bind_run.
    destruct (io_error_run (A:=unit) "gettimeofday" e (s0 (-1))) as (s1 & R1 & T1 & G1).
    unfold fatal_if. subst s0. cbn beta in *. rewrite R1. by exists s1.
Qed.

Lemma cpu_so_far_run e s :
  ∃ c r, cpu_so_far e s
    = (Ret c, State (counted (with_trace (st_os s)
          (trace (st_os s) ++ [EvSys (ncall (st_os s)) c_getrusage (f_pos (st_os s)) r])))
        (st_g s)).
Proof.
  unfold cpu_so_far, sys_getrusage, sys_plain.
  autorewrite with run. cbn [fst snd st_os st_g].
  destruct (e_rusage e (ncall (st_os s))) as [[a b] [c d]]. cbn beta iota.
  rewrite run_ret. by eexists _, _.
Qed.

(** X5.  The stop watch and the system.  [timestamp()] and [get_delta_t(test)]
    each call [gettimeofday] and then [getrusage], once.  When [gettimeofday]
    does not fail they return, whatever [getrusage] answers (its result is
    not looked at): [timestamp] leaves [delta] alone, and [get_delta_t]
    changes only the cells [delta[test][Elapsed]] and [delta[test][CPU]];
    both leave [basetime], [file_size] and [do_cleanup] as they were.  When
    [gettimeofday] fails, the process prints the diagnostic of [io_error]
    and exits with status 1 through the handler, without a call of
    [getrusage] and with the globals unchanged. *)
Theorem stop_watch_frame test e s :
  let k := ncall (st_os s) in
  let pos := f_pos (st_os s) in
  (e_inject e k = None ->
     (∃ s1 r, timestamp e s = (Ret tt, s1) ∧
        trace (st_os s1) = trace (st_os s)
          ++ [EvSys k c_gettimeofday pos 0; EvSys (S k) c_getrusage pos r] ∧
        delta (st_g s1) = delta (st_g s) ∧ basetime (st_g s1) = basetime (st_g s) ∧
        file_size (st_g s1) = file_size (st_g s) ∧ do_cleanup (st_g s1) = do_cleanup (st_g s)) ∧
     (∃ s1 r, get_delta_t test e s = (Ret tt, s1) ∧
        trace (st_os s1) = trace (st_os s)
          ++ [EvSys k c_gettimeofday pos 0; EvSys (S k) c_getrusage pos r] ∧
        (∀ w c, w ≠ test -> delta (st_g s1) w c = delta (st_g s) w c) ∧
        (∀ c, c ≠ Elapsed -> c ≠ CPU -> delta (st_g s1) test c = delta (st_g s) test c) ∧
        last_timestamp (st_g s1) = last_timestamp (st_g s) ∧
        last_cpustamp (st_g s1) = last_cpustamp (st_g s) ∧
        basetime (st_g s1) = basetime (st_g s) ∧
        file_size (st_g s1) = file_size (st_g s) ∧ do_cleanup (st_g s1) = do_cleanup (st_g s))) ∧
  (e_inject e k ≠ None ->
     ∃ s0 s1, timestamp e s = (Stop (Exited 1), s1) ∧
       get_delta_t test e s = (Stop (Exited 1), s1) ∧
       ncall (st_os s0) = S k ∧ f_exists (st_os s0) = f_exists (st_os s) ∧
       trace (st_os s1) = trace (st_os s)
         ++ EvSys k c_gettimeofday pos (-1) :: EvPerror (drastic "gettimeofday")
         :: exit_events e (st_os s0) (do_cleanup (st_g s)) 1 ∧
       st_g s1 = st_g s).
Proof.
  intros k pos. destruct (time_so_far_run e s) as [Hok Hfail]. split.
  - intros Hk. destruct (Hok Hk) as [t R]. split.
    + unfold timestamp. rewrite bind_run, R. cbn beta iota.
      rewrite bind_run, run_set_g. cbn beta iota. rewrite bind_run.
      match goal with |- context [cpu_so_far e ?s0] =>
        destruct (cpu_so_far_run e s0) as (c & r & ->) end.
      cbn beta iota. rewrite run_set_g. eexists _, r. split; [reflexivity|].
      cbn [st_os st_g trace counted with_trace ncall f_pos delta basetime file_size do_cleanup
           with_timestamp with_cpustamp].
      rewrite <- app_assoc. done.
    + unfold get_delta_t. rewrite bind_run, R. cbn beta iota.
      rewrite bind_run, run_set_g. cbn beta iota. rewrite bind_run.
      match goal with |- context [cpu_so_far e ?s0] =>
        destruct (cpu_so_far_run e s0) as (c & r & ->) end.
      cbn beta iota. rewrite run_set_g. eexists _, r. split; [reflexivity|].
      cbn [st_os st_g trace counted with_trace ncall f_pos delta basetime file_size do_cleanup
           with_delta last_timestamp last_cpustamp].
      rewrite <- app_assoc. split; [done|]. unfold store.
      split; [intros w c0 Hw; by rewrite !decide_False by done|].
      split; [|done]. intros c0 H1 H2. rewrite !decide_True by done.
      destruct (Z.eqb_spec c0 CPU); [done|]. by destruct (Z.eqb_spec c0 Elapsed).
  - intros Hk. destruct (Hfail Hk) as (s1 & R & T & G).
    exists (State (counted (with_trace (st_os s)
              (trace (st_os s) ++ [EvSys k c_gettimeofday pos (-1)]))) (st_g s)), s1.
    split; [unfold timestamp; by rewrite bind_run, R|].
    split; [unfold get_delta_t; by rewrite bind_run, R|].
    split; [done|]. split; [done|]. split; [|exact G].
    rewrite T. cbn [st_os trace counted with_trace]. by rewrite <- app_assoc.
Qed.

Lemma stop_watch_frame_witness :
  ∃ s1 r, get_delta_t FastWrite quiet_env (state0 100) = (Ret tt, s1) ∧
    trace (st_os s1) = [EvSys 0 c_gettimeofday 0 0; EvSys 1 c_getrusage 0 r] ∧
    ∀ w c, w ≠ FastWrite -> delta (st_g s1) w c = delta (st_g (state0 100)) w c.
Proof.
  destruct (proj2 (proj1 (stop_watch_frame FastWrite quiet_env (state0 100)) eq_refl))
    as (s1 & r & R & T & F & _).
  exists s1, r. split; [exact R|]. split; [exact T | exact F].
Defined.

(** * A usage error *)

Lemma usage_stop {A} e s w s' :
  @usage A e s = (Stop w, s') ->
  w = Exited 1 ∧
  trace (st_os s') = trace (st_os s)
    ++ EvStderr usage_text [] :: exit_events e (st_os s) (do_cleanup (st_g s)) 1.
Proof.
  destruct (usage_exit (A:=A) e s) as (s1 & R & Ht & Hg).
  rewrite R. intros [= <- <-]. eauto.
Qed.

(** The scan changes [file_size] only; when it stops, [usage] has stopped it. *)
Lemma scan_options_run fuel argv : ∀ next dir dr e s,
  (∃ d r s', scan_options fuel argv next dir dr e s = (Ret (d, r), s') ∧
     st_os s' = st_os s ∧ do_cleanup (st_g s') = do_cleanup (st_g s)) ∨
  (∃ s', scan_options fuel argv next dir dr e s = (Stop (Exited 1), s') ∧
     trace (st_os s') = trace (st_os s)
       ++ EvStderr usage_text [] :: exit_events e (st_os s) (do_cleanup (st_g s)) 1).
Proof.
  induction fuel as [|fuel IH]; intros next dir dr e s; cbn [scan_options].
  { left. rewrite run_ret. by eexists _, _, _. }
  destruct (next <? Z.of_nat (length argv) - 1); [|left; rewrite run_ret; by eexists _, _, _].
  destruct (decide (first_char (arg argv next) = Some "-"%char)) as [Hc|Hc].
  - rewrite bind_run.
    repeat case_decide; rewrite ?bind_run, ?run_ret, ?run_set_g; cbn beta iota;
      rewrite ?run_ret; cbn beta iota; try apply IH.
    + match goal with |- context [scan_options fuel argv ?n ?d ?r e ?s0] =>
        destruct (IH n d r e s0) as [(d' & r' & s' & R & Ho & Hd)|(s' & R & Ht)] end.
      * left. by eexists _, _, _.
      * right. by eexists.
    + right. destruct (usage_exit (A:=string * Z) e s) as (s' & -> & Ht & _). by eexists.
  - right. rewrite bind_run.
    destruct (usage_exit (A:=unit) e s) as (s' & -> & Ht & _). by eexists.
Qed.

(** X7.  A usage error still runs the exit handler.  Whenever the option
    handling stops, it stops with status 1, after the usage message and then
    what [cleanup] does: with [do_cleanup] set, an [unlink] and the report.
    So [main], when no call fails and an examined word is no known flag, does
    its five calls of set-up, prints the usage message, calls [unlink] (which
    fails, no file was made), prints the report table and exits with status
    1. *)
Theorem usage_error_runs_exit_handler :
  (∀ argv e s w s', parse_options argv e s = (Stop w, s') ->
     w = Exited 1 ∧
     trace (st_os s') = trace (st_os s)
       ++ EvStderr usage_text [] :: exit_events e (st_os s) (do_cleanup (st_g s)) 1) ∧
  (∀ fuel argv e p, calm e ->
     (∃ i, examined argv i ∧ ¬ recognised (arg argv i)) ->
     ∃ s', main fuel argv e (state0 p) = (Stop (Exited 1), s') ∧
       trace (st_os s') =
         [EvSys 0 c_atexit 0 0; EvSys 1 (c_signal "SIGINT") 0 0;
          EvSys 2 (c_signal "SIGTERM") 0 0; EvSys 3 (c_signal "SIGQUIT") 0 0;
          EvSys 4 c_time 0 (e_tod e 4).1;
          EvStderr usage_text []; EvSys 5 c_unlink 0 (-1); EvReport; EvExit 1]).
Proof.
  assert (First : ∀ argv e s w s', parse_options argv e s = (Stop w, s') ->
     w = Exited 1 ∧
     trace (st_os s') = trace (st_os s)
       ++ EvStderr usage_text [] :: exit_events e (st_os s) (do_cleanup (st_g s)) 1).
  { intros argv e s w s'. unfold parse_options. rewrite bind_run.
    destruct (scan_options_run (length argv) argv 1 "." 0 e s)
      as [(d & r & s1 & -> & Ho & Hd)|(s1 & -> & Ht)].
    - cbn beta iota. rewrite bind_run, run_get_g. cbn beta iota.
      destruct (file_size (st_g s1) <? 1).
      + rewrite bind_run. intros H.
        destruct (@usage unit e s1) as [[[]|w0] s0] eqn:E.
        * destruct (usage_exit (A:=unit) e s1) as (? & R & _). congruence.
        * injection H as <- <-. apply usage_stop in E. by rewrite Ho, Hd in E.
      + rewrite bind_run, run_skip. cbn beta iota. rewrite bind_run, run_set_g.
        cbn beta iota. by rewrite run_ret.
    - by intros [= <- <-]. }
  split; [exact First|].
  intros fuel argv e p Hc (i & Hex & Hnr).
  unfold main, sequential_phases, sys_atexit, sys_signal, sys_time, sys_plain.
  repeat first
    [ rewrite bind_run | rewrite run_syscall | rewrite run_set_g | rewrite run_skip
    | rewrite plain_calm by done | rewrite (Hc _)
    | progress cbn [fst snd st_os st_g Z.eqb nonzero negb default from_option] ].
  match goal with |- context [parse_options argv e ?s0] =>
    destruct (proj1 (scan_options_spec (length argv) argv 1 "." 0 e s0
                       eq_refl ltac:(lia) ltac:(lia))) as (s1 & evs & R & _);
      [exists i; split; [apply Hex | done] |];
    destruct (parse_options argv e s0) as [[a|w] s'] eqn:E end.
  { unfold parse_options in E. rewrite bind_run, R in E. done. }
  apply First in E as [-> Ht]. eexists. split; [reflexivity|].
  rewrite Ht. cbn. unfold exit_events. cbn. by rewrite plain_calm.
Qed.

Lemma usage_error_runs_exit_handler_witness :
  ∃ s', main 0 ["bonnie"; "-x"; "y"] quiet_env (state0 100) = (Stop (Exited 1), s') ∧
    trace (st_os s') =
      [EvSys 0 c_atexit 0 0; EvSys 1 (c_signal "SIGINT") 0 0;
       EvSys 2 (c_signal "SIGTERM") 0 0; EvSys 3 (c_signal "SIGQUIT") 0 0;
       EvSys 4 c_time 0 (e_tod quiet_env 4).1;
       EvStderr usage_text []; EvSys 5 c_unlink 0 (-1); EvReport; EvExit 1].
Proof.
  apply (proj2 usage_error_runs_exit_handler 0%nat ["bonnie"; "-x"; "y"] quiet_env 100).
  - intros k. reflexivity.
  - exists 1. split; [split; [simpl; lia | reflexivity]|].
    intros [H|[H|[H|H]]]; discriminate H.
Defined.

(** * The options taken *)

Lemma flag_word s f :
  first_char s = Some "-"%char -> (after_first s = f <-> s = String "-" f).
Proof.
  intros Hc. destruct s as [|c s]; [done|]. cbn in *. simplify_eq.
  split; [by intros -> | by intros [= ->]].
Qed.

Lemma odd_step next i :
  Z.odd next = true -> Z.odd i = true -> next <= i -> i ≠ next -> next + 1 + 1 <= i.
Proof.
  intros Hodd Hio Hi Hne. destruct (Z.eq_dec i (next + 1)) as [->|]; [|lia].
  replace (next + 1) with (Z.succ next) in Hio by lia.
  rewrite Z.odd_succ in Hio. rewrite <- Z.negb_odd in Hio. rewrite Hodd in Hio. done.
Qed.

Lemma chosen_here {A} argv flag next (f : Z -> A) init v :
  examined argv next -> arg argv next = flag ->
  chosen argv flag (next + 1 + 1) f (f next) v -> chosen argv flag next f init v.
Proof.
  intros Hex Hf [[-> Hno]|(i & Hi & Hexi & Hfi & Hlast & ->)].
  - right. exists next. split; [lia|]. split; [done|]. split; [done|]. split; [|done].
    intros j Hj Hexj. apply Hno; [|done].
    apply odd_step; [apply Hex | apply Hexj | lia | lia].
  - right. exists i. split; [lia|]. done.
Qed.

Lemma chosen_skip {A} argv flag next (f : Z -> A) init v :
  Z.odd next = true -> arg argv next ≠ flag ->
  chosen argv flag (next + 1 + 1) f init v -> chosen argv flag next f init v.
Proof.
  intros Hodd Hf [[-> Hno]|(i & Hi & Hexi & Hfi & Hlast & ->)].
  - left. split; [done|]. intros i Hi Hexi.
    destruct (decide (i = next)) as [->|Hne]; [done|].
    apply Hno; [|done]. apply odd_step; [done | apply Hexi | done | done].
  - right. exists i. split; [lia|]. done.
Qed.

Lemma chosen_none {A} argv flag next (f : Z -> A) init :
  ¬ (next < Z.of_nat (length argv) - 1) -> chosen argv flag next f init init.
Proof. intros Hn. left. split; [done|]. intros i Hi [Hex _]. lia. Qed.

Lemma scan_options_chosen fuel argv : ∀ next dir dr e s d r s',
  Z.odd next = true -> 1 <= next -> Z.of_nat (length argv) - next <= Z.of_nat fuel ->
  scan_options fuel argv next dir dr e s = (Ret (d, r), s') ->
  chosen argv "-d" next (λ i, arg argv (i + 1)) dir d ∧
  chosen argv "-r" next (λ _, 1) dr r ∧
  chosen argv "-s" next (λ i, atoll (arg argv (i + 1))) (file_size (st_g s))
    (file_size (st_g s')) ∧
  (∀ i, next <= i -> examined argv i -> recognised (arg argv i)).
Proof.
  induction fuel as [|fuel IH]; intros next dir dr e s d r s' Hodd Hge Hfuel H;
    cbn [scan_options] in H.
  { rewrite run_ret in H. injection H as <- <- <-.
    repeat split; try (apply chosen_none; lia). intros i Hi [Hex _]. lia. }
  destruct (Z.ltb_spec next (Z.of_nat (length argv) - 1)) as [Hlt|Hnlt].
  2:{ rewrite run_ret in H. injection H as <- <- <-.
      repeat split; try (apply chosen_none; lia). intros i Hi [Hex _]. lia. }
  assert (Hex : examined argv next) by (split; [lia | done]).
  assert (Hodd2 : Z.odd (next + 1 + 1) = true).
  { replace (next + 1 + 1) with (Z.succ (Z.succ next)) by lia. by rewrite Z.odd_succ_succ. }
  destruct (decide (first_char (arg argv next) = Some "-"%char)) as [Hc|Hc].
  2:{ rewrite bind_run in H.
      destruct (usage_exit (A:=unit) e s) as (? & R & _). by rewrite R in H. }
  pose proof (flag_word (arg argv next) "d" Hc) as Fd.
  pose proof (flag_word (arg argv next) "s" Hc) as Fs.
  pose proof (flag_word (arg argv next) "m" Hc) as Fm.
  pose proof (flag_word (arg argv next) "r" Hc) as Fr.
  assert (Rest : ∀ i, next + 1 + 1 <= i ∨ i = next ->
            (∀ j, next + 1 + 1 <= j -> examined argv j -> recognised (arg argv j)) ->
            recognised (arg argv next) ->
            ∀ i, next <= i -> examined argv i -> recognised (arg argv i)).
  { intros _ _ Hall Hrec i Hi Hexi. destruct (decide (i = next)) as [->|Hne]; [done|].
    apply Hall; [|done]. apply odd_step; [done | apply Hexi | done | done]. }
  rewrite bind_run in H.
  destruct (decide (after_first (arg argv next) = "d")) as [Ed|Ed].
  { rewrite run_ret in H. cbn beta iota in H.
    apply IH in H as (Hd & Hr & Hs & Hall); [|done|lia|lia].
    apply Fd in Ed.
    split; [by apply (chosen_here argv "-d" next (λ i, arg argv (i + 1)))|].
    split; [apply chosen_skip; [done | by rewrite Ed | done]|].
    split; [apply chosen_skip; [done | by rewrite Ed | done]|].
    apply (Rest next); [by right | done |]. rewrite Ed. by left. }
  destruct (decide (after_first (arg argv next) = "s")) as [Es|Es].
  { rewrite bind_run, run_set_g in H. cbn beta iota in H. rewrite run_ret in H.
    cbn beta iota in H.
    apply IH in H as (Hd & Hr & Hs & Hall); [|done|lia|lia].
    apply Fs in Es. cbn [st_g file_size with_file_size] in Hs.
    split; [apply chosen_skip; [done | by rewrite Es | done]|].
    split; [apply chosen_skip; [done | by rewrite Es | done]|].
    split; [by apply (chosen_here argv "-s" next (λ i, atoll (arg argv (i + 1))))|].
    apply (Rest next); [by right | done |]. rewrite Es. right. by left. }
  destruct (decide (after_first (arg argv next) = "m")) as [Em|Em].
  { rewrite run_ret in H. cbn beta iota in H.
    apply IH in H as (Hd & Hr & Hs & Hall); [|done|lia|lia].
    apply Fm in Em.
    split; [apply chosen_skip; [done | by rewrite Em | done]|].
    split; [apply chosen_skip; [done | by rewrite Em | done]|].
    split; [apply chosen_skip; [done | by rewrite Em | done]|].
    apply (Rest next); [by right | done |]. rewrite Em. right. right. by left. }
  destruct (decide (after_first (arg argv next) = "r")) as [Er|Er].
  { rewrite run_ret in H. cbn beta iota in H.
    apply IH in H as (Hd & Hr & Hs & Hall); [|done|lia|lia].
    apply Fr in Er.
    split; [apply chosen_skip; [done | by rewrite Er | done]|].
    split; [by apply (chosen_here argv "-r" next (λ _, 1))|].
    split; [apply chosen_skip; [done | by rewrite Er | done]|].
    apply (Rest next); [by right | done |]. rewrite Er. right. right. by right. }
  destruct (usage_exit (A:=string * Z) e s) as (? & R & _). by rewrite R in H.
Qed.

(** X8.  When the option handling returns, every examined word was a known
    flag, and each option has what its last examined occurrence gives: the
    directory is the word after the last [-d], or ["."] without one;
    [do_random] is 1 if there is a [-r] and 0 otherwise; [file_size] is
    [atoll] of the word after the last [-s] (or the size before the scan),
    which is at least 1, times 2^30 in 64 bits.  [-m] changes none of them,
    and no call is made. *)
Theorem last_option_wins argv e s d r s' :
  parse_options argv e s = (Ret (d, r), s') ->
  chosen argv "-d" 1 (λ i, arg argv (i + 1)) "." d ∧
  chosen argv "-r" 1 (λ _, 1) 0 r ∧
  (∃ size, chosen argv "-s" 1 (λ i, atoll (arg argv (i + 1))) (file_size (st_g s)) size ∧
     1 <= size ∧ file_size (st_g s') = int64 (size * (1024 * 1024 * 1024))) ∧
  (∀ i, examined argv i -> recognised (arg argv i)) ∧
  st_os s' = st_os s.
Proof.
  unfold parse_options. intros H.
  peel_as H dr s1 E. destruct dr as [d1 r1].
  assert (Ho : st_os s1 = st_os s).
  { destruct (scan_options_run (length argv) argv 1 "." 0 e s)
      as [(? & ? & ? & R & Ho & _)|(? & R & _)]; rewrite R in E; by simplify_eq. }
  apply scan_options_chosen in E as (Hd & Hr & Hs & Hall); [|done|lia|lia].
  rewrite bind_run, run_get_g in H. cbn beta iota in H.
  destruct (Z.ltb_spec (file_size (st_g s1)) 1) as [Hlt|Hge].
  { rewrite bind_run in H. destruct (usage_exit (A:=unit) e s1) as (? & R & _).
    by rewrite R in H. }
  rewrite bind_run, run_skip in H. cbn beta iota in H.
  rewrite bind_run, run_set_g in H. cbn beta iota in H. rewrite run_ret in H.
  injection H as <- <- <-. cbn [st_os st_g file_size with_file_size].
  split; [done|]. split; [done|]. split; [by exists (file_size (st_g s1))|].
  split; [|done]. intros i Hex. apply Hall; [apply Hex | done].
Qed.

Lemma last_option_wins_witness :
  ∃ s', parse_options ["bonnie"; "-d"; "/a"; "-r"; "x"; "-d"; "/b"; "-s"; "2"; "-s"]
          quiet_env (state0 100) = (Ret ("/b", 1), s') ∧
    chosen ["bonnie"; "-d"; "/a"; "-r"; "x"; "-d"; "/b"; "-s"; "2"; "-s"] "-d" 1
      (λ i, arg ["bonnie"; "-d"; "/a"; "-r"; "x"; "-d"; "/b"; "-s"; "2"; "-s"] (i + 1))
      "." "/b".
Proof.
  eexists. split; [reflexivity|].
  eapply (last_option_wins ["bonnie"; "-d"; "/a"; "-r"; "x"; "-d"; "/b"; "-s"; "2"; "-s"]
            quiet_env (state0 100) "/b" 1).
  reflexivity.
Defined.

(** * Who unlinks and reports *)

Lemma discreet_bind {A B} (m : M A) (f : A -> M B) :
  discreet m -> (∀ a, discreet (f a)) -> discreet (m ≫= f).
Proof.
  intros Hm Hf e s Hs. rewrite bind_run.
  destruct (Hm e s Hs) as (evs & Ht & Hev & Hd).
  destruct (m e s) as [[a|w] s1]; cbn [snd] in *.
  - destruct (Hf a e s1 Hd) as (evs' & Ht' & Hev' & Hd').
    exists (evs ++ evs'). rewrite Ht', Ht, app_assoc. split; [done|].
    split; [by apply Forall_app | done].
  - by exists evs.
Qed.
Lemma discreet_ret {A} (a : A) : discreet (mret a).
Proof. intros e s Hs. exists []. rewrite run_ret, app_nil_r. by repeat split. Qed.
Lemma discreet_halt {A} w : discreet (@halt A w).
Proof. intros e s Hs. exists []. rewrite run_halt, app_nil_r. by repeat split. Qed.
Lemma discreet_syscall c sem : c ≠ c_unlink -> discreet (syscall c sem).
Proof.
  intros Hc e s Hs. rewrite run_syscall. cbn [snd st_os st_g trace counted with_trace].
  eexists. split; [reflexivity|]. split; [|done].
  repeat constructor. by destruct c.
Qed.
Lemma discreet_log ev : cleanup_event ev = false -> discreet (log ev).
Proof.
  intros Hev e s Hs. rewrite run_log. cbn [snd st_os st_g trace with_trace].
  eexists. split; [reflexivity|]. split; [|done]. by repeat constructor.
Qed.
Lemma discreet_get_g {A} (f : globals -> A) : discreet (get_g f).
Proof. intros e s Hs. exists []. rewrite run_get_g, app_nil_r. by repeat split. Qed.
Lemma discreet_get_os {A} (f : os -> A) : discreet (get_os f).
Proof. intros e s Hs. exists []. rewrite run_get_os, app_nil_r. by repeat split. Qed.
Lemma discreet_ask {A} (f : env -> A) : discreet (ask f).
Proof. intros e s Hs. exists []. rewrite run_ask, app_nil_r. by repeat split. Qed.
Lemma discreet_random : discreet c_random.
Proof. intros e s Hs. exists []. rewrite run_random, app_nil_r. by repeat split. Qed.
Lemma discreet_set_g f :
  (∀ g, do_cleanup g = 0 -> do_cleanup (f g) = 0) -> discreet (set_g f).
Proof.
  intros Hf e s Hs. exists []. rewrite run_set_g, app_nil_r. cbn. split; [done|].
  split; [done|]. by apply Hf.
Qed.

Lemma discreet_c_exit {A} status : discreet (@c_exit A status).
Proof.
  intros e s Hs. destruct (c_exit_run (A:=A) status e s) as (s' & R & Ht & Hg).
  rewrite R. cbn [snd]. rewrite Ht, Hg. unfold exit_events. rewrite Hs.
  eexists. split; [reflexivity|]. split; [by repeat constructor | done].
Qed.

Create HintDb discreet discriminated.

Ltac discreet_step :=
  lazymatch goal with
  | |- discreet (_ ≫= _) => apply discreet_bind; [|intros ?]
  | |- discreet (mret _) => apply discreet_ret
  | |- discreet skip => apply discreet_ret
  | |- discreet (halt _) => apply discreet_halt
  | |- discreet (c_exit _) => apply discreet_c_exit
  | |- discreet (syscall _ _) => apply discreet_syscall; discriminate
  | |- discreet (get_g _) => apply discreet_get_g
  | |- discreet (get_os _) => apply discreet_get_os
  | |- discreet (ask _) => apply discreet_ask
  | |- discreet c_random => apply discreet_random
  | |- discreet (log _) => apply discreet_log; reflexivity
  | |- discreet (set_g _) => apply discreet_set_g; intros ? ?; assumption
  | |- discreet (if ?b then _ else _) => destruct b
  | |- discreet (let '(_, _) := ?p in _) => destruct p
  | |- discreet _ => solve [auto with discreet]
  end.
Ltac discreet_tac := repeat discreet_step.

Lemma discreet_fatal_if b message : discreet (fatal_if b message).
Proof. unfold fatal_if, io_error, perror. discreet_tac. Qed.
Lemma discreet_time_so_far : discreet time_so_far.
Proof.
  unfold time_so_far, sys_gettimeofday, sys_plain, fatal_if, io_error, perror. discreet_tac.
Qed.
Lemma discreet_cpu_so_far : discreet cpu_so_far.
Proof. unfold cpu_so_far, sys_getrusage, sys_plain. discreet_tac. Qed.
#[export] Hint Resolve discreet_fatal_if discreet_time_so_far discreet_cpu_so_far : discreet.
Lemma discreet_timestamp : discreet timestamp.
Proof. unfold timestamp. discreet_tac. Qed.
Lemma discreet_get_delta_t test : discreet (get_delta_t test).
Proof. unfold get_delta_t. discreet_tac. Qed.
Lemma discreet_open fd : discreet (newfile fd false).
Proof. unfold newfile, sys_open, sys_fdopen, sys_plain. cbn beta iota. discreet_tac. Qed.
Lemma discreet_sys_read_ticket old : discreet (sys_read_ticket old).
Proof. unfold sys_read_ticket. discreet_tac. Qed.
Lemma discreet_doseek w fd u t : discreet (doseek w fd u t).
Proof.
  unfold doseek, uninit, sys_lseek, sys_read, sys_write, sys_fsync, sys_plain. discreet_tac.
Qed.
#[export] Hint Resolve discreet_timestamp discreet_get_delta_t discreet_open
  discreet_sys_read_ticket discreet_doseek : discreet.
Lemma discreet_seek_loop fuel fd do_write : ∀ ticket lseek_count,
  discreet (seek_loop fuel fd do_write ticket lseek_count).
Proof.
  induction fuel as [|fuel IH]; intros ticket lseek_count; cbn [seek_loop]; discreet_tac.
Qed.
#[export] Hint Resolve discreet_seek_loop : discreet.

Lemma seeker_discreet_run fuel do_write whereto next tickets rep e s :
  ∃ evs, trace (st_os (seeker fuel do_write whereto next tickets rep e s).2)
      = trace (st_os s) ++ evs ∧
    Forall (λ ev, cleanup_event ev = false) evs ∧
    do_cleanup (st_g (seeker fuel do_write whereto next tickets rep e s).2) = 0.
Proof.
  unfold seeker. rewrite bind_run, run_set_g. cbn beta iota.
  match goal with |- context [?m e (State (st_os s) ?g)] =>
    assert (D : discreet m);
      [|destruct (D e (State (st_os s) g) eq_refl) as (evs & Ht & Hev & Hd); by exists evs]
  end.
  unfold sys_close_pipe, sys_getpid, sys_fsync, sys_close, sys_write_report, sys_plain,
    fprintf_stderr, perror.
  discreet_tac.
Qed.

(** X9.  A seeker never unlinks the benchmark file and never prints the
    report: every run of the child's code, from any state and under any
    environment, stops, adds to the trace no [unlink] and no report, and
    leaves [do_cleanup] at 0. *)
Theorem seeker_never_cleans_up fuel do_write whereto next tickets rep e s :
  ∃ w s' evs, seeker fuel do_write whereto next tickets rep e s = (Stop w, s') ∧
    trace (st_os s') = trace (st_os s) ++ evs ∧
    Forall (λ ev, cleanup_event ev = false) evs ∧
    do_cleanup (st_g s') = 0.
Proof.
  destruct (nr_seeker fuel do_write whereto next tickets rep e s) as (w & s' & R).
  destruct (seeker_discreet_run fuel do_write whereto next tickets rep e s)
    as (evs & Ht & Hev & Hd).
  rewrite R in Ht, Hd. by exists w, s', evs.
Qed.

Lemma tidy_bind {A B} (m : M A) (f : A -> M B) :
  tidy m -> (∀ a, tidy (f a)) -> tidy (m ≫= f).
Proof. intros Hm Hf e. eapply tr_bind; [apply Hm | intros a; apply Hf]. Qed.
Lemma tidy_ret {A} (a : A) : tidy (mret a).
Proof. intros e s Hs. exact Hs. Qed.
Lemma tidy_halt {A} w : (∀ status, w ≠ Exited status) -> tidy (@halt A w).
Proof. intros Hw e s Hs status ->. by destruct (Hw status). Qed.
Lemma tidy_syscall c sem : tidy (syscall c sem).
Proof. intros e s Hs. rewrite run_syscall. exact Hs. Qed.
Lemma tidy_log ev : tidy (log ev).
Proof. intros e s Hs. exact Hs. Qed.
Lemma tidy_get_g {A} (f : globals -> A) : tidy (get_g f).
Proof. intros e s Hs. exact Hs. Qed.
Lemma tidy_get_os {A} (f : os -> A) : tidy (get_os f).
Proof. intros e s Hs. exact Hs. Qed.
Lemma tidy_ask {A} (f : env -> A) : tidy (ask f).
Proof. intros e s Hs. exact Hs. Qed.
Lemma tidy_random : tidy c_random.
Proof. intros e s Hs. exact Hs. Qed.
Lemma tidy_set_g f : (∀ g, do_cleanup (f g) = do_cleanup g) -> tidy (set_g f).
Proof. intros Hf e s Hs. unfold coordinator. cbn. by rewrite Hf. Qed.

Lemma tidy_c_exit {A} status : status = 0 ∨ status = 1 -> tidy (@c_exit A status).
Proof.
  intros H01 e s Hs. destruct (c_exit_run (A:=A) status e s) as (s' & R & Ht & Hg).
  rewrite R. intros ? [= <-]. right. left. split; [done|].
  unfold exit_events in Ht. unfold coordinator in Hs.
  assert (E : nonzero (do_cleanup (st_g s)) = true).
  { unfold nonzero. by destruct (Z.eqb_spec (do_cleanup (st_g s)) 0). }
  rewrite E in Ht. by eexists _, _, _, _.
Qed.

Lemma tidy_unregistered {A} : tidy (perror "atexit(3)";; @c_exit_bare A 1).
Proof.
  intros e s Hs. unfold perror, c_exit_bare. autorewrite with run.
  intros status [= <-]. right. right. split; [done|].
  exists (trace (st_os s)). cbn. by rewrite <- app_assoc.
Qed.

Lemma tidy_seeker fuel do_write whereto next tickets rep :
  tidy (seeker fuel do_write whereto next tickets rep).
Proof.
  intros e s Hs.
  destruct (nr_seeker fuel do_write whereto next tickets rep e s) as (w & s' & R).
  destruct (seeker_discreet_run fuel do_write whereto next tickets rep e s)
    as (evs & _ & _ & Hd).
  rewrite R in Hd |- *. intros status _. by left.
Qed.

Create HintDb tidy discriminated.

Ltac tidy_step :=
  lazymatch goal with
  | |- tidy (perror "atexit(3)" ≫= _) => apply tidy_unregistered
  | |- tidy (_ ≫= _) => apply tidy_bind; [|intros ?]
  | |- tidy (mret _) => apply tidy_ret
  | |- tidy skip => apply tidy_ret
  | |- tidy (halt _) => apply tidy_halt; discriminate
  | |- tidy (c_exit _) => apply tidy_c_exit; auto
  | |- tidy (seeker _ _ _ _ _ _) => apply tidy_seeker
  | |- tidy (syscall _ _) => apply tidy_syscall
  | |- tidy (get_g _) => apply tidy_get_g
  | |- tidy (get_os _) => apply tidy_get_os
  | |- tidy (ask _) => apply tidy_ask
  | |- tidy c_random => apply tidy_random
  | |- tidy (log _) => apply tidy_log
  | |- tidy (perror _) => apply tidy_log
  | |- tidy (set_g _) => apply tidy_set_g; intros ?; reflexivity
  | |- tidy (if ?b then _ else _) => destruct b
  | |- tidy (let '(_, _) := ?p in _) => destruct p
  | |- tidy _ => solve [auto with tidy]
  end.
Ltac tidy_tac := repeat tidy_step.

Lemma tidy_fatal_if b message : tidy (fatal_if b message).
Proof. unfold fatal_if, io_error, perror. tidy_tac. Qed.
Lemma tidy_usage {A} : tidy (@usage A).
Proof. unfold usage, fprintf_stderr. tidy_tac. Qed.
Lemma tidy_sys_plain c ok failure : tidy (sys_plain c ok failure).
Proof. unfold sys_plain. tidy_tac. Qed.
#[export] Hint Resolve tidy_fatal_if tidy_usage tidy_sys_plain : tidy.
Lemma tidy_sys_read fd buf count : tidy (sys_read fd buf count).
Proof. unfold sys_read. tidy_tac. Qed.
Lemma tidy_time_so_far : tidy time_so_far.
Proof. unfold time_so_far, sys_gettimeofday. tidy_tac. Qed.
Lemma tidy_cpu_so_far : tidy cpu_so_far.
Proof. unfold cpu_so_far, sys_getrusage. tidy_tac. Qed.
#[export] Hint Resolve tidy_sys_read tidy_time_so_far tidy_cpu_so_far : tidy.
Lemma tidy_timestamp : tidy timestamp.
Proof. unfold timestamp. tidy_tac. Qed.
Lemma tidy_get_delta_t test : tidy (get_delta_t test).
Proof. unfold get_delta_t. tidy_tac. Qed.
Lemma tidy_newfile fd create : tidy (newfile fd create).
Proof. unfold newfile, sys_unlink, sys_open, sys_fdopen. tidy_tac. Qed.
Lemma tidy_randomize_from n : ∀ i buf, tidy (randomize_from n i buf).
Proof. induction n as [|n IH]; intros i buf; cbn [randomize_from]; tidy_tac. Qed.
#[export] Hint Resolve tidy_timestamp tidy_get_delta_t tidy_newfile tidy_randomize_from : tidy.
Lemma tidy_maybe_randomize do_random buf : tidy (maybe_randomize do_random buf).
Proof. unfold maybe_randomize, randomize_buffer. tidy_tac. Qed.
#[export] Hint Resolve tidy_maybe_randomize : tidy.
Lemma tidy_write_loop fuel : ∀ fd do_random words bufindex buf,
  tidy (write_loop fuel fd do_random words bufindex buf).
Proof.
  induction fuel as [|fuel IH]; intros fd do_random words bufindex buf; cbn [write_loop];
    unfold sys_write; tidy_tac.
Qed.
Lemma tidy_rewrite_loop fuel : ∀ fd do_random words bufindex buf,
  tidy (rewrite_loop fuel fd do_random words bufindex buf).
Proof.
  induction fuel as [|fuel IH]; intros fd do_random words bufindex buf; cbn [rewrite_loop];
    unfold sys_write, sys_lseek; tidy_tac.
Qed.
Lemma tidy_read_loop fuel : ∀ fd buf, tidy (read_loop fuel fd buf).
Proof. induction fuel as [|fuel IH]; intros fd buf; cbn [read_loop]; tidy_tac. Qed.
Lemma tidy_scan_options fuel argv : ∀ next dir do_random,
  tidy (scan_options fuel argv next dir do_random).
Proof.
  induction fuel as [|fuel IH]; intros next dir do_random; cbn [scan_options]; tidy_tac.
Qed.
Lemma tidy_spawn n : ∀ next child, (∀ i, tidy (child i)) -> tidy (spawn n next child).
Proof.
  induction n as [|n IH]; intros next child Hch; cbn [spawn];
    unfold sys_fork, io_error, perror; tidy_tac.
Qed.
Lemma tidy_collect n : ∀ next whereto rep fl, tidy (collect n next whereto rep fl).
Proof.
  induction n as [|n IH]; intros next whereto rep fl; cbn [collect];
    unfold sys_read_report, sys_wait, fprintf_stderr; tidy_tac.
Qed.
#[export] Hint Resolve tidy_write_loop tidy_rewrite_loop tidy_read_loop tidy_scan_options
  tidy_collect : tidy.

Lemma tidy_do_seekstuff fuel do_write whereto : tidy (do_seekstuff fuel do_write whereto).
Proof.
  unfold do_seekstuff, uninit, sys_system, sys_pipe, sys_close_pipe, sys_sleep,
    sys_write_tickets, fprintf_stderr.
  repeat first [ apply tidy_spawn; intros ?; apply tidy_seeker | tidy_step ].
Qed.

Lemma tidy_sequential_phases fuel argv : tidy (sequential_phases fuel argv).
Proof.
  unfold sequential_phases, parse_options, write_phase, rewrite_phase, read_phase,
    sys_atexit, sys_signal, sys_time, sys_getpid, sys_system, sys_lseek, sys_fsync,
    sys_close, uninit, fprintf_stderr.
  tidy_tac.
Qed.

Lemma tidy_main fuel argv : tidy (main fuel argv).
Proof.
  unfold main.
  repeat first [ apply tidy_sequential_phases | apply tidy_do_seekstuff | tidy_step ].
Qed.

(** X10.  Every exit of the coordinator goes through the handler.  A run of
    [main], started with [do_cleanup] set, never returns to its caller: it
    stops.  When it stops in an exit, then either the process is a seeker
    ([do_cleanup] is 0), or the status is 0 (the [return 0] of [main]) or 1
    and the trace ends with the [unlink], the report and the exit, or
    [atexit] had failed and the trace ends with its message and
    [exit(1)]. *)
Theorem exit_cleans_up fuel argv e s :
  do_cleanup (st_g s) ≠ 0 ->
  ∃ w s', main fuel argv e s = (Stop w, s') ∧
    ∀ status, w = Exited status ->
      do_cleanup (st_g s') = 0 ∨
      (status = 0 ∨ status = 1) ∧ cleaned status (trace (st_os s')) ∨
      status = 1 ∧ unregistered (trace (st_os s')).
Proof.
  intros Hs.
  assert (N : never_returns (main fuel argv)).
  { unfold main. do 3 (apply nr_bind; intros ?). apply nr_c_exit. }
  destruct (N e s) as (w & s' & R). exists w, s'. split; [exact R|].
  pose proof (tidy_main fuel argv e s Hs) as H. rewrite R in H. exact H.
Qed.

Lemma exit_cleans_up_witness :
  ∃ w s', main 0 ["bonnie"; "-x"; "y"] quiet_env (state0 100) = (Stop w, s') ∧
    ∀ status, w = Exited status ->
      do_cleanup (st_g s') = 0 ∨
      (status = 0 ∨ status = 1) ∧ cleaned status (trace (st_os s')) ∨
      status = 1 ∧ unregistered (trace (st_os s')).
Proof.
  apply (exit_cleans_up 0%nat ["bonnie"; "-x"; "y"] quiet_env (state0 100)).
  intros H. discriminate H.
Defined.

(** * The sequential phases when no call fails *)

Lemma file_reads_app tr1 tr2 : file_reads (tr1 ++ tr2) = file_reads tr1 ++ file_reads tr2.
Proof. apply omap_app. Qed.

Lemma kin_refl s : kin s s.
Proof. done. Qed.
Lemma kin_trans s s1 s2 : kin s s1 -> kin s1 s2 -> kin s s2.
Proof. unfold kin. intros (-> & -> & ->) (-> & -> & ->). done. Qed.
Lemma written_app tr1 tr2 : written (tr1 ++ tr2) = written tr1 ++ written tr2.
Proof. unfold written. by rewrite file_writes_app, fmap_app. Qed.

Lemma logged_trans s s1 s2 w r w' r' :
  logged s s1 w r -> logged s1 s2 w' r' -> logged s s2 (w ++ w') (r ++ r').
Proof.
  intros (evs & Ht & Hw & Hr) (evs' & Ht' & Hw' & Hr'). exists (evs ++ evs').
  rewrite Ht', Ht, app_assoc, written_app, file_reads_app, Hw, Hw', Hr, Hr'. done.
Qed.
Lemma silent_same s s1 : trace (st_os s1) = trace (st_os s) -> silent s s1.
Proof. intros Ht. exists []. by rewrite app_nil_r. Qed.
Lemma silent_refl s : silent s s.
Proof. by apply silent_same. Qed.
Lemma silent_trans s s1 s2 : silent s s1 -> silent s1 s2 -> silent s s2.
Proof. apply logged_trans. Qed.
Lemma silent_then s s1 s2 w r : silent s s1 -> logged s1 s2 w r -> logged s s2 w r.
Proof. apply logged_trans. Qed.
Lemma then_silent s s1 s2 w r : logged s s1 w r -> silent s1 s2 -> logged s s2 w r.
Proof. intros H1 H2. pose proof (logged_trans _ _ _ _ _ _ _ H1 H2) as H. by rewrite !app_nil_r in H. Qed.
Lemma aside_refl s : aside s s.
Proof. split; [apply kin_refl|]. split; [done | apply silent_refl]. Qed.
Lemma aside_trans s s1 s2 : aside s s1 -> aside s1 s2 -> aside s s2.
Proof.
  intros (K & (F1 & F2 & F3) & S) (K' & (F1' & F2' & F3') & S').
  split; [by eapply kin_trans|]. split; [|by eapply silent_trans].
  unfold file_kept. by rewrite F1', F2', F3'.
Qed.

Lemma silent_sys s k c pos r o g :
  transfers c = false ->
  silent s (State (counted (with_trace o (trace (st_os s) ++ [EvSys k c pos r]))) g).
Proof. intros Hc. exists [EvSys k c pos r]. split; [done|]. by destruct c. Qed.

Lemma sys_plain_aside c ok failure e s :
  calm e -> transfers c = false ->
  ∃ s1, sys_plain c ok failure e s = (Ret ok, s1) ∧ aside s s1.
Proof.
  intros Hc Hx. unfold sys_plain. rewrite run_syscall. cbn [fst snd].
  rewrite plain_calm by done. eexists. split; [reflexivity|].
  split; [done|]. split; [done|]. apply silent_sys. exact Hx.
Qed.

Lemma sys_signal_aside signum e s :
  calm e -> ∃ s1, sys_signal signum e s = (Ret 0, s1) ∧ aside s s1.
Proof.
  intros Hc. unfold sys_signal. rewrite run_syscall. cbn [fst snd]. rewrite (Hc _).
  eexists. split; [reflexivity|]. split; [done|]. split; [done|]. by apply silent_sys.
Qed.

Lemma log_aside ev e s :
  (∀ k c pos r, ev ≠ EvSys k c pos r) -> ∃ s1, log ev e s = (Ret tt, s1) ∧ aside s s1.
Proof.
  intros Hev. rewrite run_log. eexists. split; [reflexivity|].
  split; [done|]. split; [done|]. exists [ev]. split; [done|].
  destruct ev; try done. by edestruct Hev.
Qed.

Lemma set_g_aside f e s :
  (∀ g, file_size (f g) = file_size g) -> ∃ s1, set_g f e s = (Ret tt, s1) ∧ aside s s1.
Proof.
  intros Hf. rewrite run_set_g. eexists. split; [reflexivity|].
  split; [by repeat split; cbn|]. split; [done | by apply silent_same].
Qed.

Lemma time_so_far_aside e s :
  calm e -> ∃ t s1, time_so_far e s = (Ret t, s1) ∧ aside s s1.
Proof.
  intros Hc. unfold time_so_far, sys_gettimeofday.
  rewrite !bind_run, run_get_os. cbn beta iota. rewrite bind_run.
  destruct (sys_plain_aside c_gettimeofday 0 (-1) e s Hc eq_refl) as (s1 & R & A).
  rewrite R. cbn beta iota. rewrite bind_run, run_ask. cbn beta iota. rewrite run_ret.
  destruct (e_tod e (ncall (st_os s))) as [sec usec]. cbn [Z.eqb].
  rewrite bind_run, fatal_if_false. cbn beta iota. rewrite bind_run, run_get_g.
  cbn beta iota. rewrite run_ret. eauto.
Qed.

Lemma cpu_so_far_aside e s :
  calm e -> ∃ c s1, cpu_so_far e s = (Ret c, s1) ∧ aside s s1.
Proof.
  intros Hc. unfold cpu_so_far, sys_getrusage.
  rewrite !bind_run, run_get_os. cbn beta iota. rewrite bind_run.
  destruct (sys_plain_aside c_getrusage 0 (-1) e s Hc eq_refl) as (s1 & R & A).
  rewrite R. cbn beta iota. rewrite run_ask.
  destruct (e_rusage e (ncall (st_os s))) as [[a b] [c d]]. rewrite run_ret. eauto.
Qed.

Lemma timestamp_aside e s : calm e -> ∃ s1, timestamp e s = (Ret tt, s1) ∧ aside s s1.
Proof.
  intros Hc. unfold timestamp.
  destruct (time_so_far_aside e s Hc) as (t & s1 & R1 & U1).
  rewrite bind_run, R1. cbn beta iota.
  destruct (set_g_aside (λ g, with_timestamp g t) e s1) as (s2 & R2 & U2); [done|].
  rewrite bind_run, R2. cbn beta iota.
  destruct (cpu_so_far_aside e s2 Hc) as (c & s3 & R3 & U3).
  rewrite bind_run, R3. cbn beta iota.
  destruct (set_g_aside (λ g, with_cpustamp g c) e s3) as (s4 & R4 & U4); [done|].
  rewrite R4. eauto using aside_trans.
Qed.

Lemma get_delta_t_aside test e s :
  calm e -> ∃ s1, get_delta_t test e s = (Ret tt, s1) ∧ aside s s1.
Proof.
  intros Hc. unfold get_delta_t.
  destruct (time_so_far_aside e s Hc) as (t & s1 & R1 & U1).
  rewrite bind_run, R1. cbn beta iota. rewrite bind_run.
  match goal with |- context [set_g ?f e s1] =>
    destruct (set_g_aside f e s1) as (s2 & R2 & U2); [done|] end.
  rewrite R2. cbn beta iota.
  destruct (cpu_so_far_aside e s2 Hc) as (c & s3 & R3 & U3).
  rewrite bind_run, R3. cbn beta iota.
  match goal with |- context [set_g ?f e s3] =>
    destruct (set_g_aside f e s3) as (s4 & R4 & U4); [done|] end.
  rewrite R4. eauto using aside_trans.
Qed.

(** [newfile] when nothing fails: the file is opened at offset 0, and is
    empty when it was created. *)
Lemma newfile_run_calm fd create e s :
  calm e -> f_exists (st_os s) = true ∨ create = true ∧ fd = -1 ->
  ∃ s1, newfile fd create e s = (Ret 3, s1) ∧ kin s s1 ∧ silent s s1 ∧
    f_exists (st_os s1) = true ∧ f_pos (st_os s1) = 0 ∧
    f_size (st_os s1) = if create then 0 else f_size (st_os s).
Proof.
  intros Hc Hpre. unfold newfile, sys_unlink, sys_open, sys_fdopen, sys_plain.
  destruct create; cbn beta iota.
  - assert (E' : negb (f_exists (st_os s)) && negb (fd =? -1) = false).
    { destruct Hpre as [->|[_ ->]]; [done|]. by rewrite andb_comm. }
    destruct (f_exists (st_os s)) eqn:Hex; cbn [negb andb] in E';
    repeat first
      [ rewrite bind_run | rewrite run_syscall | rewrite run_get_g | rewrite run_ret
      | rewrite plain_calm by done | rewrite fatal_if_false | rewrite Hex | rewrite E'
      | progress cbn [fst snd st_os st_g f_exists with_file counted with_trace Z.eqb Pos.eqb
                      andb negb] ];
    (eexists; split; [reflexivity|]);
    (split; [done|]); (split; [|done]);
    eexists; (split; [cbn [trace st_os counted with_trace with_file];
                      rewrite <- !app_assoc; reflexivity | done]).
  - destruct Hpre as [Hpre|[? _]]; [|done].
    repeat first
      [ rewrite bind_run | rewrite run_syscall | rewrite run_get_g | rewrite run_ret
      | rewrite plain_calm by done | rewrite fatal_if_false | rewrite Hpre
      | progress cbn [fst snd st_os st_g f_exists with_file counted with_trace Z.eqb Pos.eqb
                      andb negb] ].
    eexists. split; [reflexivity|]. split; [done|]. split; [|done].
    eexists. split; [cbn [trace st_os counted with_trace with_file];
                      rewrite <- !app_assoc; reflexivity | done].
Qed.

Lemma sys_lseek_run_calm fd offset whence e s target :
  calm e ->
  target = (if whence =? 0 then offset
            else if whence =? 1 then f_pos (st_os s) + offset
            else f_size (st_os s) + offset) ->
  0 <= target ->
  ∃ s1, sys_lseek fd offset whence e s = (Ret target, s1) ∧ kin s s1 ∧ silent s s1 ∧
    f_exists (st_os s1) = f_exists (st_os s) ∧ f_size (st_os s1) = f_size (st_os s) ∧
    f_pos (st_os s1) = target.
Proof.
  intros Hc Et Ht. unfold sys_lseek. rewrite run_syscall. cbn [fst snd].
  rewrite <- Et, plain_calm by done.
  assert (E : (target <? 0) = false) by (apply Z.ltb_ge; lia).
  rewrite !E. eexists. split; [reflexivity|]. split; [done|].
  split; [by apply silent_sys|]. done.
Qed.

Lemma sys_write_run_calm fd buf count e s :
  calm e -> 0 <= count ->
  ∃ s1, sys_write fd buf count e s = (Ret count, s1) ∧ kin s s1 ∧
    logged s s1 [(f_pos (st_os s), count, count)] [] ∧
    f_exists (st_os s1) = f_exists (st_os s) ∧
    f_pos (st_os s1) = f_pos (st_os s) + count ∧
    f_size (st_os s1) = Z.max (f_size (st_os s)) (f_pos (st_os s) + count).
Proof.
  intros Hc Ht. unfold sys_write. rewrite run_syscall. cbn [fst snd].
  rewrite transfer_calm by done.
  assert (E : (count <? 0) = false) by (apply Z.ltb_ge; lia).
  rewrite !E. eexists. split; [reflexivity|]. split; [done|].
  split; [by eexists|]. by cbn.
Qed.

Lemma sys_read_run_calm fd buf count e s :
  calm e ->
  let n := Z.max 0 (Z.min count (f_size (st_os s) - f_pos (st_os s))) in
  ∃ buf' s1, sys_read fd buf count e s = (Ret (n, buf'), s1) ∧ kin s s1 ∧
    logged s s1 [] [(f_pos (st_os s), count, n)] ∧
    f_exists (st_os s1) = f_exists (st_os s) ∧
    f_pos (st_os s1) = f_pos (st_os s) + n ∧ f_size (st_os s1) = f_size (st_os s).
Proof.
  intros Hc n. unfold sys_read. autorewrite with run. cbn [fst snd st_os st_g].
  fold n. rewrite transfer_calm by done.
  assert (E : (n <? 0) = false) by (apply Z.ltb_ge; lia). clearbody n.
  rewrite !E. eexists _, _. split; [reflexivity|]. split; [done|].
  split; [by eexists|]. by cbn.
Qed.

Lemma randomize_from_aside n : ∀ i buf e s,
  ∃ buf' s1, randomize_from n i buf e s = (Ret buf', s1) ∧ aside s s1.
Proof.
  induction n as [|n IH]; intros i buf e s; cbn [randomize_from].
  - rewrite run_ret. eexists _, _. split; [reflexivity | apply aside_refl].
  - rewrite bind_run, run_random. cbn beta iota.
    destruct (IH (i + 1) (<[Z.to_nat i:=e_random e (nrandom (st_os s))]> buf) e
                (State (drawn (st_os s)) (st_g s))) as (buf' & s1 & -> & A).
    eexists _, _. split; [reflexivity|]. eapply aside_trans; [|exact A].
    split; [done|]. split; [done | by apply silent_same].
Qed.

Lemma maybe_randomize_aside do_random buf e s :
  ∃ buf' s1, maybe_randomize do_random buf e s = (Ret buf', s1) ∧ aside s s1.
Proof.
  unfold maybe_randomize. destruct (nonzero do_random).
  - apply randomize_from_aside.
  - rewrite run_ret. eexists _, _. split; [reflexivity | apply aside_refl].
Qed.

Lemma written_write k fd buf n pos r :
  written [EvSys k (c_write fd buf n) pos r] = [(pos, n, r)].
Proof. done. Qed.
Lemma file_reads_write k fd buf n pos r : file_reads [EvSys k (c_write fd buf n) pos r] = [].
Proof. done. Qed.
Lemma file_reads_read k fd n pos r :
  file_reads [EvSys k (c_read fd n) pos r] = [(pos, n, r)].
Proof. done. Qed.
Lemma written_read k fd n pos r : written [EvSys k (c_read fd n) pos r] = [].
Proof. done. Qed.

Lemma run_of_S {A} (f : Z -> A) n : run_of f (S n) = f 0 :: run_of (λ k, f (k + 1)) n.
Proof.
  unfold run_of. cbn [seq fmap list_fmap]. f_equal.
  rewrite <- fmap_S_seq, <- list_fmap_compose. apply list_fmap_ext.
  intros i k _. cbn. f_equal. lia.
Qed.
Lemma run_of_ext {A} (f g : Z -> A) n :
  (∀ k, 0 <= k < Z.of_nat n -> f k = g k) -> run_of f n = run_of g n.
Proof.
  intros H. unfold run_of. apply list_fmap_ext. intros i k Hk.
  apply lookup_seq in Hk as [-> Hk]. apply H. lia.
Qed.
Lemma run_of_length {A} (f : Z -> A) n : length (run_of f n) = n.
Proof. unfold run_of. by rewrite length_fmap, length_seq. Qed.

Lemma logged_as s s1 w r w' r' : logged s s1 w r -> w = w' -> r = r' -> logged s s1 w' r'.
Proof. by intros H <- <-. Qed.

(** The block writes, entered [n] blocks short of the bound, which the
    [int] counter can reach: [n] blocks appended at the end of the file. *)
Lemma write_loop_calm fuel : ∀ (n : nat) fd do_random words bufindex buf e s,
  calm e -> f_pos (st_os s) = f_size (st_os s) ->
  (n < fuel)%nat -> -2147483648 <= words ->
  file_size (st_g s) ÷ Chunk < 2147483648 ->
  Z.of_nat n = Z.max 0 (file_size (st_g s) ÷ Chunk - words) ->
  ∃ bi buf' s1, write_loop fuel fd do_random words bufindex buf e s = (Ret (bi, buf'), s1) ∧
    kin s s1 ∧ f_exists (st_os s1) = f_exists (st_os s) ∧
    f_size (st_os s1) = f_size (st_os s) + Z.of_nat n * Chunk ∧
    f_pos (st_os s1) = f_size (st_os s1) ∧
    logged s s1 (run_of (λ k, (f_size (st_os s) + k * Chunk, Chunk, Chunk)) n) [].
Proof.
  induction fuel as [|fuel IH]; intros n fd do_random words bufindex buf e s Hc Hp Hf Hw Hb Hn;
    [lia|].
  cbn [write_loop]. rewrite bind_run, run_get_g. cbn beta iota.
  destruct n as [|n].
  - assert (E : (words <? file_size (st_g s) ÷ Chunk) = false) by (apply Z.ltb_ge; lia).
    rewrite E, run_ret. eexists _, _, _. split; [reflexivity|]. split; [apply kin_refl|].
    split; [done|]. split; [lia|]. split; [done|]. apply silent_refl.
  - assert (E : (words <? file_size (st_g s) ÷ Chunk) = true) by (apply Z.ltb_lt; lia).
    rewrite E. destruct (dirty bufindex buf) as [bi1 buf1].
    destruct (maybe_randomize_aside do_random buf1 e s)
      as (buf2 & s1 & R1 & K1 & (F1 & F2 & F3) & S1).
    rewrite bind_run, R1. cbn beta iota.
    destruct (sys_write_run_calm fd buf2 Chunk e s1 Hc ltac:(done))
      as (s2 & R2 & K2 & L2 & X2 & P2 & Z2).
    rewrite bind_run, R2. cbn beta iota. change (Chunk =? -1) with false.
    rewrite bind_run, fatal_if_false. cbn beta iota.
    assert (Hz : f_size (st_os s2) = f_size (st_os s) + Chunk).
    { rewrite Z2, F2, F3, Hp. unfold Chunk. lia. }
    assert (Hg : file_size (st_g s2) = file_size (st_g s)).
    { destruct K1 as (_ & _ & G1), K2 as (_ & _ & G2). congruence. }
    rewrite (int32_id (words + 1)) by lia.
    destruct (IH n fd do_random (words + 1) bi1 buf2 e s2 Hc)
      as (bi & buf' & s3 & R3 & K3 & X3 & Z3 & P3 & L3);
      [rewrite P2, Hz, F3, Hp; done | lia | lia | rewrite Hg; lia | rewrite Hg; lia |].
    eexists _, _, _. split; [exact R3|].
    split; [eauto using kin_trans|]. split; [congruence|].
    split; [rewrite Z3, Hz; lia|]. split; [done|].
    eapply logged_as; [exact (silent_then _ _ _ _ _ S1 (logged_trans _ _ _ _ _ _ _ L2 L3))| |done].
    rewrite run_of_S. cbn [app]. rewrite F3, Hp, Z.mul_0_l, Z.add_0_r. f_equal.
    apply run_of_ext. intros k Hk. rewrite Hz. do 2 f_equal. lia.
Qed.

(** The reads of the read phase: from offset [p] to the end of a file that
    ends [m] blocks further, and one more that finds nothing. *)
Lemma read_loop_calm fuel : ∀ (m : nat) fd buf e s,
  calm e -> (m < fuel)%nat ->
  f_size (st_os s) = f_pos (st_os s) + Z.of_nat m * Chunk ->
  ∃ buf' s1, read_loop fuel fd buf e s = (Ret buf', s1) ∧
    kin s s1 ∧ f_exists (st_os s1) = f_exists (st_os s) ∧
    f_size (st_os s1) = f_size (st_os s) ∧ f_pos (st_os s1) = f_size (st_os s) ∧
    logged s s1 []
      (run_of (λ k, (f_pos (st_os s) + k * Chunk, Chunk,
                     if k <? Z.of_nat m then Chunk else 0)) (S m)).
Proof.
  induction fuel as [|fuel IH]; intros m fd buf e s Hc Hm Hz; [lia|]. cbn [read_loop].
  destruct (sys_read_run_calm fd buf Chunk e s Hc) as (buf1 & s1 & R1 & K1 & L1 & X1 & P1 & Z1).
  rewrite bind_run, R1. cbn beta iota.
  set (n := Z.max 0 (Z.min Chunk (f_size (st_os s) - f_pos (st_os s)))) in *.
  assert (Hn : n = if 0 <? Z.of_nat m then Chunk else 0).
  { subst n. rewrite Hz. unfold Chunk. destruct (Z.ltb_spec 0 (Z.of_nat m)); lia. }
  assert (Hn1 : (n =? -1) = false).
  { rewrite Hn. by destruct (0 <? Z.of_nat m). }
  rewrite Hn1, bind_run, fatal_if_false. cbn beta iota.
  destruct m as [|m].
  - assert (n = 0) as En by (by rewrite Hn).
    rewrite En in *. change (nonzero 0) with false. cbn beta iota. rewrite run_ret.
    eexists _, _. split; [reflexivity|]. split; [done|]. split; [done|]. split; [done|].
    split; [rewrite P1; lia|].
    eapply logged_as; [exact L1 | done |]. cbn. do 3 f_equal. lia.
  - assert (n = Chunk) as En by (rewrite Hn; by destruct (Z.ltb_spec 0 (Z.of_nat (S m))); [|lia]).
    rewrite En in *. change (nonzero Chunk) with true. cbn beta iota.
    destruct (IH m fd buf1 e s1 Hc ltac:(lia)) as (buf' & s2 & R2 & K2 & X2 & Z2 & P2 & L2).
    { rewrite Z1, P1, Hz. lia. }
    eexists _, _. split; [exact R2|]. split; [eauto using kin_trans|].
    split; [congruence|]. split; [congruence|]. split; [congruence|].
    eapply logged_as; [exact (logged_trans _ _ _ _ _ _ _ L1 L2) | done |].
    rewrite (run_of_S _ (S m)). cbn [app]. f_equal.
    { rewrite Z.mul_0_l, Z.add_0_r. by destruct (Z.ltb_spec 0 (Z.of_nat (S m))); [|lia]. }
    apply run_of_ext. intros k Hk. rewrite P1. f_equal; [f_equal; lia|].
    destruct (Z.ltb_spec k (Z.of_nat m)), (Z.ltb_spec (k + 1) (Z.of_nat (S m))); lia || done.
Qed.

(** The loop of the rewrite, entered [t] turns before its end with the
    block [2 * j] just read: it writes the blocks from [2 * j] on, each
    once, and reads every other one. *)
Lemma rewrite_loop_calm fuel : ∀ (t : nat) fd do_random words bufindex buf e s j N,
  calm e -> (t < fuel)%nat -> 0 <= j ->
  f_size (st_os s) = N * Chunk ->
  (t = 0%nat -> words ≠ Chunk) ->
  (t ≠ 0%nat -> words = Chunk ∧ f_pos (st_os s) = (2 * j + 1) * Chunk ∧
                2 * j + 2 * Z.of_nat t - 1 <= N <= 2 * j + 2 * Z.of_nat t) ->
  ∃ buf' s1, rewrite_loop fuel fd do_random words bufindex buf e s = (Ret buf', s1) ∧
    kin s s1 ∧ f_exists (st_os s1) = f_exists (st_os s) ∧
    (t = 0%nat -> f_size (st_os s1) = f_size (st_os s) ∧ f_pos (st_os s1) = f_pos (st_os s)) ∧
    (t ≠ 0%nat -> f_size (st_os s1) = (2 * j + 2 * Z.of_nat t) * Chunk ∧
                  f_pos (st_os s1) = f_size (st_os s1)) ∧
    logged s s1
      (run_of (λ k, ((2 * j + k) * Chunk, Chunk, Chunk)) (2 * t))
      (run_of (λ k, ((2 * j + 2 + 2 * k) * Chunk, Chunk,
                     if k + 1 <? Z.of_nat t then Chunk else 0)) t).
Proof.
  induction fuel as [|fuel IH]; intros t fd do_random words bufindex buf e s j N
    Hc Ht Hj Hz H0 H1; [lia|].
  cbn [rewrite_loop]. destruct t as [|t].
  { destruct (Z.eqb_spec words Chunk) as [E|_]; [by destruct H0|].
    rewrite run_ret. eexists _, _. split; [reflexivity|]. split; [apply kin_refl|].
    split; [done|]. split; [done|]. split; [done|]. apply silent_refl. }
  clear H0. destruct H1 as (-> & Hp & HN); [done|]. rewrite Z.eqb_refl.
  destruct (dirty bufindex buf) as [bi1 buf1].
  (* the seek back *)
  destruct (sys_lseek_run_calm fd (- Chunk) 1 e s (2 * j * Chunk) Hc)
    as (s1 & R1 & K1 & S1 & X1 & Z1 & P1).
  { cbn [Z.eqb Pos.eqb]. rewrite Hp. lia. }
  { unfold Chunk. lia. }
  rewrite bind_run, R1. cbn beta iota.
  assert (E1 : (2 * j * Chunk =? -1) = false) by (apply Z.eqb_neq; unfold Chunk; lia).
  rewrite E1, bind_run, fatal_if_false. cbn beta iota.
  destruct (maybe_randomize_aside do_random buf1 e s1)
    as (buf2 & s2 & R2 & K2 & (F1 & F2 & F3) & S2).
  rewrite bind_run, R2. cbn beta iota.
  (* the two writes *)
  destruct (sys_write_run_calm fd buf2 Chunk e s2 Hc ltac:(done))
    as (s3 & R3 & K3 & L3 & X3 & P3 & Z3).
  rewrite bind_run, R3. cbn beta iota. change (Chunk =? -1) with false.
  rewrite bind_run, fatal_if_false. cbn beta iota.
  destruct (sys_write_run_calm fd buf2 Chunk e s3 Hc ltac:(done))
    as (s4 & R4 & K4 & L4 & X4 & P4 & Z4).
  rewrite bind_run, R4. cbn beta iota.
  rewrite bind_run, fatal_if_false. cbn beta iota.
  (* the next read *)
  destruct (sys_read_run_calm fd buf2 Chunk e s4 Hc)
    as (buf5 & s5 & R5 & K5 & L5 & X5 & P5 & Z5).
  set (n := Z.max 0 (Z.min Chunk (f_size (st_os s4) - f_pos (st_os s4)))) in *.
  rewrite bind_run, R5. cbn beta iota.
  assert (Hp2 : f_pos (st_os s2) = 2 * j * Chunk) by congruence.
  assert (Hz2 : f_size (st_os s2) = N * Chunk) by congruence.
  assert (Hp4 : f_pos (st_os s4) = (2 * j + 2) * Chunk) by (rewrite P4, P3, Hp2; lia).
  assert (Hz4 : f_size (st_os s4) = Z.max N (2 * j + 2) * Chunk).
  { rewrite Z4, Z3, P3, Hp2, Hz2. unfold Chunk. lia. }
  assert (Hn : n = if 0 <? Z.of_nat t then Chunk else 0).
  { subst n. rewrite Hz4, Hp4. unfold Chunk. destruct (Z.ltb_spec 0 (Z.of_nat t)); lia. }
  assert (En : (n =? -1) = false) by (rewrite Hn; by destruct (0 <? Z.of_nat t)).
  rewrite En, bind_run, fatal_if_false. cbn beta iota.
  destruct (IH t fd do_random n bi1 buf5 e s5 (j + 1) (Z.max N (2 * j + 2)) Hc
              ltac:(lia) ltac:(lia))
    as (buf' & s6 & R6 & K6 & X6 & Q0 & Q1 & L6).
  { by rewrite Z5. }
  { intros -> E. rewrite Hn in E. discriminate E. }
  { intros Hne. rewrite Hn. destruct (Z.ltb_spec 0 (Z.of_nat t)); [|lia].
    split; [done|]. rewrite P5, Hp4, Hn. destruct (Z.ltb_spec 0 (Z.of_nat t)); lia. }
  eexists _, _. split; [exact R6|].
  split; [eauto 10 using kin_trans|]. split; [congruence|]. split; [done|].
  split.
  { intros _. destruct t as [|t'].
    - destruct Q0 as [Q0 Q0']; [done|]. rewrite Q0', Q0, P5, Z5, Hp4, Hz4, Hn.
      change (0 <? Z.of_nat 0) with false. cbn beta iota. unfold Chunk. lia.
    - destruct Q1 as [Q1 Q1']; [done|]. split; [rewrite Q1; lia | done]. }
  eapply logged_as.
  { exact (silent_then _ _ _ _ _ (silent_trans _ _ _ S1 S2)
             (logged_trans _ _ _ _ _ _ _ L3
                (logged_trans _ _ _ _ _ _ _ L4 (logged_trans _ _ _ _ _ _ _ L5 L6)))). }
  - replace (2 * S t)%nat with (S (S (2 * t))) by lia. rewrite !run_of_S.
    cbn [app]. rewrite P3, Hp2.
    f_equal; [do 2 f_equal; lia|]. f_equal; [do 2 f_equal; lia|].
    apply run_of_ext. intros k Hk. do 2 f_equal. lia.
  - rewrite run_of_S. cbn [app]. rewrite Hp4, Hn. f_equal.
    + f_equal; [f_equal; lia|].
      destruct (Z.ltb_spec 0 (Z.of_nat t)), (Z.ltb_spec (0 + 1) (Z.of_nat (S t))); lia || done.
    + apply run_of_ext. intros k Hk. f_equal; [f_equal; lia|].
      destruct (Z.ltb_spec (k + 1) (Z.of_nat t)), (Z.ltb_spec (k + 1 + 1) (Z.of_nat (S t)));
        lia || done.
Qed.

(** One more call that leaves the file alone. *)
Lemma aside_after s s1 s2 w r :
  kin s s1 -> logged s s1 w r -> aside s1 s2 ->
  kin s s2 ∧ logged s s2 w r ∧ file_kept s1 s2.
Proof.
  intros K L (K' & F & S'). split; [by eapply kin_trans|]. split; [|done].
  by eapply then_silent.
Qed.

Ltac run_aside s' A :=
  rewrite ?bind_run;
  lazymatch goal with
  | |- context [sys_plain ?c ?a ?b ?e ?s] =>
      destruct (sys_plain_aside c a b e s ltac:(assumption) eq_refl) as (s' & -> & A)
  | |- context [sys_signal ?signum ?e ?s] =>
      destruct (sys_signal_aside signum e s ltac:(assumption)) as (s' & -> & A)
  | |- context [log ?ev ?e ?s] =>
      destruct (log_aside ev e s ltac:(discriminate)) as (s' & -> & A)
  | |- context [timestamp ?e ?s] =>
      destruct (timestamp_aside e s ltac:(assumption)) as (s' & -> & A)
  | |- context [get_delta_t ?t ?e ?s] =>
      destruct (get_delta_t_aside t e s ltac:(assumption)) as (s' & -> & A)
  end; cbn beta iota.

Lemma write_phase_calm fuel fd do_random e s :
  calm e -> f_exists (st_os s) = true ∨ fd = -1 ->
  file_size (st_g s) ÷ Chunk < 2147483648 ->
  let n := iterations 0 (file_size (st_g s) ÷ Chunk) in
  (n < fuel)%nat ->
  ∃ buf' s1, write_phase fuel fd do_random e s = (Ret (3, buf'), s1) ∧
    kin s s1 ∧ f_exists (st_os s1) = true ∧ f_size (st_os s1) = Z.of_nat n * Chunk ∧
    logged s s1 (run_of (λ k, (k * Chunk, Chunk, Chunk)) n) [].
Proof.
  intros Hc Hpre Hb n Hf.
  unfold write_phase, uninit, fprintf_stderr, sys_fsync, sys_close, perror.
  rewrite bind_run, run_ask. cbn beta iota.
  destruct (newfile_run_calm fd true e s Hc) as (s1 & R1 & K1 & S1 & X1 & P1 & Z1).
  { destruct Hpre; [by left | by right]. }
  rewrite bind_run, R1. cbn beta iota.
  run_aside s2 A2. run_aside s3 A3.
  rewrite bind_run.
  destruct (aside_after _ _ _ _ _ K1 S1 A2) as (K2 & L2 & (X2 & Z2 & P2)).
  destruct (aside_after _ _ _ _ _ K2 L2 A3) as (K3 & L3 & (X3 & Z3 & P3)).
  assert (Hfs : file_size (st_g s3) = file_size (st_g s)) by apply K3.
  match goal with |- context [write_loop fuel ?fd ?dr ?w ?bi ?buf e s3] =>
    destruct (write_loop_calm fuel n fd dr w bi buf e s3 Hc)
      as (bi' & buf' & s4 & -> & K4 & X4 & Z4 & P4 & L4)
  end.
  { congruence. } { exact Hf. } { lia. } { by rewrite Hfs. }
  { rewrite Hfs. subst n. unfold iterations. lia. }
  cbn beta iota.
  run_aside s5 A5. cbn [Z.eqb]. rewrite bind_run, run_skip. cbn beta iota.
  run_aside s6 A6. cbn [Z.eqb]. rewrite bind_run, fatal_if_false. cbn beta iota.
  run_aside s7 A7. run_aside s8 A8. rewrite run_ret.
  pose proof (kin_trans _ _ _ K3 K4) as K4'.
  pose proof (logged_trans _ _ _ _ _ _ _ L3 L4) as L4'.
  destruct (aside_after _ _ _ _ _ K4' L4' A5) as (K5 & L5 & (X5 & Z5 & P5)).
  destruct (aside_after _ _ _ _ _ K5 L5 A6) as (K6 & L6 & (X6 & Z6 & P6)).
  destruct (aside_after _ _ _ _ _ K6 L6 A7) as (K7 & L7 & (X7 & Z7 & P7)).
  destruct (aside_after _ _ _ _ _ K7 L7 A8) as (K8 & L8 & (X8 & Z8 & P8)).
  eexists _, _. split; [reflexivity|]. split; [exact K8|].
  split; [congruence|]. split; [rewrite Z8, Z7, Z6, Z5, Z4, Z3, Z2, Z1; lia|].
  eapply logged_as; [exact L8 | | done]. cbn [app].
  apply run_of_ext. intros k Hk. rewrite Z3, Z2, Z1. do 2 f_equal.
Qed.

Lemma read_phase_calm fuel fd buf e s (m : nat) :
  calm e -> f_exists (st_os s) = true -> f_size (st_os s) = Z.of_nat m * Chunk ->
  (m < fuel)%nat ->
  ∃ buf' s1, read_phase fuel fd buf e s = (Ret (3, buf'), s1) ∧
    kin s s1 ∧ f_exists (st_os s1) = true ∧ f_size (st_os s1) = f_size (st_os s) ∧
    logged s s1 [] (run_of (λ k, (k * Chunk, Chunk, if k <? Z.of_nat m then Chunk else 0)) (S m)).
Proof.
  intros Hc Hex Hz Hm. unfold read_phase, sys_system, fprintf_stderr, sys_close.
  run_aside s0 A0.
  destruct (aside_after _ _ _ _ _ (kin_refl s) (silent_refl s) A0) as (K0 & L0 & (X0 & Z0 & P0)).
  destruct (newfile_run_calm fd false e s0 Hc) as (s1 & R1 & K1 & S1 & X1 & P1 & Z1).
  { left. congruence. }
  rewrite bind_run, R1. cbn beta iota.
  destruct (sys_lseek_run_calm 3 0 0 e s1 0 Hc eq_refl ltac:(done))
    as (s2 & R2 & K2 & S2 & X2 & Z2 & P2).
  rewrite bind_run, R2. cbn beta iota. cbn [Z.eqb].
  rewrite bind_run, fatal_if_false. cbn beta iota.
  run_aside s3 A3. run_aside s4 A4.
  pose proof (kin_trans _ _ _ K0 (kin_trans _ _ _ K1 K2)) as K2'.
  pose proof (silent_trans _ _ _ L0 (silent_trans _ _ _ S1 S2)) as L2'.
  destruct (aside_after _ _ _ _ _ K2' L2' A3) as (K3 & L3 & (X3 & Z3 & P3)).
  destruct (aside_after _ _ _ _ _ K3 L3 A4) as (K4 & L4 & (X4 & Z4 & P4)).
  rewrite bind_run.
  destruct (read_loop_calm fuel m 3 buf e s4 Hc Hm) as (buf' & s5 & -> & K5 & X5 & Z5 & P5 & L5).
  { rewrite Z4, Z3, Z2, Z1, Z0, P4, P3, P2, Hz. lia. }
  cbn beta iota.
  run_aside s6 A6. cbn [Z.eqb]. rewrite bind_run, fatal_if_false. cbn beta iota.
  run_aside s7 A7. run_aside s8 A8. rewrite run_ret.
  pose proof (kin_trans _ _ _ K4 K5) as K5'.
  pose proof (logged_trans _ _ _ _ _ _ _ L4 L5) as L5'.
  destruct (aside_after _ _ _ _ _ K5' L5' A6) as (K6 & L6 & (X6 & Z6 & P6)).
  destruct (aside_after _ _ _ _ _ K6 L6 A7) as (K7 & L7 & (X7 & Z7 & P7)).
  destruct (aside_after _ _ _ _ _ K7 L7 A8) as (K8 & L8 & (X8 & Z8 & P8)).
  eexists _, _. split; [reflexivity|]. split; [exact K8|].
  split; [congruence|]. split; [congruence|].
  eapply logged_as; [exact L8 | done |]. cbn [app].
  apply run_of_ext. intros k Hk. rewrite P4, P3, P2. do 2 f_equal.
Qed.

Lemma rewrite_phase_calm fuel fd do_random buf e s (t : nat) N :
  calm e -> f_exists (st_os s) = true -> f_size (st_os s) = N * Chunk ->
  2 * Z.of_nat t - 1 <= N <= 2 * Z.of_nat t -> 0 <= N -> (t < fuel)%nat ->
  ∃ buf' s1, rewrite_phase fuel fd do_random buf e s = (Ret (3, buf'), s1) ∧
    kin s s1 ∧ f_exists (st_os s1) = true ∧ f_size (st_os s1) = 2 * Z.of_nat t * Chunk ∧
    logged s s1
      (run_of (λ k, (k * Chunk, Chunk, Chunk)) (2 * t))
      (run_of (λ k, (2 * k * Chunk, Chunk, if k <? Z.of_nat t then Chunk else 0)) (S t)).
Proof.
  intros Hc Hex Hz HN HN0 Ht. unfold rewrite_phase, fprintf_stderr, sys_fsync, sys_close, perror.
  destruct (newfile_run_calm fd false e s Hc) as (s1 & R1 & K1 & S1 & X1 & P1 & Z1).
  { by left. }
  rewrite bind_run, R1. cbn beta iota.
  destruct (sys_lseek_run_calm 3 0 0 e s1 0 Hc eq_refl ltac:(done))
    as (s2 & R2 & K2 & S2 & X2 & Z2 & P2).
  rewrite bind_run, R2. cbn beta iota. cbn [Z.eqb].
  rewrite bind_run, fatal_if_false. cbn beta iota.
  run_aside s3 A3. run_aside s4 A4.
  pose proof (kin_trans _ _ _ K1 K2) as K2'.
  pose proof (silent_trans _ _ _ S1 S2) as L2'.
  destruct (aside_after _ _ _ _ _ K2' L2' A3) as (K3 & L3 & (X3 & Z3 & P3)).
  destruct (aside_after _ _ _ _ _ K3 L3 A4) as (K4 & L4 & (X4 & Z4 & P4)).
  (* the first read *)
  destruct (sys_read_run_calm 3 buf Chunk e s4 Hc)
    as (buf5 & s5 & R5 & K5 & L5 & X5 & P5 & Z5).
  set (n := Z.max 0 (Z.min Chunk (f_size (st_os s4) - f_pos (st_os s4)))) in *.
  rewrite bind_run, R5. cbn beta iota.
  assert (Hp4 : f_pos (st_os s4) = 0) by congruence.
  assert (Hz4 : f_size (st_os s4) = N * Chunk) by congruence.
  assert (Hn : n = if 0 <? Z.of_nat t then Chunk else 0).
  { subst n. rewrite Hz4, Hp4. unfold Chunk. destruct (Z.ltb_spec 0 (Z.of_nat t)); lia. }
  assert (En : (n =? -1) = false) by (rewrite Hn; by destruct (0 <? Z.of_nat t)).
  rewrite En, bind_run, fatal_if_false. cbn beta iota. rewrite bind_run.
  destruct (rewrite_loop_calm fuel t 3 do_random n 0 buf5 e s5 0 N Hc Ht ltac:(done))
    as (buf' & s6 & -> & K6 & X6 & Q0 & Q1 & L6).
  { congruence. }
  { intros -> E. rewrite Hn in E. discriminate E. }
  { intros Hne. rewrite Hn. destruct (Z.ltb_spec 0 (Z.of_nat t)); [|lia].
    split; [done|]. rewrite P5, Hp4, Hn. destruct (Z.ltb_spec 0 (Z.of_nat t)); lia. }
  cbn beta iota.
  run_aside s7 A7. cbn [Z.eqb]. rewrite bind_run, run_skip. cbn beta iota.
  run_aside s8 A8. cbn [Z.eqb]. rewrite bind_run, fatal_if_false. cbn beta iota.
  run_aside s9 A9. run_aside s10 A10. rewrite run_ret.
  pose proof (kin_trans _ _ _ K4 (kin_trans _ _ _ K5 K6)) as K6'.
  pose proof (logged_trans _ _ _ _ _ _ _ L4 (logged_trans _ _ _ _ _ _ _ L5 L6)) as L6'.
  destruct (aside_after _ _ _ _ _ K6' L6' A7) as (K7 & L7 & (X7 & Z7 & P7)).
  destruct (aside_after _ _ _ _ _ K7 L7 A8) as (K8 & L8 & (X8 & Z8 & P8)).
  destruct (aside_after _ _ _ _ _ K8 L8 A9) as (K9 & L9 & (X9 & Z9 & P9)).
  destruct (aside_after _ _ _ _ _ K9 L9 A10) as (K10 & L10 & (X10 & Z10 & P10)).
  eexists _, _. split; [reflexivity|]. split; [exact K10|].
  split; [congruence|]. split.
  { rewrite Z10, Z9, Z8, Z7. destruct t as [|t'].
    - destruct Q0 as [Q0 _]; [done|]. rewrite Q0, Z5, Hz4. unfold Chunk. lia.
    - destruct Q1 as [Q1 _]; [done|]. rewrite Q1. lia. }
  eapply logged_as; [exact L10 | |]; cbn [app].
  - apply run_of_ext. intros k Hk. do 2 f_equal; lia.
  - rewrite run_of_S. rewrite Hp4, Hn. f_equal.
    apply run_of_ext. intros k Hk. f_equal. f_equal; lia.
Qed.

(** ** The three phases, one by one *)

(** X11.  The block write phase when no call fails, for a size that is not
    negative and has fewer than 2^31 blocks, so that the [int] counter of the
    loop reaches the bound, and fuel for that many turns: the file is created
    anew (an old one is unlinked first), the phase writes [file_size / Chunk]
    blocks of [Chunk] bytes at the offsets 0, [Chunk], [2 * Chunk], ...,
    reads nothing, and leaves a file of that many blocks, which is
    [file_size] bytes when [Chunk] divides it. *)
Theorem write_phase_fills_file fuel fd do_random e s :
  calm e -> f_exists (st_os s) = true ∨ fd = -1 -> 0 <= file_size (st_g s) ->
  let n := file_size (st_g s) ÷ Chunk in
  n < 2147483648 -> n < Z.of_nat fuel ->
  ∃ buf' s1, write_phase fuel fd do_random e s = (Ret (3, buf'), s1) ∧
    f_exists (st_os s1) = true ∧ f_size (st_os s1) = n * Chunk ∧
    ((Chunk | file_size (st_g s)) -> f_size (st_os s1) = file_size (st_g s)) ∧
    logged s s1 (run_of (λ k, (k * Chunk, Chunk, Chunk)) (Z.to_nat n)) [].
Proof.
  intros Hc Hpre Hfs n Hb Hf.
  assert (Hn : 0 <= n) by (apply Z.quot_pos; [done | unfold Chunk; lia]).
  assert (En : iterations 0 (file_size (st_g s) ÷ Chunk) = Z.to_nat n).
  { unfold iterations. by rewrite Z.sub_0_r. }
  destruct (write_phase_calm fuel fd do_random e s Hc Hpre Hb) as (buf' & s1 & R & K & X & Z & L).
  { rewrite En. lia. }
  rewrite En in Z, L.
  exists buf', s1. split; [exact R|]. split; [exact X|].
  split; [by rewrite Z, Z2Nat.id|]. split; [|exact L].
  intros [q Hq]. rewrite Z, Z2Nat.id by done. subst n. rewrite Hq.
  rewrite Z.quot_mul; [done | unfold Chunk; lia].
Qed.

Lemma write_phase_fills_file_witness :
  ∃ buf' s1, write_phase 5 3 0 quiet_env (with_file4 0 []) = (Ret (3, buf'), s1) ∧
    f_size (st_os s1) = 4 * Chunk ∧
    logged (with_file4 0 []) s1 (run_of (λ k, (k * Chunk, Chunk, Chunk)) 4) [].
Proof.
  destruct (write_phase_fills_file 5 3 0 quiet_env (with_file4 0 []))
    as (buf' & s1 & R & _ & Z & _ & L).
  - intros k. reflexivity.
  - left. reflexivity.
  - vm_compute. discriminate.
  - vm_compute. reflexivity.
  - vm_compute. reflexivity.
  - exists buf', s1. split; [exact R|]. split; [exact Z | exact L].
Defined.

(** X12.  The rewrite phase when no call fails, on a file of [N] blocks, with
    fuel for its turns: it returns; it reads the blocks 0, 2, 4, ... and once
    more at the end, where it finds nothing; it writes every block from 0 to
    [2 * ((N + 1) / 2) - 1] once, in order; and it leaves the file with an
    even number of blocks: unchanged for an even [N], one block longer for an
    odd [N]. *)
Theorem rewrite_phase_pairs_blocks fuel fd do_random buf e s N :
  calm e -> f_exists (st_os s) = true -> f_size (st_os s) = N * Chunk -> 0 <= N ->
  N + 1 < 2 * Z.of_nat fuel ->
  let t := (N + 1) ÷ 2 in
  ∃ buf' s1, rewrite_phase fuel fd do_random buf e s = (Ret (3, buf'), s1) ∧
    f_exists (st_os s1) = true ∧ f_size (st_os s1) = 2 * t * Chunk ∧
    (Z.even N = true -> f_size (st_os s1) = f_size (st_os s)) ∧
    (Z.odd N = true -> f_size (st_os s1) = f_size (st_os s) + Chunk) ∧
    logged s s1
      (run_of (λ k, (k * Chunk, Chunk, Chunk)) (Z.to_nat (2 * t)))
      (run_of (λ k, (2 * k * Chunk, Chunk, if k <? t then Chunk else 0)) (S (Z.to_nat t))).
Proof.
  intros Hc Hex Hz HN Hfuel t.
  assert (Ht : 0 <= t ∧ 2 * t - 1 <= N <= 2 * t).
  { subst t. rewrite Z.quot_div_nonneg by lia.
    pose proof (Z.div_mod (N + 1) 2 ltac:(lia)). pose proof (Z.mod_pos_bound (N + 1) 2 ltac:(lia)).
    lia. }
  destruct (rewrite_phase_calm fuel fd do_random buf e s (Z.to_nat t) N Hc Hex Hz)
    as (buf' & s1 & R & K & X & Z & L); [lia | lia | lia |].
  rewrite Z2Nat.id in Z, L by lia.
  exists buf', s1. split; [exact R|]. split; [exact X|]. split; [exact Z|].
  split; [|split].
  - intros He. rewrite Z, Hz. apply Z.even_spec in He as [q ->].
    assert (t = q) by lia. subst t. lia.
  - intros Ho. rewrite Z, Hz. apply Z.odd_spec in Ho as [q ->].
    assert (t = q + 1) by lia. unfold Chunk. lia.
  - eapply logged_as; [exact L | f_equal; lia | done].
Qed.

Lemma rewrite_phase_pairs_blocks_witness :
  ∃ buf' s1, rewrite_phase 3 3 0 (replicate 2048 0) quiet_env
               (State (Os 0 0 100 true (3 * Chunk) 0 [] [] [])
                      (Globals 0 (λ _ _, 0%Q) 0%Q 0%Q (3 * Chunk) "./bonnie.100" 1))
             = (Ret (3, buf'), s1) ∧
    f_size (st_os s1) = 4 * Chunk.
Proof.
  destruct (rewrite_phase_pairs_blocks 3 3 0 (replicate 2048 0) quiet_env
              (State (Os 0 0 100 true (3 * Chunk) 0 [] [] [])
                     (Globals 0 (λ _ _, 0%Q) 0%Q 0%Q (3 * Chunk) "./bonnie.100" 1)) 3)
    as (buf' & s1 & R & _ & Z & _).
  - intros k. reflexivity.
  - reflexivity.
  - reflexivity.
  - lia.
  - lia.
  - exists buf', s1. split; [exact R | exact Z].
Defined.

Lemma bytes_read_run (f : Z -> Z * Z * Z) : ∀ (m : nat) g,
  (∀ k, 0 <= k < Z.of_nat m -> (g k).2 = Chunk) -> (g (Z.of_nat m)).2 = 0 ->
  bytes_read (run_of g (S m)) = Z.of_nat m * Chunk.
Proof.
  induction m as [|m IH]; intros g Hg H0.
  - cbn. cbn in H0. rewrite H0. done.
  - rewrite run_of_S. cbn [bytes_read foldr]. fold (bytes_read (run_of (λ k, g (k + 1)) (S m))).
    rewrite IH.
    + rewrite Hg by lia. lia.
    + intros k Hk. apply Hg. lia.
    + replace (Z.of_nat m + 1) with (Z.of_nat (S m)) by lia. done.
Qed.

(** X13.  The block read phase when no call fails, on a file of [m] blocks:
    it returns after [m + 1] reads at the offsets 0, [Chunk], ..., [m *
    Chunk], the last of which returns 0; the bytes the reads returned add up
    to the size of the file, which is unchanged, and nothing is written. *)
Theorem read_phase_reads_every_byte fuel fd buf e s (m : nat) :
  calm e -> f_exists (st_os s) = true -> f_size (st_os s) = Z.of_nat m * Chunk ->
  (m < fuel)%nat ->
  ∃ buf' s1 reads, read_phase fuel fd buf e s = (Ret (3, buf'), s1) ∧
    logged s s1 [] reads ∧
    reads = run_of (λ k, (k * Chunk, Chunk, if k <? Z.of_nat m then Chunk else 0)) (S m) ∧
    bytes_read reads = f_size (st_os s) ∧
    f_size (st_os s1) = f_size (st_os s).
Proof.
  intros Hc Hex Hz Hm.
  destruct (read_phase_calm fuel fd buf e s m Hc Hex Hz Hm) as (buf' & s1 & R & K & X & Z & L).
  eexists buf', s1, _. split; [exact R|]. split; [exact L|]. split; [done|].
  split; [|exact Z]. rewrite Hz. apply (bytes_read_run (λ _, (0, 0, 0))).
  - intros k Hk. cbn. by destruct (Z.ltb_spec k (Z.of_nat m)); [|lia].
  - cbn. by rewrite Z.ltb_irrefl.
Qed.

Lemma read_phase_reads_every_byte_witness :
  ∃ buf' s1 reads, read_phase 5 3 (replicate 2048 0) quiet_env (with_file4 0 [])
                   = (Ret (3, buf'), s1) ∧
    logged (with_file4 0 []) s1 [] reads ∧ bytes_read reads = 4 * Chunk.
Proof.
  destruct (read_phase_reads_every_byte 5 3 (replicate 2048 0) quiet_env (with_file4 0 []) 4)
    as (buf' & s1 & reads & R & L & _ & B & _).
  - intros k. reflexivity.
  - reflexivity.
  - reflexivity.
  - lia.
  - exists buf', s1, reads. split; [exact R|]. split; [exact L | exact B].
Defined.

(** ** The coordinator of a seek phase *)

Lemma parent_refl s : parent s s.
Proof. split; [done|]. split; [done|]. split; [done | apply silent_refl]. Qed.
Lemma parent_trans s s1 s2 : parent s s1 -> parent s1 s2 -> parent s s2.
Proof.
  intros (P1 & G1 & (X1 & Z1 & Q1) & S1) (P2 & G2 & (X2 & Z2 & Q2) & S2).
  split; [congruence|]. split; [congruence|]. split; [|by eapply silent_trans].
  unfold file_kept. by rewrite X2, Z2, Q2.
Qed.
Lemma aside_parent s s1 : aside s s1 -> parent s s1 ∧ children (st_os s1) = children (st_os s).
Proof. intros ((P & C & G) & F & S). done. Qed.

Lemma sys_time_aside e s : ∃ t s1, sys_time e s = (Ret t, s1) ∧ aside s s1.
Proof.
  unfold sys_time. rewrite run_syscall. cbn [fst snd]. eexists _, _. split; [reflexivity|].
  split; [done|]. split; [done|]. by apply silent_sys.
Qed.
Lemma sys_getpid_aside e s : ∃ p s1, sys_getpid e s = (Ret p, s1) ∧ aside s s1.
Proof.
  unfold sys_getpid. rewrite run_syscall. cbn [fst snd]. eexists _, _. split; [reflexivity|].
  split; [done|]. split; [done|]. by apply silent_sys.
Qed.

Lemma sys_write_tickets_aside tickets count e s :
  calm e -> ∃ s1, sys_write_tickets tickets count e s = (Ret count, s1) ∧ aside s s1.
Proof.
  intros Hc. unfold sys_write_tickets. rewrite run_syscall. cbn [fst snd].
  rewrite transfer_calm by done. eexists. split; [reflexivity|].
  split; [done|]. split; [done|]. by apply silent_sys.
Qed.

Lemma sys_read_report_aside old count e s :
  calm e ->
  ∃ s1, sys_read_report old count e s = (Ret (count, e_report e (ncall (st_os s))), s1)
        ∧ aside s s1.
Proof.
  intros Hc. unfold sys_read_report. autorewrite with run. cbn [fst snd st_os st_g].
  rewrite transfer_calm by done. rewrite Z.eqb_refl. eexists. split; [reflexivity|].
  split; [done|]. split; [done|]. by apply silent_sys.
Qed.

Lemma sys_fork_parent e s :
  calm e -> 0 <= pid (st_os s) ->
  ∃ v s1, sys_fork e s = (Ret v, s1) ∧ 0 < v ∧ parent s s1 ∧
    children (st_os s1) = v :: children (st_os s).
Proof.
  intros Hc Hp. unfold sys_fork. rewrite run_syscall, Hc. cbn [fst snd].
  eexists _, _. split; [reflexivity|]. split; [unfold fresh_pid; lia|].
  split; [|done]. split; [done|]. split; [done|]. split; [done|]. by apply silent_sys.
Qed.

Lemma sys_wait_parent e s :
  calm e -> children (st_os s) ≠ [] -> Forall (λ c, c ≠ -1) (children (st_os s)) ->
  ∃ v s1, sys_wait e s = (Ret v, s1) ∧ v ≠ -1 ∧ parent s s1 ∧
    S (length (children (st_os s1))) = length (children (st_os s)) ∧
    Forall (λ c, c ≠ -1) (children (st_os s1)).
Proof.
  intros Hc Hne Hall. unfold sys_wait. rewrite run_syscall, Hc.
  destruct (children (st_os s)) as [|c0 cs] eqn:Ec; [done|].
  remember (e_pick e (ncall (st_os s)) mod length (c0 :: cs))%nat as i eqn:Ei.
  assert (Hi : (i < length (c0 :: cs))%nat) by (subst i; apply Nat.mod_upper_bound; done).
  destruct (lookup_lt_is_Some_2 _ _ Hi) as [x Hx]. rewrite Hx.
  cbn [fst snd]. eexists _, _. split; [reflexivity|]. cbn [st_os default].
  assert (x ≠ -1) by (rewrite Forall_forall in Hall; apply Hall; by eapply list_elem_of_lookup_2).
  split; [done|]. split.
  { split; [done|]. split; [done|]. split; [done|]. by apply silent_sys. }
  split.
  - cbn [children counted with_trace with_children]. rewrite length_delete by eauto.
    cbn [length] in *. lia.
  - cbn [children counted with_trace with_children]. by apply Forall_delete.
Qed.

Lemma spawn_parent n : ∀ next child e s,
  calm e -> 0 <= pid (st_os s) -> Forall (λ c, c ≠ -1) (children (st_os s)) ->
  ∃ s', spawn n next child e s = (Ret tt, s') ∧ parent s s' ∧
    length (children (st_os s')) = (n + length (children (st_os s)))%nat ∧
    Forall (λ c, c ≠ -1) (children (st_os s')).
Proof.
  induction n as [|n IH]; intros next child e s Hc Hp Hall; cbn [spawn].
  - rewrite run_skip. exists s. split; [done|]. split; [apply parent_refl | done].
  - destruct (sys_fork_parent e s Hc Hp) as (v & s1 & R & Hv & P1 & Hc1).
    rewrite bind_run, R. cbn beta iota.
    destruct (Z.eqb_spec v (-1)); [lia|]. destruct (Z.eqb_spec v 0); [lia|].
    rewrite bind_run, run_skip. cbn beta iota.
    destruct (IH (next + 1) child e s1 Hc) as (s' & R' & P' & Hl' & Hall').
    { destruct P1 as [-> _]. done. }
    { rewrite Hc1. constructor; [lia | done]. }
    exists s'. rewrite R', Hl', Hc1. cbn [length].
    split; [done|]. split; [by eapply parent_trans|]. split; [lia | done].
Qed.

Lemma collect_parent n : ∀ next wh rep fl e s,
  calm e -> (n <= length (children (st_os s)))%nat ->
  Forall (λ c, c ≠ -1) (children (st_os s)) ->
  ∃ fl' s', collect n next wh rep fl e s = (Ret fl', s') ∧ parent s s' ∧
    (length (children (st_os s')) + n = length (children (st_os s)))%nat ∧
    Forall (λ c, c ≠ -1) (children (st_os s')).
Proof.
  induction n as [|n IH]; intros next wh rep fl e s Hc Hn Hall; cbn [collect].
  - rewrite run_ret. eexists _, _. split; [reflexivity|]. split; [apply parent_refl|].
    split; [lia | done].
  - destruct (sys_read_report_aside rep sizeof_seeker_report e s Hc) as (s1 & R1 & A1).
    apply aside_parent in A1 as [P1 C1].
    rewrite bind_run, R1. cbn beta iota. rewrite Z.eqb_refl. cbn [negb].
    rewrite bind_run, fatal_if_false. cbn beta iota.
    rewrite bind_run, run_get_g. cbn beta iota. rewrite bind_run.
    match goal with |- context [set_g ?f e s1] =>
      destruct (set_g_aside f e s1) as (s2 & -> & A2); [done|] end.
    apply aside_parent in A2 as [P2 C2]. cbn beta iota. rewrite bind_run.
    destruct (sys_wait_parent e s2 Hc) as (v & s3 & R3 & Hv & P3 & Hl3 & Hall3).
    { rewrite C2, C1. destruct (children (st_os s)); [cbn in Hn; lia | done]. }
    { by rewrite C2, C1. }
    rewrite R3. cbn beta iota.
    destruct (Z.eqb_spec v (-1)); [done|]. rewrite bind_run, fatal_if_false. cbn beta iota.
    unfold fprintf_stderr.
    destruct (log_aside (EvStderr "done..." []) e s3 ltac:(discriminate)) as (s4 & R4 & A4).
    apply aside_parent in A4 as [P4 C4].
    rewrite bind_run, R4. cbn beta iota.
    destruct (IH (next + 1) wh
                (e_report e (ncall (st_os s)))
                ((first_start (absorb next (Tally (delta (st_g s1) wh CPU) fl.1 fl.2)
                                 (e_report e (ncall (st_os s))))),
                 (last_stop (absorb next (Tally (delta (st_g s1) wh CPU) fl.1 fl.2)
                               (e_report e (ncall (st_os s)))))) e s4 Hc)
      as (fl' & s' & R' & P' & Hl' & Hall').
    { rewrite C4. rewrite C2, C1 in Hl3. lia. }
    { by rewrite C4. }
    eexists _, _. split; [exact R'|].
    split; [eauto using parent_trans|]. split; [|done].
    rewrite C4 in Hl'. rewrite C2, C1 in Hl3. lia.
Qed.

(** When no call fails the seek phase returns, with every child it has
    started waited for and the file as it was. *)
Lemma do_seekstuff_parent fuel do_write whereto e s :
  calm e -> 0 <= pid (st_os s) -> Forall (λ c, c ≠ -1) (children (st_os s)) ->
  ∃ s', do_seekstuff fuel do_write whereto e s = (Ret tt, s') ∧ parent s s' ∧
    length (children (st_os s')) = length (children (st_os s)) ∧
    Forall (λ c, c ≠ -1) (children (st_os s')).
Proof.
  intros Hc Hp Hall. unfold do_seekstuff, uninit, sys_system, sys_pipe, sys_close_pipe,
    sys_sleep, fprintf_stderr.
  rewrite bind_run, run_ask. cbn beta iota.
  run_aside s0 A0. apply aside_parent in A0 as [P0 C0].
  run_aside s1 A1. apply aside_parent in A1 as [P1 C1]. cbn [Z.eqb].
  run_aside s2 A2. apply aside_parent in A2 as [P2 C2]. cbn [Z.eqb orb].
  rewrite bind_run, fatal_if_false. cbn beta iota. rewrite bind_run.
  pose proof (parent_trans _ _ _ P0 (parent_trans _ _ _ P1 P2)) as P2'.
  match goal with |- context [spawn ?n ?i ?ch e s2] =>
    destruct (spawn_parent n i ch e s2 Hc) as (s3 & -> & P3 & Hl3 & Hall3) end.
  { destruct P2' as [-> _]. done. } { by rewrite C2, C1, C0. }
  cbn beta iota.
  run_aside s4 A4. apply aside_parent in A4 as [P4 C4].
  run_aside s5 A5. apply aside_parent in A5 as [P5 C5].
  run_aside s6 A6. apply aside_parent in A6 as [P6 C6].
  run_aside s7 A7. apply aside_parent in A7 as [P7 C7].
  rewrite bind_run.
  match goal with |- context [sys_write_tickets ?t ?c e s7] =>
    destruct (sys_write_tickets_aside t c e s7 Hc) as (s8 & -> & A8) end.
  apply aside_parent in A8 as [P8 C8].
  cbn beta iota. rewrite Z.eqb_refl. cbn [negb].
  rewrite bind_run, fatal_if_false. cbn beta iota. rewrite bind_run.
  match goal with |- context [collect ?n ?i ?w ?r ?f e s8] =>
    destruct (collect_parent n i w r f e s8 Hc) as ([first last] & s9 & -> & P9 & Hl9 & Hall9) end.
  { rewrite C8, C7, C6, C5, C4, Hl3. lia. }
  { by rewrite C8, C7, C6, C5, C4. }
  cbn beta iota.
  run_aside s10 A10. apply aside_parent in A10 as [P10 C10].
  match goal with |- context [set_g ?f e s10] =>
    destruct (set_g_aside f e s10) as (s11 & -> & A11); [done|] end.
  apply aside_parent in A11 as [P11 C11].
  eexists. split; [reflexivity|]. split.
  { eauto 20 using parent_trans. }
  rewrite C11, C10. split; [|done].
  rewrite C8, C7, C6, C5, C4, Hl3, C2, C1, C0 in Hl9. lia.
Qed.

(** ** The whole run *)

Lemma parse_options_accepts argv e s :
  (∀ i, examined argv i -> recognised (arg argv i)) ->
  1 <= scanned_size (length argv) argv 1 (file_size (st_g s)) ->
  ∃ d r s', parse_options argv e s = (Ret (d, r), s') ∧ st_os s' = st_os s ∧
    file_size (st_g s')
      = int64 (scanned_size (length argv) argv 1 (file_size (st_g s)) * (1024 * 1024 * 1024)).
Proof.
  intros Hall Hsz. unfold parse_options.
  destruct (proj2 (scan_options_spec (length argv) argv 1 "." 0 e s eq_refl ltac:(lia) ltac:(lia)))
    as (d & r & s1 & R & Ho & Hf); [by intros i _; apply Hall|].
  rewrite bind_run, R. cbn beta iota. rewrite bind_run, run_get_g. cbn beta iota.
  rewrite Hf.
  destruct (Z.ltb_spec (scanned_size (length argv) argv 1 (file_size (st_g s))) 1); [lia|].
  rewrite bind_run, run_skip. cbn beta iota. rewrite bind_run, run_set_g. cbn beta iota.
  rewrite run_ret. eexists _, _, _. split; [reflexivity|]. cbn. by rewrite Hf.
Qed.

Lemma quot_blocks size : (size * (1024 * 1024 * 1024)) ÷ Chunk = size * 131072.
Proof.
  replace (size * (1024 * 1024 * 1024)) with (size * 131072 * Chunk) by (unfold Chunk; lia).
  apply Z.quot_mul. done.
Qed.

Lemma sequential_phases_calm fuel argv e s :
  calm e -> f_exists (st_os s) = false ->
  (∀ i, examined argv i -> recognised (arg argv i)) ->
  let size := scanned_size (length argv) argv 1 (file_size (st_g s)) in
  1 <= size < 16384 ->
  size * 131072 + 1 < Z.of_nat fuel ->
  ∃ s', sequential_phases fuel argv e s = (Ret tt, s') ∧
    pid (st_os s') = pid (st_os s) ∧ children (st_os s') = children (st_os s) ∧
    file_size (st_g s') = size * (1024 * 1024 * 1024) ∧
    f_exists (st_os s') = true ∧ f_size (st_os s') = file_size (st_g s') ∧
    logged s s'
      (run_of (λ k, (k * Chunk, Chunk, Chunk)) (Z.to_nat (size * 131072))
       ++ run_of (λ k, (k * Chunk, Chunk, Chunk)) (Z.to_nat (size * 131072)))
      (run_of (λ k, (2 * k * Chunk, Chunk, if k <? size * 65536 then Chunk else 0))
              (S (Z.to_nat (size * 65536)))
       ++ run_of (λ k, (k * Chunk, Chunk, if k <? size * 131072 then Chunk else 0))
              (S (Z.to_nat (size * 131072)))).
Proof.
  intros Hc Hex Hall size Hsz Hfuel.
  unfold sequential_phases, sys_atexit, fprintf_stderr.
  run_aside s0 A0. cbn [Z.eqb]. rewrite bind_run, run_skip. cbn beta iota.
  run_aside s1 A1. change (nonzero 0) with false. cbn beta iota.
  rewrite bind_run, run_skip. cbn beta iota.
  run_aside s2 A2. change (nonzero 0) with false. cbn beta iota.
  rewrite bind_run, run_skip. cbn beta iota.
  run_aside s3 A3. change (nonzero 0) with false. cbn beta iota.
  rewrite bind_run, run_skip. cbn beta iota.
  destruct (sys_time_aside e s3) as (t & s4 & R4 & A4). rewrite bind_run, R4. cbn beta iota.
  rewrite bind_run.
  match goal with |- context [set_g ?f e s4] =>
    destruct (set_g_aside f e s4) as (s5 & R5 & A5); [done|] end.
  rewrite R5. cbn beta iota.
  pose proof (aside_trans _ _ _ A0 (aside_trans _ _ _ A1 (aside_trans _ _ _ A2
                (aside_trans _ _ _ A3 (aside_trans _ _ _ A4 A5))))) as A05.
  destruct A05 as ((Pp5 & Pc5 & F5) & (X5 & Z5 & Q5) & S5).
  (* the options *)
  destruct (parse_options_accepts argv e s5 Hall) as (d & r & s6 & R6 & O6 & F6).
  { rewrite F5. fold size. lia. }
  rewrite F5 in F6. fold size in F6. rewrite int64_id in F6 by lia.
  rewrite bind_run, R6. cbn beta iota.
  destruct (sys_getpid_aside e s6) as (p & s7 & R7 & A7). rewrite bind_run, R7. cbn beta iota.
  rewrite bind_run.
  match goal with |- context [set_g ?f e s7] =>
    destruct (set_g_aside f e s7) as (s8 & R8 & A8); [done|] end.
  rewrite R8. cbn beta iota. rewrite bind_run, run_get_g. cbn beta iota.
  run_aside s9 A9.
  pose proof (aside_trans _ _ _ A7 (aside_trans _ _ _ A8 A9)) as A69.
  destruct A69 as ((Pp9 & Pc9 & F9) & (X9 & Z9 & Q9) & S9).
  (* the block writes *)
  rewrite bind_run.
  assert (Hn : iterations 0 (file_size (st_g s9) ÷ Chunk) = Z.to_nat (size * 131072)).
  { unfold iterations. rewrite F9, F6, quot_blocks. f_equal. lia. }
  destruct (write_phase_calm fuel (-1) r e s9 Hc ltac:(by right))
    as (buf10 & s10 & -> & (Pp10 & Pc10 & F10) & X10 & Z10 & L10).
  { rewrite F9, F6, quot_blocks. lia. } { rewrite Hn. lia. }
  cbn beta iota.
  rewrite Hn in L10, Z10.
  (* the rewrite *)
  rewrite bind_run.
  destruct (rewrite_phase_calm fuel 3 r buf10 e s10 (Z.to_nat (size * 65536)) (size * 131072) Hc X10)
    as (buf11 & s11 & -> & (Pp11 & Pc11 & F11) & X11 & Z11 & L11).
  { rewrite Z10. f_equal. lia. } { lia. } { lia. } { lia. }
  cbn beta iota.
  (* the block reads *)
  rewrite bind_run.
  destruct (read_phase_calm fuel 3 buf11 e s11 (Z.to_nat (size * 131072)) Hc X11)
    as (buf12 & s12 & -> & (Pp12 & Pc12 & F12) & X12 & Z12 & L12).
  { rewrite Z11. f_equal. lia. } { lia. }
  cbn beta iota. rewrite run_skip.
  eexists. split; [reflexivity|].
  split; [by rewrite Pp12, Pp11, Pp10, Pp9, O6|].
  split; [by rewrite Pc12, Pc11, Pc10, Pc9, O6|].
  assert (F : file_size (st_g s12) = size * (1024 * 1024 * 1024)) by congruence.
  split; [exact F|]. split; [exact X12|]. split; [rewrite Z12, Z11, F; unfold Chunk; lia|].
  assert (S6 : silent s5 s6) by (apply silent_same; by rewrite O6).
  eapply logged_as.
  { exact (silent_then _ _ _ _ _ (silent_trans _ _ _ S5 (silent_trans _ _ _ S6 S9))
             (logged_trans _ _ _ _ _ _ _ L10 (logged_trans _ _ _ _ _ _ _ L11 L12))). }
  - rewrite app_nil_r. f_equal. f_equal. lia.
  - cbn [app]. f_equal.
    + replace (Z.of_nat (Z.to_nat (size * 65536))) with (size * 65536) by lia. done.
    + replace (Z.of_nat (Z.to_nat (size * 131072))) with (size * 131072) by lia. done.
Qed.

(** The exit of the coordinator when the file is there and [unlink] does not
    fail. *)
Lemma c_exit_unlinks {A} status e s :
  calm e -> f_exists (st_os s) = true -> do_cleanup (st_g s) ≠ 0 ->
  ∃ s', @c_exit A status e s = (Stop (Exited status), s') ∧
    trace (st_os s') = trace (st_os s)
      ++ [EvSys (ncall (st_os s)) c_unlink (f_pos (st_os s)) 0; EvReport; EvExit status] ∧
    pid (st_os s') = pid (st_os s) ∧ children (st_os s') = children (st_os s) ∧
    f_exists (st_os s') = false.
Proof.
  intros Hc Hex Hdc. unfold c_exit, cleanup, sys_unlink.
  assert (E : nonzero (do_cleanup (st_g s)) = true).
  { unfold nonzero. by destruct (Z.eqb_spec (do_cleanup (st_g s)) 0). }
  rewrite !bind_run, run_get_g. cbn beta iota. rewrite E.
  autorewrite with run. cbn [fst snd st_os st_g]. rewrite Hex, plain_calm by done.
  cbn [Z.eqb]. eexists. split; [reflexivity|].
  cbn [trace st_os st_g with_trace counted with_file pid children f_exists].
  rewrite <- !app_assoc. done.
Qed.

(** X14.  The whole run when no call fails.  For a command line of known
    flags whose size is between 1 and 16383 GB (fewer than 2^31 blocks), and
    fuel for the loops, [main] runs to its end and exits with status 0
    through the handler: the process is the coordinator, no child is left
    unwaited for, the coordinator has written every block twice (in the
    write and in the rewrite phase) and read every other block in the rewrite
    phase and every block in the read phase; at the [return 0] the file
    exists and has the size asked for, and the trace ends with the [unlink]
    of the file, which succeeds, the report table and the exit. *)
Theorem main_runs_to_exit fuel argv e p :
  calm e -> 0 <= p ->
  (∀ i, examined argv i -> recognised (arg argv i)) ->
  let size := scanned_size (length argv) argv 1 24 in
  1 <= size < 16384 ->
  size * 131072 + 1 < Z.of_nat fuel ->
  ∃ s', main fuel argv e (state0 p) = (Stop (Exited 0), s') ∧
    pid (st_os s') = p ∧ children (st_os s') = [] ∧ f_exists (st_os s') = false ∧
    (∃ s3, (sequential_phases fuel argv;; do_seekstuff fuel 0 Lseek;;
            do_seekstuff fuel 1 Lseek2) e (state0 p) = (Ret tt, s3) ∧
       f_exists (st_os s3) = true ∧ f_size (st_os s3) = size * (1024 * 1024 * 1024) ∧
       trace (st_os s') = trace (st_os s3)
         ++ [EvSys (ncall (st_os s3)) c_unlink (f_pos (st_os s3)) 0; EvReport; EvExit 0]) ∧
    logged (state0 p) s'
      (run_of (λ k, (k * Chunk, Chunk, Chunk)) (Z.to_nat (size * 131072))
       ++ run_of (λ k, (k * Chunk, Chunk, Chunk)) (Z.to_nat (size * 131072)))
      (run_of (λ k, (2 * k * Chunk, Chunk, if k <? size * 65536 then Chunk else 0))
              (S (Z.to_nat (size * 65536)))
       ++ run_of (λ k, (k * Chunk, Chunk, if k <? size * 131072 then Chunk else 0))
              (S (Z.to_nat (size * 131072)))).
Proof.
  intros Hc Hp Hall size Hsz Hfuel. unfold main.
  destruct (sequential_phases_calm fuel argv e (state0 p) Hc eq_refl Hall Hsz Hfuel)
    as (s1 & R1 & P1 & C1 & F1 & X1 & Z1 & L1).
  pose proof (tidy_sequential_phases fuel argv e (state0 p) ltac:(done)) as D1.
  rewrite R1 in D1.
  rewrite bind_run, R1. cbn beta iota.
  destruct (do_seekstuff_parent fuel 0 Lseek e s1 Hc) as (s2 & R2 & P2 & C2 & A2).
  { rewrite P1. done. } { rewrite C1. constructor. }
  pose proof (tidy_do_seekstuff fuel 0 Lseek e s1 D1) as D2. rewrite R2 in D2.
  rewrite bind_run, R2. cbn beta iota.
  destruct (do_seekstuff_parent fuel 1 Lseek2 e s2 Hc) as (s3 & R3 & P3 & C3 & A3).
  { destruct P2 as [-> _]. rewrite P1. done. } { done. }
  pose proof (tidy_do_seekstuff fuel 1 Lseek2 e s2 D2) as D3. rewrite R3 in D3.
  rewrite bind_run, R3. cbn beta iota.
  pose proof (parent_trans _ _ _ P2 P3) as (Pp & Pf & (Px & Pz & Pq) & Ps).
  destruct (c_exit_unlinks (A:=Z) 0 e s3 Hc ltac:(congruence) D3)
    as (s4 & R4 & T4 & P4 & C4 & X4).
  exists s4. split; [exact R4|].
  split; [by rewrite P4, Pp, P1|].
  split. { rewrite C4. rewrite C2, C1 in C3. cbn in C3. by destruct (children (st_os s3)). }
  split; [exact X4|].
  split.
  { exists s3. split; [by rewrite bind_run, R1, bind_run, R2|].
    split; [congruence|]. split; [rewrite Pz, Z1, F1; done | exact T4]. }
  assert (S4 : silent s3 s4) by (eexists; split; [exact T4 | done]).
  eapply then_silent; [|exact S4]. by eapply then_silent.
Qed.

Lemma main_runs_to_exit_witness :
  ∃ s', main (Z.to_nat 140000) ["bonnie"; "-s"; "1"; "x"] quiet_env (state0 100)
        = (Stop (Exited 0), s') ∧
    children (st_os s') = [] ∧ f_exists (st_os s') = false.
Proof.
  destruct (main_runs_to_exit (Z.to_nat 140000) ["bonnie"; "-s"; "1"; "x"] quiet_env 100)
    as (s' & R & _ & C & X & _).
  - intros k. reflexivity.
  - lia.
  - intros i [Hr Ho]. simpl in Hr.
    assert (i = 1 ∨ i = 2) as [->| ->] by lia.
    + right; left; reflexivity.
    + discriminate Ho.
  - vm_compute. split; [discriminate | reflexivity].
  - change (scanned_size (length ["bonnie"; "-s"; "1"; "x"]) ["bonnie"; "-s"; "1"; "x"] 1 24)
      with 1.
    rewrite Z2Nat.id; lia.
  - exists s'. split; [exact R|]. split; [exact C|]. exact X.
Defined.

(** * The block an updating [doseek] writes back *)

Lemma stack_array_lookup e n (j : nat) :
  Z.of_nat j < n -> stack_array e n !! j = Some (e_stack e (Z.of_nat j)).
Proof.
  intros Hj. unfold stack_array. rewrite list_lookup_fmap, lookup_seq_lt by lia. done.
Qed.

Lemma read_into_lookup src nwords buf (j : nat) x :
  buf !! j = Some x -> Z.of_nat j < nwords -> read_into src nwords buf !! j = Some (src (Z.of_nat j)).
Proof.
  intros Hx Hj. unfold read_into. rewrite list_lookup_imap, Hx. cbn.
  by destruct (Z.ltb_spec (Z.of_nat j) nwords); [|lia].
Qed.

Lemma read_into_length src nwords buf : length (read_into src nwords buf) = length buf.
Proof. unfold read_into. apply length_imap. Qed.

(** X15.  An updating [doseek] when no call fails, on a block that lies in
    the file: it reads the block at the probe offset and writes it back to the
    same offset, [Chunk] bytes, with exactly one word decremented (as an
    [int]); that word is neither the first nor the last of the block, and
    the size of the file does not change. *)
Theorem doseek_update_writes_block_back w fd u t e s :
  calm e -> fair_dice e -> 0 <= probe_of w -> probe_of w + Chunk <= f_size (st_os s) ->
  nonzero u = true -> nonzero t = true ->
  let data := e_data e (S (ncall (st_os s))) in
  let i := touch_index (e_random e (nrandom (st_os s))) Chunk in
  ∃ s1 evs buf', doseek w fd u t e s = (Ret tt, s1) ∧
    trace (st_os s1) = trace (st_os s) ++ evs ∧
    file_reads evs = [(probe_of w, Chunk, Chunk)] ∧
    file_writes evs = [(probe_of w, buf', Chunk, Chunk)] ∧
    1 <= i <= Chunk ÷ IntSize - 2 ∧ Z.of_nat (length buf') = Chunk ÷ IntSize ∧
    (∀ j : nat, Z.of_nat j < Chunk ÷ IntSize ->
       buf' !! j = Some (if decide (Z.of_nat j = i) then int32 (data (Z.of_nat j) - 1)
                         else data (Z.of_nat j))) ∧
    f_size (st_os s1) = f_size (st_os s) ∧ f_pos (st_os s1) = probe_of w + Chunk.
Proof.
  intros Hc Hr Hp Hs Hu Ht data i.
  unfold doseek, uninit, sys_lseek, sys_read, sys_write, sys_fsync, sys_plain.
  assert (Hlt : (probe_of w <? 0) = false) by (apply Z.ltb_ge; lia).
  rewrite bind_run, run_log. cbn beta iota.
  rewrite bind_run, run_ask. cbn beta iota zeta.
  rewrite bind_run, run_syscall. cbn [fst snd Z.eqb]. rewrite plain_calm by done.
  rewrite !Hlt. cbn beta iota. rewrite Z.eqb_refl. cbn [negb].
  rewrite bind_run, fatal_if_false. cbn beta iota.
  rewrite !bind_run, run_get_os. cbn beta iota.
  rewrite bind_run, run_syscall. cbn [fst snd st_os]. rewrite transfer_calm by done.
  cbn [f_size f_pos counted with_trace with_pos with_file ncall].
  replace (Z.max 0 (Z.min Chunk (f_size (st_os s) - probe_of w))) with Chunk
    by (unfold Chunk in *; lia).
  cbn beta iota. change (Chunk <? 0) with false. cbn beta iota.
  rewrite bind_run, run_ask. cbn beta iota. rewrite run_ret. cbn beta iota.
  change (Chunk =? -1) with false. rewrite bind_run, fatal_if_false. cbn beta iota.
  rewrite Hu, Ht. cbn [andb].
  rewrite bind_run, run_random. cbn beta iota.
  rewrite touch_divisor_chunk. rewrite bind_run, run_skip. cbn beta iota.
  rewrite bind_run, run_syscall. cbn [fst snd Z.eqb]. rewrite plain_calm by done.
  rewrite !Hlt. cbn beta iota. rewrite Z.eqb_refl. cbn [negb].
  rewrite bind_run, fatal_if_false. cbn beta iota.
  rewrite bind_run, run_syscall. cbn [fst snd]. rewrite transfer_calm by done.
  change (Chunk <? 0) with false. cbn beta iota.
  change (Chunk =? -1) with false. rewrite bind_run, fatal_if_false. cbn beta iota.
  rewrite bind_run, run_syscall. cbn [fst snd]. rewrite plain_calm by done.
  cbn [Z.eqb]. rewrite fatal_if_false.
  cbn [st_os nrandom drawn counted with_trace with_pos with_file].
  fold data. fold i.
  assert (Hi : 1 <= i <= Chunk ÷ IntSize - 2).
  { subst i. apply touch_index_inside; [apply Hr | unfold Chunk; lia |].
    change (3 <= 2048). lia. }
  change (Chunk ÷ IntSize) with 2048 in *.
  eexists _, _, _. split; [reflexivity|].
  cbn [st_os st_g f_exists f_size f_pos control trace counted with_trace with_pos with_file drawn].
  split; [rewrite <- !app_assoc; reflexivity|].
  split; [reflexivity|]. split; [reflexivity|]. split; [exact Hi|].
  split.
  { change (Chunk ÷ IntSize) with 2048.
    rewrite length_insert, read_into_length. by apply stack_array_length. }
  split; [|split; [unfold Chunk in *; lia | reflexivity]].
  intros j Hj.
  assert (Hin : ∀ j : nat, Z.of_nat j < 2048 ->
            read_into data (Chunk ÷ IntSize) (stack_array e 2048) !! j = Some (data (Z.of_nat j))).
  { intros j' Hj'. eapply read_into_lookup; [by apply stack_array_lookup | done]. }
  destruct (decide (Z.of_nat j = i)) as [E|E].
  - replace (Z.to_nat i) with j by lia. rewrite list_lookup_insert_eq.
    + unfold word_at. rewrite <- E, Nat2Z.id, Hin by done. done.
    + rewrite read_into_length. pose proof (stack_array_length e 2048 ltac:(done)). lia.
  - rewrite list_lookup_insert_ne by lia. by apply Hin.
Qed.

Lemma doseek_update_writes_block_back_witness :
  ∃ s1 evs buf', doseek 20000 3 1 1 quiet_env (with_file4 0 []) = (Ret tt, s1) ∧
    trace (st_os s1) = trace (st_os (with_file4 0 [])) ++ evs ∧
    file_writes evs = [(16384, buf', Chunk, Chunk)] ∧
    buf' !! 1%nat = Some 6.
Proof.
  destruct (doseek_update_writes_block_back 20000 3 1 1 quiet_env (with_file4 0 []))
    as (s1 & evs & buf' & R & T & _ & W & _ & _ & B & _).
  - intros k. reflexivity.
  - apply quiet_env_fair.
  - vm_compute. discriminate.
  - vm_compute. discriminate.
  - reflexivity.
  - reflexivity.
  - exists s1, evs, buf'. split; [exact R|]. split; [exact T|]. split; [exact W|].
    apply (B 1%nat). vm_compute. reflexivity.
Defined.
